(** * ODBC_DB: seeding a department/employee schema with generated records

    A shallow embedding of [main.py].  The script talks to three
    collaborators that live outside the repository: the [pyodbc] connection
    and cursor, the global [random] module and the [Faker] generator.  Each
    of them is a component of an explicit [world]; the script's functions
    are state-and-exception computations over that world.

    Conventions.
    - Python [str] values are lists of characters; a character [c] stands
      for the code point [U+00cc] (the Latin-1 range).
    - Python [int] values are [Z]; [None]-able values are [option].
    - Python objects live in a heap of allocation-ordered cells; a reference
      is the index of its cell. *)

From Stdlib Require Import ZArith Ascii String Lia Bool.
From stdpp Require Import base tactics option list gmap.

Local Open Scope Z_scope.

Abbreviation text := (list ascii).

(** [str "abc"] is the Python literal ["abc"]. *)
Definition str (s : string) : text := list_ascii_of_string s.

(* ===================================================================== *)
(** ** Exceptions and results *)
(* ===================================================================== *)

(** The exception classes that can travel through the script.  All of them
    derive from [Exception], so the [except Exception] clauses of
    [create_tables] catch every one of them. *)
Inductive exn : Type :=
  | pyodbc_Error (sqlstate : string)     (* raised by the connection or cursor *)
  | ValueError (msg : string)
  | IndexError
  | TypeError
  | AttributeError
  | UniquenessException.                 (* faker.exceptions *)

Inductive result (A : Type) : Type :=
  | Ok (a : A)
  | Raise (e : exn).
Arguments Ok {A} a.
Arguments Raise {A} e.

(* ===================================================================== *)
(** ** The [str] methods used by [textwrap] *)
(* ===================================================================== *)

Module Str.

Definition code (c : ascii) : N := N_of_ascii c.

Definition between (lo hi : N) (c : ascii) : bool :=
((lo <=? code c) && (code c <=? hi))%N.

(** [c.isspace()] on the Latin-1 range: TAB..CR, FS..US and SPACE, NEL,
  NBSP. *)
Definition isspace (c : ascii) : bool :=
between 9 13 c || between 28 32 c || between 133 133 c || between 160 160 c.

(** [s.lstrip()], [s.rstrip()], [s.strip()] *)
Fixpoint lstrip (s : text) : text :=
match s with
| c :: s' => if isspace c then lstrip s' else s
| [] => []
end.

Definition rstrip (s : text) : text := rev (lstrip (rev s)).

Definition strip (s : text) : text := rstrip (lstrip s).

(** [s.split()]: the maximal runs of non-whitespace characters.  [word]
  is the run being read. *)
Fixpoint split_from (word : text) (s : text) : list text :=
match s with
| [] => match word with [] => [] | _ => [word] end
| c :: s' =>
    if isspace c
    then match word with
         | [] => split_from [] s'
         | _ => word :: split_from [] s'
         end
    else split_from (word ++ [c]) s'
end.

Definition split (s : text) : list text := split_from [] s.

(** [sep.join(words)] *)
Fixpoint join (sep : text) (words : list text) : text :=
match words with
| [] => []
| [w] => w
| w :: ws => w ++ sep ++ join sep ws
end.

(** [s.expandtabs(tabsize)]; [col] is the current column. *)
Fixpoint expandtabs_from (tabsize col : nat) (s : text) : text :=
match s with
| [] => []
| c :: s' =>
    if (code c =? 9)%N then
      match tabsize with
      | O => expandtabs_from tabsize col s'
      | _ =>
          let incr := (tabsize - col mod tabsize)%nat in
          repeat " "%char incr ++ expandtabs_from tabsize (col + incr) s'
      end
    else if (code c =? 10)%N || (code c =? 13)%N then
      c :: expandtabs_from tabsize 0 s'
    else c :: expandtabs_from tabsize (S col) s'
end.

Definition expandtabs (tabsize : nat) (s : text) : text :=
expandtabs_from tabsize 0 s.

(** [s.rfind(sub, 0, stop)] for a one-character [sub]: the largest index
  below [stop] that holds [c], if any ([None] is Python's [-1]). *)
Fixpoint rfind_from (c : ascii) (i stop : nat) (s : text) : option nat :=
match s, stop with
| x :: s', S stop' =>
    match rfind_from c (S i) stop' s' with
    | Some j => Some j
    | None => if Ascii.eqb x c then Some i else None
    end
| _, _ => None
end.

Definition rfind (c : ascii) (stop : nat) (s : text) : option nat :=
rfind_from c 0 stop s.

End Str.

(* ===================================================================== *)
(** ** [textwrap.shorten] *)
(* ===================================================================== *)

(** The part of the standard [textwrap] module behind
    [textwrap.shorten(name, 100, placeholder="")].  A [TextWrapper] keeps
    the three attributes that [shorten] sets; the others stay at their
    defaults and are inlined: empty indents, [expand_tabs], [tabsize = 8],
    [replace_whitespace], [drop_whitespace], [break_long_words] and
    [break_on_hyphens] on, [fix_sentence_endings] off. *)
Module textwrap.

Record TextWrapper : Type := {
width : nat;
max_lines : option nat;
placeholder : text;
}.

(** [_whitespace = '\t\n\x0b\x0c\r '] *)
Definition is_whitespace (c : ascii) : bool :=
Str.between 9 13 c || Str.between 32 32 c.

(** The character classes of [wordsep_re] on the Latin-1 range: [\d],
  [\w], [letter = [^\d\W]] and [word_punct]. *)
Definition is_digit (c : ascii) : bool := Str.between 48 57 c.

Definition is_word (c : ascii) : bool :=
Str.between 48 57 c || Str.between 65 90 c || Str.between 95 95 c
|| Str.between 97 122 c || Str.between 170 170 c || Str.between 178 179 c
|| Str.between 181 181 c || Str.between 185 186 c || Str.between 188 190 c
|| Str.between 192 214 c || Str.between 216 246 c || Str.between 248 255 c.

Definition is_letter (c : ascii) : bool := is_word c && negb (is_digit c).

Definition is_word_punct (c : ascii) : bool :=
is_word c || Str.between 33 34 c || Str.between 38 39 c
|| Str.between 44 44 c || Str.between 46 46 c || Str.between 63 63 c.

Definition is_hyphen (c : ascii) : bool := Str.between 45 45 c.

Definition _munge_whitespace (s : text) : text :=
map (fun c => if is_whitespace c then " "%char else c) (Str.expandtabs 8 s).

(** [nth_is P n s]: the text [s] has a character at offset [n] and it is
  in the class [P]. *)
Definition nth_is (P : ascii -> bool) (n : nat) (s : text) : bool :=
match s !! n with
| Some c => P c
| None => false
end.

Fixpoint skip_hyphens (s : text) : nat * text :=
match s with
| c :: s' =>
    if is_hyphen c then let '(n, r) := skip_hyphens s' in (S n, r) else (O, s)
| [] => (O, [])
end.

(** The lookahead [-{2,}\w]. *)
Definition emdash_ahead (s : text) : bool :=
let '(n, r) := skip_hyphens s in (2 <=? n)%nat && nth_is is_word 0 r.

(** [wordsep_re] has three alternatives; a chunk is a run of whitespace,
  an em-dash between words, or a (piece of a) word. *)
Inductive chunk_kind : Type := in_space | in_dash | in_word.

(** Which alternative matches at a position: [before] is the text read
  so far, most recent character first, [rest] the text ahead. *)
Definition kind_at (before rest : text) : chunk_kind :=
match rest with
| c :: _ =>
    if is_whitespace c then in_space
    else if nth_is is_word_punct 0 before && emdash_ahead rest then in_dash
    else in_word
| [] => in_word
end.

(** Whether the match of kind [k], [len] characters long so far, stops at
  the position between [before] and [rest].  For a word the three
  endings of the regular expression are tried: after the hyphen of a
  hyphenated word, at the end of the word, and before an em-dash. *)
Definition chunk_ends (k : chunk_kind) (len : nat) (before rest : text) : bool :=
match k with
| in_space => negb (nth_is is_whitespace 0 rest)
| in_dash => negb (nth_is is_hyphen 0 rest)
| in_word =>
    ((2 <=? len)%nat && nth_is is_hyphen 0 before
     && (nth_is is_letter 1 before
         && (nth_is is_letter 2 before
             || (nth_is is_hyphen 2 before && nth_is is_letter 3 before)))
     && nth_is is_letter 0 rest
     && ((nth_is is_hyphen 1 rest && nth_is is_letter 2 rest)
         || nth_is is_letter 1 rest))
    || match rest with [] => true | c :: _ => is_whitespace c end
    || (nth_is is_word_punct 0 before && emdash_ahead rest)
end.

(** [wordsep_re.split(text)] without the empty strings.  [cur] is the
  chunk being read, most recent character first, and [k] its kind. *)
Fixpoint split_from (k : option chunk_kind) (before cur rest : text) : list text :=
match rest with
| [] => match cur with [] => [] | _ => [rev cur] end
| c :: rest' =>
    let k' := match k with Some k0 => k0 | None => kind_at before rest end in
    if chunk_ends k' (S (length cur)) (c :: before) rest'
    then rev (c :: cur) :: split_from None (c :: before) [] rest'
    else split_from (Some k') (c :: before) (c :: cur) rest'
end.

Definition _split (s : text) : list text := split_from None [] [] s.

Definition _split_chunks (s : text) : list text := _split (_munge_whitespace s).

Definition blank (s : text) : bool :=
match Str.strip s with [] => true | _ => false end.

(** [_handle_long_word(reversed_chunks, cur_line, cur_len, width)].  The
  chunks are kept in reading order, so [reversed_chunks[-1]] is the
  head; [cur_line] is kept most recent chunk first.  The result is the
  new [cur_line] and the new chunks. *)
Definition _handle_long_word (chunks cur_line : list text) (cur_len width : nat)
: list text * list text :=
let space_left := if (width <? 1)%nat then 1%nat else (width - cur_len)%nat in
match chunks with
| chunk :: below =>
    let end_ :=
      if (space_left <? length chunk)%nat then
        match Str.rfind "-"%char space_left chunk with
        | Some hyphen =>
            if (0 <? hyphen)%nat
               && existsb (fun c => negb (is_hyphen c)) (take hyphen chunk)
            then S hyphen else space_left
        | None => space_left
        end
      else space_left in
    (take end_ chunk :: cur_line, drop end_ chunk :: below)
| [] => (cur_line, chunks)
end.

(** The inner [while chunks:] loop that fills the current line. *)
Fixpoint fill_line (width : nat) (chunks cur_line : list text) (cur_len : nat)
: list text * list text * nat :=
match chunks with
| c :: below =>
    if (cur_len + length c <=? width)%nat
    then fill_line width below (c :: cur_line) (cur_len + length c)
    else (chunks, cur_line, cur_len)
| [] => (chunks, cur_line, cur_len)
end.

(** The [while cur_line:] loop of the truncation branch: [Some line] when
  it leaves through [break], [None] when [cur_line] runs empty. *)
Fixpoint fit_placeholder (tw : TextWrapper) (wd : nat) (cur_line : list text)
  (cur_len : nat) : option text :=
match cur_line with
| last :: before =>
    if negb (blank last) && (cur_len + length (placeholder tw) <=? wd)%nat
    then Some (concat (rev (placeholder tw :: cur_line)))
    else fit_placeholder tw wd before (cur_len - length last)
| [] => None
end.

Definition sum_len (l : list text) : nat := foldr (fun c n => (length c + n)%nat) O l.

(** "The current line is full, and the next chunk is too big to fit on
  any line": the call of [_handle_long_word] and the new [cur_len]. *)
Definition break_long (wd : nat) (chunks cur_line : list text) (cur_len : nat)
: list text * list text * nat :=
match chunks with
| c :: _ =>
    if (wd <? length c)%nat then
      let '(cl, ch) := _handle_long_word chunks cur_line cur_len wd in
      (ch, cl, sum_len cl)
    else (chunks, cur_line, cur_len)
| [] => (chunks, cur_line, cur_len)
end.

(** "If the last chunk on this line is all whitespace, drop it." *)
Definition drop_blank (cur_line : list text) (cur_len : nat) : list text * nat :=
match cur_line with
| last :: before =>
    if blank last then (before, (cur_len - length last)%nat)
    else (cur_line, cur_len)
| [] => (cur_line, cur_len)
end.

(** The test that decides between storing the line and truncating. *)
Definition keeps_line (tw : TextWrapper) (wd : nat) (chunks lines : list text)
  (cur_len : nat) : bool :=
match max_lines tw with
| None => true
| Some m => (length lines + 1 <? m)%nat
end
|| ((match chunks with
     | [] => true
     | [c] => blank c
     | _ => false
     end) && (cur_len <=? wd)%nat).

(** The truncation branch: the lines that [_wrap_chunks] returns. *)
Definition truncate (tw : TextWrapper) (wd : nat) (lines cur_line : list text)
  (cur_len : nat) : list text :=
match fit_placeholder tw wd cur_line cur_len with
| Some line => lines ++ [line]
| None =>
    match rev lines with
    | prev :: earlier =>
        let prev_line := Str.rstrip prev in
        if (length prev_line + length (placeholder tw) <=? width tw)%nat
        then rev earlier ++ [prev_line ++ placeholder tw]
        else lines ++ [Str.lstrip (placeholder tw)]
    | [] => lines ++ [Str.lstrip (placeholder tw)]
    end
end.

(** The outer [while chunks:] loop.  Every pass either pops a chunk or
  shortens the head chunk, so [fuel] above the number of chunks plus
  their total length is never used up (lemma [wrap_loop_fuel]). *)
Fixpoint wrap_loop (fuel : nat) (tw : TextWrapper) (chunks lines : list text)
: list text :=
match fuel with
| O => lines
| S fuel' =>
    match chunks with
    | [] => lines
    | top :: below =>
        let wd := width tw in
        let chunks :=
          if blank top && match lines with [] => false | _ => true end
          then below else chunks in
        let '(chunks, cur_line, cur_len) := fill_line wd chunks [] O in
        let '(chunks, cur_line, cur_len) := break_long wd chunks cur_line cur_len in
        let '(cur_line, cur_len) := drop_blank cur_line cur_len in
        match cur_line with
        | [] => wrap_loop fuel' tw chunks lines
        | _ :: _ =>
            if keeps_line tw wd chunks lines cur_len
            then wrap_loop fuel' tw chunks (lines ++ [concat (rev cur_line)])
            else truncate tw wd lines cur_line cur_len
        end
    end
end.

Definition _wrap_chunks (tw : TextWrapper) (chunks : list text) : result (list text) :=
if (width tw <=? 0)%nat then Raise (ValueError "invalid width (must be > 0)")
else if match max_lines tw with
        | Some _ => (width tw <? length (Str.lstrip (placeholder tw)))%nat
        | None => false
        end
then Raise (ValueError "placeholder too large for max width")
else Ok (wrap_loop (S (length chunks + sum_len chunks)) tw chunks []).

Definition wrap (tw : TextWrapper) (s : text) : result (list text) :=
_wrap_chunks tw (_split_chunks s).

Definition fill (tw : TextWrapper) (s : text) : result text :=
match wrap tw s with
| Ok lines => Ok (Str.join [ascii_of_nat 10] lines)
| Raise e => Raise e
end.

(** [shorten(text, width, placeholder=...)] *)
Definition shorten (s : text) (w : nat) (ph : text) : result text :=
fill {| width := w; max_lines := Some 1%nat; placeholder := ph |}
     (Str.join (str " ") (Str.split (Str.strip s))).

End textwrap.

(* ===================================================================== *)
(** ** Objects *)
(* ===================================================================== *)

(** A reference to an object: the index of its cell in the heap, which is
    also its rank in allocation order. *)
Definition addr : Type := nat.

(** The instance attributes of a [Department]. *)
Module DepartmentObject.
Record t : Type := {
name : text;
id : option Z;
}.
End DepartmentObject.

(** The instance attributes of an [Employee]. *)
Module EmployeeObject.
Record t : Type := {
department : addr;
chief : option addr;
name : text;
salary : Z;
id : option Z;
}.
End EmployeeObject.

Inductive object : Type :=
  | department_object (d : DepartmentObject.t)
  | employee_object (e : EmployeeObject.t).

(* ===================================================================== *)
(** ** The database behind [conn] and [cursor] *)
(* ===================================================================== *)

(** The statements the script sends, one constructor per SQL text, with the
    positional parameters in the order of the [?] marks. *)
Inductive statement : Type :=
  | CREATE_TABLE_department
  | DROP_TABLE_department
  | INSERT_INTO_department (name : text)
  | UPDATE_department (name : text) (id : Z)
  | CREATE_TABLE_employee
  | DROP_TABLE_employee
  | INSERT_INTO_employee (department_id chief_id : option Z) (name : text) (salary : Z)
  | UPDATE_employee (department_id chief_id : option Z) (name : text) (salary : Z) (id : Z)
  | SELECT_IDENTITY.

Module Sql.

Record employee_row : Type := {
department_id : Z;
chief_id : option Z;
name : text;
salary : Z;
}.

(** A table with an [IDENTITY] primary key: its rows by key and the next
  identity value. *)
Record table (R : Type) : Type := {
rows : gmap Z R;
next_identity : Z;
}.
Arguments rows {R} _.
Arguments next_identity {R} _.

(** The session: the two tables when they exist, the value of
  [@@IDENTITY], and the rows the cursor still has to hand out ([None]
  when the last statement was not a query); every row has the single
  column [ID]. *)
Record database : Type := {
department : option (table text);
employee : option (table employee_row);
last_identity : option Z;
pending : option (list (option Z));
}.

Definition empty {R : Type} : table R := {| rows := ∅; next_identity := 1 |}.

(** The table [t] with the row [r] under its next identity value.  [run]
  adds a row only when [identity], below, hands that value out. *)
Definition add {R : Type} (r : R) (t : table R) : table R :=
{| rows := <[next_identity t := r]> (rows t);
   next_identity := next_identity t + 1 |}.

Definition has {R : Type} (t : table R) (k : Z) : bool :=
bool_decide (is_Some (rows t !! k)).

(** [NVARCHAR(100)] and [INTEGER] *)
Definition fits_name (s : text) : bool := (length s <=? 100)%nat.
Definition fits_integer (z : Z) : bool := (-2147483648 <=? z) && (z <=? 2147483647).

Definition no_table : exn := pyodbc_Error "42S02".
Definition table_exists : exn := pyodbc_Error "42S01".
Definition bad_reference : exn := pyodbc_Error "42000".
Definition constraint_violation : exn := pyodbc_Error "23000".
Definition data_too_long : exn := pyodbc_Error "22001".
Definition out_of_range : exn := pyodbc_Error "22003".

(** The row an [INSERT] or [UPDATE] of [employee] would store, after the
  [NOT NULL], foreign-key and type checks. *)
Definition check_employee (db : database) (emps : table employee_row)
  (dep chf : option Z) (nm : text) (sal : Z) : result employee_row :=
match dep with
| None => Raise constraint_violation
| Some d =>
    if negb (match department db with Some t => has t d | None => false end)
    then Raise constraint_violation
    else if negb (match chf with Some c => has emps c | None => true end)
    then Raise constraint_violation
    else if negb (fits_name nm) then Raise data_too_long
    else if negb (fits_integer sal) then Raise out_of_range
    else Ok {| department_id := d; chief_id := chf; name := nm; salary := sal |}
end.

(** The value that the [IDENTITY] column of [t] hands out to the next
  row: an error when it no longer fits into [INTEGER], or when a row has
  that key already (the identity of the table was reseeded below its
  keys). *)
Definition identity {R : Type} (t : table R) : result Z :=
if negb (fits_integer (next_identity t)) then Raise out_of_range
else if has t (next_identity t) then Raise constraint_violation
else Ok (next_identity t).

(** What a statement does to the session.  A statement that fails leaves
  the session as it was. *)
Definition run (s : statement) (db : database) : result database :=
match s with
| CREATE_TABLE_department =>
    match department db with
    | Some _ => Raise table_exists
    | None =>
        Ok {| department := Some empty; employee := employee db;
              last_identity := last_identity db; pending := None |}
    end
| DROP_TABLE_department =>
    match department db, employee db with
    | None, _ => Raise no_table
    | Some _, Some _ => Raise bad_reference
    | Some _, None =>
        Ok {| department := None; employee := employee db;
              last_identity := last_identity db; pending := None |}
    end
| INSERT_INTO_department nm =>
    match department db with
    | None => Raise no_table
    | Some t =>
        if fits_name nm then
          match identity t with
          | Raise e => Raise e
          | Ok v =>
              Ok {| department := Some (add nm t); employee := employee db;
                    last_identity := Some v; pending := None |}
          end
        else Raise data_too_long
    end
| UPDATE_department nm i =>
    match department db with
    | None => Raise no_table
    | Some t =>
        if has t i then
          if fits_name nm then
            Ok {| department :=
                    Some {| rows := <[i := nm]> (rows t);
                            next_identity := next_identity t |};
                  employee := employee db;
                  last_identity := last_identity db; pending := None |}
          else Raise data_too_long
        else
          Ok {| department := department db; employee := employee db;
                last_identity := last_identity db; pending := None |}
    end
| CREATE_TABLE_employee =>
    match employee db, department db with
    | Some _, _ => Raise table_exists
    | None, None => Raise bad_reference
    | None, Some _ =>
        Ok {| department := department db; employee := Some empty;
              last_identity := last_identity db; pending := None |}
    end
| DROP_TABLE_employee =>
    match employee db with
    | None => Raise no_table
    | Some _ =>
        Ok {| department := department db; employee := None;
              last_identity := last_identity db; pending := None |}
    end
| INSERT_INTO_employee dep chf nm sal =>
    match employee db with
    | None => Raise no_table
    | Some t =>
        match check_employee db t dep chf nm sal with
        | Raise e => Raise e
        | Ok r =>
            match identity t with
            | Raise e => Raise e
            | Ok v =>
                Ok {| department := department db; employee := Some (add r t);
                      last_identity := Some v; pending := None |}
            end
        end
    end
| UPDATE_employee dep chf nm sal i =>
    match employee db with
    | None => Raise no_table
    | Some t =>
        if has t i then
          match check_employee db t dep chf nm sal with
          | Raise e => Raise e
          | Ok r =>
              Ok {| department := department db;
                    employee :=
                      Some {| rows := <[i := r]> (rows t);
                              next_identity := next_identity t |};
                    last_identity := last_identity db; pending := None |}
          end
        else
          Ok {| department := department db; employee := employee db;
                last_identity := last_identity db; pending := None |}
    end
| SELECT_IDENTITY =>
    Ok {| department := department db; employee := employee db;
          last_identity := last_identity db;
          pending := Some [last_identity db] |}
end.

(** The number of rows of a table that may not exist. *)
Definition count {R : Type} (t : option (table R)) : nat :=
match t with
| Some t0 => size (rows t0)
| None => O
end.

End Sql.

(* ===================================================================== *)
(** ** The random module and the fake-data generator *)
(* ===================================================================== *)

(** The entropy of the unseeded global [random] module: the draws it will
    make, and how many it has made. *)
Record Random : Type := {
  draws : nat -> Z;
  used : nat;
}.

Module Faker.

Inductive provider : Type := catch_phrase | name.

(** A seeded generator is deterministic: what [fake.unique.<provider>()]
  answers, a text or an exception, is a function of the requests made
  so far, the last one included.  [history] keeps the requests and
  their answers, oldest first. *)
Record t : Type := {
generator : list provider -> result text;
history : list (provider * result text);
}.

Definition asked (f : t) : list provider := (history f).*1.

(** [Faker.seed(s)] followed by [Faker("en_US")]: [lib] is the library,
  which maps a seed to the generator it determines. *)
Definition seed (lib : Z -> list provider -> result text) (s : Z) : t :=
{| generator := lib s; history := [] |}.

Definition ask (p : provider) (f : t) : result text * t :=
let r := generator f (asked f ++ [p]) in
(r, {| generator := generator f; history := history f ++ [(p, r)] |}).

End Faker.

(* ===================================================================== *)
(** ** The world and its computations *)
(* ===================================================================== *)

Inductive call : Type :=
  | execute (s : statement)
  | fetchone
  | commit
  | cursor_close
  | conn_close.

(** What an observer of a run sees, oldest first: every call on the
    connection or cursor with the exception it raised, if any; every
    [logging.warning]; every object allocation; every assignment to an
    [id] attribute made by [save]. *)
Inductive event : Type :=
  | Call (c : call) (failure : option exn)
  | Warning (e : exn)
  | New (a : addr)
  | SetId (a : addr) (v : option Z).

(** [faults] is the environment's plan of failures that do not come from
    the statements themselves (a lost connection, a timeout, a lock): the
    call made when the trace has length [n] raises [e] when
    [faults n = Some e]. *)
Record world : Type := {
  heap : list object;
  conn : Sql.database;
  faults : nat -> option exn;
  trace : list event;
  random : Random;
  fake : Faker.t;
}.

Definition M (A : Type) : Type := world -> result A * world.

Definition ret {A : Type} (a : A) : M A := fun w => (Ok a, w).

Definition raise {A : Type} (e : exn) : M A := fun w => (Raise e, w).

Definition bind {A B : Type} (m : M A) (k : A -> M B) : M B :=
  fun w =>
    match m w with
    | (Ok a, w') => k a w'
    | (Raise e, w') => (Raise e, w')
    end.

Declare Scope py_scope.
Delimit Scope py_scope with py.
Notation "x <- m ;; k" := (bind m (fun x => k))
  (at level 100, m at next level, right associativity) : py_scope.
Notation "m ;; k" := (bind m (fun _ => k))
  (at level 100, right associativity) : py_scope.
Local Open Scope py_scope.

(** [try: body  except Exception as e: handler(e)] *)
Definition try_except {A : Type} (body : M A) (handler : exn -> M A) : M A :=
  fun w =>
    match body w with
    | (Ok a, w') => (Ok a, w')
    | (Raise e, w') => handler e w'
    end.

Definition lift {A : Type} (r : result A) : M A := fun w => (r, w).

Definition record (ev : event) (w : world) : world :=
  {| heap := heap w; conn := conn w; faults := faults w;
     trace := trace w ++ [ev]; random := random w; fake := fake w |}.

Definition with_conn (db : Sql.database) (w : world) : world :=
  {| heap := heap w; conn := db; faults := faults w;
     trace := trace w; random := random w; fake := fake w |}.

Definition with_heap (h : list object) (w : world) : world :=
  {| heap := h; conn := conn w; faults := faults w;
     trace := trace w; random := random w; fake := fake w |}.

Definition with_random (r : Random) (w : world) : world :=
  {| heap := heap w; conn := conn w; faults := faults w;
     trace := trace w; random := r; fake := fake w |}.

Definition with_fake (f : Faker.t) (w : world) : world :=
  {| heap := heap w; conn := conn w; faults := faults w;
     trace := trace w; random := random w; fake := f |}.

(** [logging.warning(e)] *)
Definition logging_warning (e : exn) : M unit :=
  fun w => (Ok tt, record (Warning e) w).

(** *** [cursor] and [conn] *)

(** A call on the session: the planned fault if there is one, otherwise
    what [effect] makes of the session. *)
Definition session_call {A : Type} (c : call)
    (effect : Sql.database -> result (A * Sql.database)) : M A :=
  fun w =>
    match faults w (length (trace w)) with
    | Some e => (Raise e, record (Call c (Some e)) w)
    | None =>
        match effect (conn w) with
        | Ok (a, db) => (Ok a, record (Call c None) (with_conn db w))
        | Raise e => (Raise e, record (Call c (Some e)) w)
        end
    end.

(** [cursor.execute(sql, *params)] *)
Definition cursor_execute (s : statement) : M unit :=
  session_call (execute s)
    (fun db => match Sql.run s db with
               | Ok db' => Ok (tt, db')
               | Raise e => Raise e
               end).

(** [cursor.fetchone()]: the next row, or [None] when there is none left;
    an error when the last statement was not a query. *)
Definition cursor_fetchone : M (option (list (option Z))) :=
  session_call fetchone
    (fun db => match Sql.pending db with
               | None => Raise (pyodbc_Error "24000")
               | Some [] => Ok (None, db)
               | Some (v :: later) =>
                   Ok (Some [v],
                       {| Sql.department := Sql.department db;
                          Sql.employee := Sql.employee db;
                          Sql.last_identity := Sql.last_identity db;
                          Sql.pending := Some later |})
               end).

(** [conn.commit()].  The model keeps the session's own view of the data,
    which a commit does not change. *)
Definition conn_commit : M unit :=
  session_call commit (fun db => Ok (tt, db)).

Definition close (c : call) : M unit :=
  session_call c (fun db => Ok (tt, db)).

(** [row[0]] for the value [cursor.fetchone()] returned. *)
Definition first_column (row : option (list (option Z))) : M (option Z) :=
  match row with
  | None => raise TypeError
  | Some [] => raise IndexError
  | Some (v :: _) => ret v
  end.

(** *** [random] *)

(** [random._randbelow(n)]: a value in [[0, n)], uniform when the draw is. *)
Definition _randbelow (n : Z) : M Z :=
  fun w =>
    let r := random w in
    (Ok (draws r (used r) mod n),
     with_random {| draws := draws r; used := S (used r) |} w).

(** [random.randrange(start, stop)] *)
Definition randrange (start stop : Z) : M Z :=
  let width := stop - start in
  if 0 <? width then k <- _randbelow width ;; ret (start + k)
  else raise (ValueError "empty range for randrange()").

(** [random.randint(a, b)] is [randrange(a, b + 1)]. *)
Definition randint (a b : Z) : M Z := randrange a (b + 1).

(** *** [fake.unique] *)

Definition fake_unique (p : Faker.provider) : M text :=
  fun w => let '(r, f) := Faker.ask p (fake w) in (r, with_fake f w).

(** *** Lists and objects *)

Definition len {A : Type} (l : list A) : Z := Z.of_nat (length l).

(** [l[i]], negative indices counting from the end. *)
Definition getitem {A : Type} (l : list A) (i : Z) : M A :=
  let j := if i <? 0 then i + len l else i in
  if (0 <=? j) && (j <? len l) then
    match l !! Z.to_nat j with
    | Some x => ret x
    | None => raise IndexError
    end
  else raise IndexError.

(** Calling a class: a fresh object with the attributes [o]. *)
Definition new (o : object) : M addr :=
  fun w =>
    let a := length (heap w) in
    (Ok a, record (New a) (with_heap (heap w ++ [o]) w)).

Definition deref (a : addr) : M object :=
  fun w =>
    match heap w !! a with
    | Some o => (Ok o, w)
    | None => (Raise AttributeError, w)
    end.

(** [x.id], for an object of either class. *)
Definition get_id (a : addr) : M (option Z) :=
  o <- deref a ;;
  match o with
  | department_object d => ret (DepartmentObject.id d)
  | employee_object e => ret (EmployeeObject.id e)
  end.

Definition with_id (v : option Z) (o : object) : object :=
  match o with
  | department_object d =>
      department_object
        {| DepartmentObject.name := DepartmentObject.name d;
           DepartmentObject.id := v |}
  | employee_object e =>
      employee_object
        {| EmployeeObject.department := EmployeeObject.department e;
           EmployeeObject.chief := EmployeeObject.chief e;
           EmployeeObject.name := EmployeeObject.name e;
           EmployeeObject.salary := EmployeeObject.salary e;
           EmployeeObject.id := v |}
  end.

(** [self.id = v] *)
Definition set_id (self : addr) (v : option Z) : M unit :=
  fun w =>
    match heap w !! self with
    | Some o =>
        (Ok tt, record (SetId self v) (with_heap (<[self := with_id v o]> (heap w)) w))
    | None => (Raise AttributeError, w)
    end.

(* ===================================================================== *)
(** ** main.py *)
(* ===================================================================== *)

(** *** [class Department] *)
Module Department.

Definition create_table : M unit :=
cursor_execute CREATE_TABLE_department ;;
conn_commit.

Definition drop_table : M unit :=
cursor_execute DROP_TABLE_department ;;
conn_commit.

Definition attributes (self : addr) : M DepartmentObject.t :=
o <- deref self ;;
match o with
| department_object d => ret d
| employee_object _ => raise AttributeError
end.

Definition save (self : addr) : M unit :=
d <- attributes self ;;
match DepartmentObject.id d with
| None =>
    cursor_execute (INSERT_INTO_department (DepartmentObject.name d)) ;;
    cursor_execute SELECT_IDENTITY ;;
    row <- cursor_fetchone ;;
    v <- first_column row ;;
    set_id self v
| Some i =>
    cursor_execute (UPDATE_department (DepartmentObject.name d) i)
end ;;
conn_commit.

(** [Department(name)]: the new object, once [__init__] has returned. *)
Definition __init__ (name : text) : M addr :=
short <- lift (textwrap.shorten name 100 (str "")) ;;
self <- new (department_object
               {| DepartmentObject.name := short;
                  DepartmentObject.id := None |}) ;;
save self ;;
ret self.

End Department.

(** *** [class Employee] *)
Module Employee.

Definition create_table : M unit :=
cursor_execute CREATE_TABLE_employee ;;
conn_commit.

Definition drop_table : M unit :=
cursor_execute DROP_TABLE_employee ;;
conn_commit.

Definition attributes (self : addr) : M EmployeeObject.t :=
o <- deref self ;;
match o with
| employee_object e => ret e
| department_object _ => raise AttributeError
end.

(** [self.chief.id if self.chief is not None else None] *)
Definition chief_id (e : EmployeeObject.t) : M (option Z) :=
match EmployeeObject.chief e with
| Some c => get_id c
| None => ret None
end.

Definition save (self : addr) : M unit :=
e <- attributes self ;;
match EmployeeObject.id e with
| None =>
    dep <- get_id (EmployeeObject.department e) ;;
    chf <- chief_id e ;;
    cursor_execute
      (INSERT_INTO_employee dep chf (EmployeeObject.name e) (EmployeeObject.salary e)) ;;
    cursor_execute SELECT_IDENTITY ;;
    row <- cursor_fetchone ;;
    v <- first_column row ;;
    set_id self v
| Some i =>
    dep <- get_id (EmployeeObject.department e) ;;
    chf <- chief_id e ;;
    cursor_execute
      (UPDATE_employee dep chf (EmployeeObject.name e) (EmployeeObject.salary e) i)
end ;;
conn_commit.

(** [Employee(department, chief, name, salary)] *)
Definition __init__ (department : addr) (chief : option addr) (name : text)
  (salary : Z) : M addr :=
short <- lift (textwrap.shorten name 100 (str "")) ;;
self <- new (employee_object
               {| EmployeeObject.department := department;
                  EmployeeObject.chief := chief;
                  EmployeeObject.name := short;
                  EmployeeObject.salary := salary;
                  EmployeeObject.id := None |}) ;;
save self ;;
ret self.

End Employee.

Definition create_tables : M unit :=
  try_except Employee.drop_table logging_warning ;;
  try_except Department.drop_table logging_warning ;;
  Department.create_table ;;
  Employee.create_table.

(** The [for _ in range(amount)] loop of [get_random_departments], with
    [n] passes to go. *)
Fixpoint departments_loop (n : nat) (departments : list addr) : M (list addr) :=
  match n with
  | O => ret departments
  | S n' =>
      phrase <- fake_unique Faker.catch_phrase ;;
      department <- Department.__init__ phrase ;;
      departments_loop n' (departments ++ [department])
  end.

Definition get_random_departments (amount : Z) : M (list addr) :=
  departments_loop (Z.to_nat amount) [].

(** One pass of the [for _ in range(amount)] loop of
    [get_random_employees]: the employee it appends.  The arguments of
    [Employee(...)] are evaluated left to right. *)
Definition employees_pass (departments employees : list addr) : M addr :=
  department_pos <- randint 0 (len departments - 1) ;;
  chief_pos <- (if 0 <? len employees
                then randint (-1) (len employees - 1)
                else ret (-1)) ;;
  department <- getitem departments department_pos ;;
  chief <- (if -1 <? chief_pos
            then c <- getitem employees chief_pos ;; ret (Some c)
            else ret None) ;;
  name <- fake_unique Faker.name ;;
  salary <- randint 20000 100001 ;;
  Employee.__init__ department chief name salary.

(** The loop, with [n] passes to go. *)
Fixpoint employees_loop (n : nat) (departments employees : list addr)
    : M (list addr) :=
  match n with
  | O => ret employees
  | S n' =>
      employee <- employees_pass departments employees ;;
      employees_loop n' departments (employees ++ [employee])
  end.

Definition get_random_employees (amount : Z) (departments : list addr)
    : M (list addr) :=
  if len departments <? 1 then ret []
  else employees_loop (Z.to_nat amount) departments [].

Definition create_fake_data (departments_amount employees_amount : Z)
    : M (list addr * list addr) :=
  departments <- get_random_departments departments_amount ;;
  employees <- get_random_employees employees_amount departments ;;
  ret (departments, employees).

(** The statements at module level.  [boot] is the world after the first
    eighteen lines: the generator seeded with 73, an open session on the
    database as the run finds it, a fresh interpreter. *)
Definition boot (lib : Z -> list Faker.provider -> result text)
    (db : Sql.database) (plan : nat -> option exn) (entropy : nat -> Z) : world :=
  {| heap := []; conn := db; faults := plan; trace := [];
     random := {| draws := entropy; used := O |};
     fake := Faker.seed lib 73 |}.

Definition main : M unit :=
  create_tables ;;
  departments_amount <- randint 3 10 ;;
  employees_amount <- randint 10 50 ;;
  create_fake_data departments_amount employees_amount ;;
  close cursor_close ;;
  close conn_close.

(* ===================================================================== *)
(** ** Vocabulary of the statements *)
(* ===================================================================== *)

(** The argument [shorten] hands to [fill]: the words of the text, one
    space between them. *)
Definition collapse (s : text) : text :=
  Str.join (str " ") (Str.split (Str.strip s)).

(** The [name] attribute of the object at [a]. *)
Definition name_of (w : world) (a : addr) : option text :=
  match heap w !! a with
  | Some (department_object d) => Some (DepartmentObject.name d)
  | Some (employee_object e) => Some (EmployeeObject.name e)
  | None => None
  end.

(** The [id] attribute of the object at [a]; [None] also when there is no
    such object. *)
Definition id_of (w : world) (a : addr) : option Z :=
  match heap w !! a with
  | Some (department_object d) => DepartmentObject.id d
  | Some (employee_object e) => EmployeeObject.id e
  | None => None
  end.

Definition employee_at (w : world) (a : addr) : option EmployeeObject.t :=
  match heap w !! a with
  | Some (employee_object e) => Some e
  | _ => None
  end.

Definition department_at (w : world) (a : addr) : option DepartmentObject.t :=
  match heap w !! a with
  | Some (department_object d) => Some d
  | _ => None
  end.

(** [chief_edge w e c]: the employee at [e] has the employee at [c] as its
    chief. *)
Definition chief_edge (w : world) (e c : addr) : Prop :=
  exists r, employee_at w e = Some r /\ EmployeeObject.chief r = Some c.

(** [ev1] happens before [ev2] in the trace [t]. *)
Definition precedes (ev1 ev2 : event) (t : list event) : Prop :=
  exists t1 t2 t3, t = t1 ++ ev1 :: t2 ++ ev2 :: t3.

(** The calls on the session among the events of a trace. *)
Definition is_call (ev : event) : bool :=
  match ev with
  | Call _ _ => true
  | _ => false
  end.

Definition calls (t : list event) : list event := filter (fun ev => is_call ev = true) t.

(** The statements a trace executed, in order. *)
Fixpoint statements (t : list event) : list statement :=
  match t with
  | Call (execute s) _ :: t' => s :: statements t'
  | _ :: t' => statements t'
  | [] => []
  end.

(** A word of [split]: no whitespace in it. *)
Definition solid (word : text) : Prop :=
  forallb (fun c => negb (Str.isspace c)) word = true.

(** In a collapsed text the only whitespace is the single space. *)
Definition clean (s : text) : Prop :=
  Forall (fun c => Str.isspace c = true -> c = " "%char) s.

(** The chunk at the bottom of the line that [_wrap_chunks] builds starts
    with a character that is not whitespace. *)
Definition bottom_solid (cur_line : list text) : Prop :=
  exists l x r, cur_line = l ++ [x :: r] /\ Str.isspace x = false.

(** [interrupted plan e t]: the events [t] are the planned events [plan] up
    to one of its calls, which raised [e] instead of returning. *)
Definition interrupted (plan : list event) (e : exn) (t : list event) : Prop :=
  exists before c after,
    plan = before ++ Call c None :: after /\ t = before ++ [Call c (Some e)].

(** [follows plan res t]: a computation that ended in [res] produced the
    events [t] by going through [plan] once, from its first event on: all
    of it when it returned, and up to the call that raised the exception of
    [res] otherwise. *)
Definition follows {A : Type} (plan : list event) (res : result A) (t : list event)
  : Prop :=
  match res with
  | Ok _ => t = plan
  | Raise e => interrupted plan e t
  end.

(** The events of a [save] that inserts, and of one that updates. *)
Definition insert_plan (self : addr) (s : statement) (v : Z) : list event :=
  [Call (execute s) None; Call (execute SELECT_IDENTITY) None; Call fetchone None;
   SetId self (Some v); Call commit None].

Definition update_plan (s : statement) : list event :=
  [Call (execute s) None; Call commit None].

(** The events of creating or dropping a table. *)
Definition ddl_plan (s : statement) : list event :=
  [Call (execute s) None; Call commit None].

(** The parts of the world that belong to the environment stay as they
    were. *)
Definition same_environment (w w' : world) : Prop :=
  faults w' = faults w /\ random w' = random w /\ fake w' = fake w.

(** The parameter [save] passes for [chief_id]:
    [self.chief.id if self.chief is not None else None]. *)
Definition chief_key (w : world) (r : EmployeeObject.t) : option Z :=
  match EmployeeObject.chief r with
  | Some c => id_of w c
  | None => None
  end.

(** [allocated w a]: the reference [a] is to an object of the world [w]. *)
Definition allocated (w : world) (a : addr) : Prop := is_Some (heap w !! a).

(** The outcomes of the chief draw for a pass that finds [employees]
    already generated, one per value of [_randbelow]: no chief first, then
    each of the employees. *)
Definition chief_choices (employees : list addr) : list (option addr) :=
  None :: (Some <$> employees).

(** The number of draws [get_random_employees] has made when it starts
    pass [i] (the first pass makes two, every later one three), and the
    place of the draw for the salary of pass [i] after the first draw of
    the run. *)
Definition draws_used (i : nat) : nat :=
  match i with
  | O => O
  | S k => (3 * k + 2)%nat
  end.

Definition salary_draw (i : nat) : nat :=
  match i with
  | O => 1%nat
  | S k => (3 * k + 4)%nat
  end.

(** The events of a construction that succeeds. *)
Definition birth (self : addr) (s : statement) (v : Z) : list event :=
  New self :: insert_plan self s v.

(** The world after one draw from [random]. *)
Definition drawn (w : world) : world :=
  with_random {| draws := draws (random w); used := S (used (random w)) |} w.

(** [drawn_as g u departments employees i r]: the attributes [r] are those
    of the employee that pass [i] of a run of [get_random_employees]
    makes, when the run started with [u] draws used, the entropy is [g]
    and the run returns [employees].  The department comes from the first
    draw of the pass, the chief (after the first pass) from the second, the
    salary from the last. *)
Definition drawn_as (g : nat -> Z) (u : nat) (departments employees : list addr)
    (i : nat) (r : EmployeeObject.t) : Prop :=
  departments !! Z.to_nat (g (u + draws_used i)%nat mod len departments)
    = Some (EmployeeObject.department r) /\
  (i = O -> EmployeeObject.chief r = None) /\
  (i <> O ->
   chief_choices (take i employees)
     !! Z.to_nat (g (u + 3 * i)%nat mod (Z.of_nat i + 1))
   = Some (EmployeeObject.chief r)) /\
  EmployeeObject.salary r = 20000 + g (u + salary_draw i)%nat mod 80002.

(* ===================================================================== *)
(** ** Sample worlds *)
(* ===================================================================== *)

(** A database without the two tables, an environment without faults, and
    a fake-data library whose answers differ from request to request. *)
Definition no_tables : Sql.database :=
  {| Sql.department := None; Sql.employee := None;
     Sql.last_identity := None; Sql.pending := None |}.

Definition no_faults : nat -> option exn := fun _ => None.

Definition sample_lib (seed : Z) (asked : list Faker.provider) : result text :=
  Ok (match last asked with
      | Some Faker.name => str "Grace  Hopper "
      | _ => str "Synergistic  web-enabled  matrix "
      end ++ repeat "I"%char (length asked)).

(** The world the script starts in on a new database, with the entropy
    [entropy]; the world after [create_tables()]; and the world after one
    department has been generated as well. *)
Definition sample_boot (entropy : nat -> Z) : world :=
  boot sample_lib no_tables no_faults entropy.

Definition sample_ready (entropy : nat -> Z) : world :=
  (create_tables (sample_boot entropy)).2.

Definition sample_staffed (entropy : nat -> Z) : world :=
  (get_random_departments 1 (sample_ready entropy)).2.

(** A world in which the connection is lost after [n] events. *)
Definition sample_lossy (n : nat) (entropy : nat -> Z) : world :=
  boot sample_lib no_tables
       (fun k => if (n <=? k)%nat then Some (pyodbc_Error "08S01") else None) entropy.

(** [quiet w]: the environment of [w] plans no fault. *)
Definition quiet (w : world) : Prop := forall k, faults w k = None.

(** The events of dropping a table inside [try ... except Exception]: the
    plan, or the plan up to a failing call followed by the warning that
    reports the exception of that call. *)
Definition drop_events (s : statement) (t : list event) : Prop :=
  t = ddl_plan s \/
  exists e t0, interrupted (ddl_plan s) e t0 /\ t = t0 ++ [Warning e].

(** The events of the first [save] of an object and of a later one. *)
Definition department_plan (self : addr) (d : DepartmentObject.t) (v : Z) : list event :=
  match DepartmentObject.id d with
  | None => insert_plan self (INSERT_INTO_department (DepartmentObject.name d)) v
  | Some i => update_plan (UPDATE_department (DepartmentObject.name d) i)
  end.

Definition employee_plan (w : world) (self : addr) (r : EmployeeObject.t) (v : Z)
  : list event :=
  match EmployeeObject.id r with
  | None =>
      insert_plan self
        (INSERT_INTO_employee (id_of w (EmployeeObject.department r)) (chief_key w r)
           (EmployeeObject.name r) (EmployeeObject.salary r)) v
  | Some i =>
      update_plan
        (UPDATE_employee (id_of w (EmployeeObject.department r)) (chief_key w r)
           (EmployeeObject.name r) (EmployeeObject.salary r) i)
  end.

(** A transient department and a transient employee of the first
    department, allocated but not yet saved. *)
Definition sample_department : object :=
  department_object
    {| DepartmentObject.name := str "Sales"; DepartmentObject.id := None |}.

Definition sample_employee : object :=
  employee_object
    {| EmployeeObject.department := 0%nat; EmployeeObject.chief := None;
       EmployeeObject.name := str "Ada Lovelace"; EmployeeObject.salary := 52000;
       EmployeeObject.id := None |}.



(** What a generator [g] that has been asked [asked] answers to the further
    requests [ps], one after the other. *)
Fixpoint answers (g : list Faker.provider -> result text)
    (asked ps : list Faker.provider) : list (Faker.provider * result text) :=
  match ps with
  | [] => []
  | p :: ps' => (p, g (asked ++ [p])) :: answers g (asked ++ [p]) ps'
  end.

(** [told f f' ps]: the generator [f'] is [f] after the requests [ps]. *)
Definition told (f f' : Faker.t) (ps : list Faker.provider) : Prop :=
  Faker.generator f' = Faker.generator f /\
  Faker.history f' = Faker.history f ++ answers (Faker.generator f) (Faker.asked f) ps.

(** The requests of a complete run of [create_fake_data]. *)
Definition requests (departments_amount employees_amount : Z) : list Faker.provider :=
  repeat Faker.catch_phrase (Z.to_nat departments_amount)
  ++ match Z.to_nat departments_amount with
     | O => []
     | S _ => repeat Faker.name (Z.to_nat employees_amount)
     end.

(** The name an entity stores for an answer of the generator. *)
Definition shortened (a : Faker.provider * result text) : option text :=
  match a.2 with
  | Ok name =>
      match textwrap.shorten name 100 (str "") with
      | Ok short => Some short
      | Raise _ => None
      end
  | Raise _ => None
  end.

(* ===================================================================== *)
(** ** Vocabulary of the further properties *)
(* ===================================================================== *)

(** A chunk of a collapsed text is a run of spaces or has no whitespace in
    it. *)
Definition pure (chunk : text) : Prop := textwrap.blank chunk = true \/ solid chunk.

(** The text [s] ends in a character that is not whitespace. *)
Definition ends_solid (s : text) : Prop :=
  exists front c, s = front ++ [c] /\ Str.isspace c = false.

(** The table [t] after the rows [rs] were inserted, one after the other. *)
Definition inserted {R : Type} (rs : list R) (t : Sql.table R) : Sql.table R :=
  foldl (fun t r => Sql.add r t) t rs.

(** The keys of the table [t] are below its next identity value, as they
    are in a table that was created empty and filled by inserts. *)
Definition well_keyed {R : Type} (t : Sql.table R) : Prop :=
  forall k, is_Some (Sql.rows t !! k) -> k < Sql.next_identity t.

(** The row that stands for the employee [r] in the world [w]: the
    identities of its department and of its chief, its name and its
    salary. *)
Definition row_of (w : world) (r : EmployeeObject.t) : option Sql.employee_row :=
  match id_of w (EmployeeObject.department r) with
  | Some dv =>
      Some {| Sql.department_id := dv; Sql.chief_id := chief_key w r;
              Sql.name := EmployeeObject.name r; Sql.salary := EmployeeObject.salary r |}
  | None => None
  end.

(** [same_session w w']: the worlds differ at most in the state of the
    random module and of the fake-data generator. *)
Definition same_session (w w' : world) : Prop :=
  heap w' = heap w /\ conn w' = conn w /\ trace w' = trace w /\ faults w' = faults w.

(** The generator [f] answers every one of the further requests [ps] with
    a text: its pools of unique values hold out for them. *)
Definition answered (a : Faker.provider * result text) : bool :=
  match a.2 with
  | Ok _ => true
  | Raise _ => false
  end.

Definition answering (f : Faker.t) (ps : list Faker.provider) : bool :=
  forallb answered (answers (Faker.generator f) (Faker.asked f) ps).

(** [room t n]: the table [t] takes [n] more rows.  The [n] identity
    values from the next one on fit into [INTEGER] and are not keys of
    [t]. *)
Fixpoint free {R : Type} (t : Sql.table R) (k : Z) (n : nat) : bool :=
  match n with
  | O => true
  | S n' => Sql.fits_integer k && negb (Sql.has t k) && free t (k + 1) n'
  end.

Definition room {R : Type} (t : Sql.table R) (n : nat) : bool :=
  free t (Sql.next_identity t) n.

(** The names that the entities of the world [w] store, in the order in
    which the entities were made. *)
Definition names (w : world) : list (option text) :=
  name_of w <$> seq 0 (length (heap w)).

(** [blamed w e]: in the world [w] the last thing that happened is a call
    on the session that raised [e], or a request to the fake-data generator
    that raised [e]. *)
Definition blamed (w : world) (e : exn) : Prop :=
  (exists c, last (trace w) = Some (Call c (Some e))) \/
  (exists p, last (Faker.history (fake w)) = Some (p, Raise e)).

(** The exceptions that [logging.warning] reported, in order. *)
Fixpoint warnings (t : list event) : list exn :=
  match t with
  | Warning e :: t' => e :: warnings t'
  | _ :: t' => warnings t'
  | [] => []
  end.

(** What dropping a table reports when the table may not exist. *)
Definition missing {R : Type} (t : option (Sql.table R)) : list exn :=
  match t with
  | Some _ => []
  | None => [Sql.no_table]
  end.

(** The [INSERT] that the first [save] of the object at [a] executes, and
    the events of the construction of that object, as they can be read off
    the world after the run. *)
Definition insert_of (w : world) (a : addr) : option statement :=
  match heap w !! a with
  | Some (department_object d) => Some (INSERT_INTO_department (DepartmentObject.name d))
  | Some (employee_object r) =>
      Some (INSERT_INTO_employee (id_of w (EmployeeObject.department r)) (chief_key w r)
              (EmployeeObject.name r) (EmployeeObject.salary r))
  | None => None
  end.

Definition birth_of (w : world) (a : addr) : list event :=
  match insert_of w a, id_of w a with
  | Some s, Some v => birth a s v
  | _, _ => []
  end.

(** [ready w departments employees n]: the environment plans no fault,
    the generator answers [n] more requests for a name, the two tables
    exist, the employee table takes [n] more rows, and the objects of
    [departments] and [employees] carry identities that are keys of their
    tables. *)
Definition ready (w : world) (departments employees : list addr) (n : nat) : Prop :=
  quiet w /\ answering (fake w) (repeat Faker.name n) = true /\
  exists dt et,
    Sql.department (conn w) = Some dt /\ Sql.employee (conn w) = Some et /\
    room et n = true /\
    Forall (fun d => allocated w d /\
                     exists dv, id_of w d = Some dv /\ Sql.has dt dv = true) departments /\
    Forall (fun c => allocated w c /\
                     exists cv, id_of w c = Some cv /\ Sql.has et cv = true) employees.

(** A fake-data library whose pools of unique values give [pool] answers
    and run out then. *)
Definition sample_scarce (pool : nat) (seed : Z) (asked : list Faker.provider)
    : result text :=
  if (length asked <=? pool)%nat then sample_lib seed asked
  else Raise UniquenessException.

(** A fake-data library whose answers depend on the seed as well. *)
Definition sample_seeded (seed : Z) (asked : list Faker.provider) : result text :=
  match sample_lib seed asked with
  | Ok answer => Ok (answer ++ repeat "#"%char (Z.to_nat (seed mod 7)))
  | Raise e => Raise e
  end.

(** A database in which the two tables exist and hold rows. *)
Definition sample_used : Sql.database :=
  conn (create_fake_data 2 3 (sample_ready (fun n => Z.of_nat n))).2.

(* ===================================================================== *)
(** ** Whitespace: [strip], [split], [join] *)
(* ===================================================================== *)

Section whitespace.

Implicit Types (s word : text) (c : ascii).

Lemma lstrip_length s : (length (Str.lstrip s) <= length s)%nat.
Proof. induction s as [|c s IH]; simpl; [lia|]. destruct (Str.isspace c); simpl; lia. Qed.

Lemma rstrip_length s : (length (Str.rstrip s) <= length s)%nat.
Proof.
unfold Str.rstrip. rewrite length_rev.
etransitivity; [apply lstrip_length|]. by rewrite length_rev.
Qed.

Lemma strip_length s : (length (Str.strip s) <= length s)%nat.
Proof.
unfold Str.strip. etransitivity; [apply rstrip_length|]. apply lstrip_length.
Qed.

Lemma lstrip_nil s : Str.lstrip s = [] <-> forallb Str.isspace s = true.
Proof.
induction s as [|c s IH]; simpl; [done|].
destruct (Str.isspace c); simpl; [done|]. split; discriminate.
Qed.

Lemma lstrip_head s c s' : Str.lstrip s = c :: s' -> Str.isspace c = false.
Proof.
induction s as [|x s IH]; simpl; [done|].
destruct (Str.isspace x) eqn:E; [done|]. by intros [= -> _].
Qed.

Lemma forallb_rev (P : ascii -> bool) s : forallb P (rev s) = forallb P s.
Proof.
induction s as [|c s IH]; simpl; [done|].
rewrite forallb_app, IH. simpl. rewrite andb_true_r. apply andb_comm.
Qed.

Lemma lstrip_keeps_solid s : forallb Str.isspace (Str.lstrip s) = forallb Str.isspace s.
Proof.
induction s as [|c s IH]; simpl; [done|].
destruct (Str.isspace c) eqn:E; simpl; [done|]. by rewrite E.
Qed.

(** A text is blank exactly when all its characters are whitespace. *)
Lemma blank_forallb s : textwrap.blank s = forallb Str.isspace s.
Proof.
unfold textwrap.blank, Str.strip, Str.rstrip.
destruct (forallb Str.isspace s) eqn:E.
- apply lstrip_nil in E. rewrite E. reflexivity.
- destruct (rev (Str.lstrip (rev (Str.lstrip s)))) eqn:R; [|done].
  apply (f_equal (@rev ascii)) in R. rewrite rev_involutive in R. simpl in R.
  apply lstrip_nil in R. rewrite forallb_rev, lstrip_keeps_solid in R. congruence.
Qed.

Lemma blank_solid c s : Str.isspace c = false -> textwrap.blank (c :: s) = false.
Proof. intros H. rewrite blank_forallb. simpl. by rewrite H. Qed.

Lemma blank_ends_solid s c : Str.isspace c = false -> textwrap.blank (s ++ [c]) = false.
Proof.
intros H. rewrite blank_forallb, forallb_app. simpl. rewrite H.
by rewrite andb_false_r.
Qed.

End whitespace.

Section collapsing.

Implicit Types (s word : text) (c : ascii).

Lemma split_from_words word s :
solid word ->
Forall (fun w => w <> [] /\ solid w) (Str.split_from word s).
Proof.
revert word. induction s as [|c s IH]; intros word Hw; simpl.
- destruct word; [constructor|]. repeat constructor; done.
- destruct (Str.isspace c) eqn:E.
  + destruct word as [|x word]; [by apply IH|].
    constructor; [done|]. by apply IH.
  + apply IH. unfold solid. rewrite forallb_app. simpl. rewrite E.
    unfold solid in Hw. by rewrite Hw.
Qed.

Lemma split_from_length word s :
(length (Str.join (str " ") (Str.split_from word s)) <= length word + length s)%nat.
Proof.
revert word. induction s as [|c s IH]; intros word; simpl.
- destruct word; simpl; lia.
- destruct (Str.isspace c).
  + destruct word as [|x word]; [specialize (IH []); simpl in IH; lia|].
    specialize (IH []). simpl in IH.
    destruct (Str.split_from [] s) eqn:E; simpl in *; [lia|].
    rewrite length_app. simpl. lia.
  + specialize (IH (word ++ [c])). rewrite length_app in IH. simpl in IH. lia.
Qed.

(** Collapsing the whitespace never makes a text longer. *)
Lemma collapse_length s : (length (collapse s) <= length s)%nat.
Proof.
unfold collapse, Str.split.
etransitivity; [apply split_from_length|]. simpl. apply strip_length.
Qed.

Lemma solid_clean word : solid word -> clean word.
Proof.
unfold solid, clean. rewrite forallb_forall, Forall_forall.
intros H c Hc Hs. apply list_elem_of_In, H in Hc. rewrite Hs in Hc. done.
Qed.

Lemma join_clean (words : list text) :
Forall (fun w => w <> [] /\ solid w) words -> clean (Str.join (str " ") words).
Proof.
induction 1 as [|w ws [_ Hw] Hws IH]; simpl; [constructor|].
destruct ws as [|w' ws]; [by apply solid_clean|].
apply Forall_app; split; [by apply solid_clean|].
simpl. constructor; [done|]. apply IH.
Qed.

Lemma join_starts_solid (words : list text) :
Forall (fun w => w <> [] /\ solid w) words ->
match Str.join (str " ") words with
| c :: _ => Str.isspace c = false
| [] => True
end.
Proof.
destruct 1 as [|w ws [Hne Hw] Hws]; simpl; [done|].
destruct w as [|c w]; [done|].
unfold solid in Hw. simpl in Hw. apply andb_true_iff in Hw as [Hc _].
apply negb_true_iff in Hc. destruct ws; simpl; done.
Qed.

Lemma join_cons (sep w : text) (ws : list text) :
ws <> [] -> Str.join sep (w :: ws) = w ++ sep ++ Str.join sep ws.
Proof. destruct ws; done. Qed.

Lemma join_ends_solid (words : list text) :
Forall (fun w => w <> [] /\ solid w) words ->
Str.join (str " ") words = [] \/
exists s c, Str.join (str " ") words = s ++ [c] /\ Str.isspace c = false.
Proof.
induction 1 as [|w ws [Hne Hw] Hws IH]; [by left|]. right.
destruct (decide (ws = [])) as [->|Hws'].
- simpl. destruct (exists_last Hne) as (s & c & ->). exists s, c. split; [done|].
  unfold solid in Hw. rewrite forallb_app in Hw. simpl in Hw.
  apply andb_true_iff in Hw as [_ Hc]. rewrite andb_true_r in Hc.
  by apply negb_true_iff in Hc.
- rewrite join_cons by done. destruct IH as [IH|(s & c & IH & Hc)].
  + exfalso. destruct Hws as [|w' ws [Hne' _] _]; [done|].
    destruct w'; [done|]. destruct ws; simpl in IH; done.
  + exists (w ++ str " " ++ s), c. rewrite IH. split; [|done].
    by rewrite <- !app_assoc.
Qed.

Lemma collapse_words s : Forall (fun w => w <> [] /\ solid w) (Str.split (Str.strip s)).
Proof. apply split_from_words. reflexivity. Qed.

Lemma collapse_clean s : clean (collapse s).
Proof. apply join_clean, collapse_words. Qed.

End collapsing.

Section chunks.

Implicit Types (s word : text) (c : ascii) (chunks lines : list text).

Lemma whitespace_isspace c : textwrap.is_whitespace c = true -> Str.isspace c = true.
Proof.
unfold textwrap.is_whitespace, Str.isspace, Str.between.
generalize (Str.code c). intros n. rewrite !orb_true_iff, !andb_true_iff, !N.leb_le.
lia.
Qed.

Lemma tab_isspace c : (Str.code c =? 9)%N = true -> Str.isspace c = true.
Proof.
unfold Str.isspace, Str.between. intros ->%N.eqb_eq. reflexivity.
Qed.

Lemma expandtabs_clean s col : clean s -> Str.expandtabs_from 8 col s = s.
Proof.
revert col. induction s as [|c s IH]; intros col Hs; simpl; [done|].
inversion Hs as [|? ? Hc Hs']; subst.
destruct (Str.code c =? 9)%N eqn:E.
- apply tab_isspace in E as E'. apply Hc in E'. subst c. done.
- destruct (_ || _); by rewrite IH.
Qed.

(** [_munge_whitespace] has nothing to do on a collapsed text. *)
Lemma munge_clean s : clean s -> textwrap._munge_whitespace s = s.
Proof.
intros Hs. unfold textwrap._munge_whitespace, Str.expandtabs.
rewrite expandtabs_clean by done.
induction Hs as [|c s Hc Hs IH]; simpl; [done|]. rewrite IH.
destruct (textwrap.is_whitespace c) eqn:E; [|done].
apply whitespace_isspace, Hc in E. by subst.
Qed.

(** The chunks of a text are its consecutive pieces, none of them empty. *)
Lemma split_from_concat rest k before cur :
concat (textwrap.split_from k before cur rest) = rev cur ++ rest.
Proof.
revert k before cur. induction rest as [|c rest IH]; intros k before cur; simpl.
- destruct cur; simpl; by rewrite ?app_nil_r.
- destruct (textwrap.chunk_ends _ _ _ _); simpl; rewrite IH; simpl;
    by rewrite <- ?app_assoc.
Qed.

Lemma split_from_nonempty rest k before cur :
Forall (fun chunk => chunk <> []) (textwrap.split_from k before cur rest).
Proof.
revert k before cur. induction rest as [|c rest IH]; intros k before cur; simpl.
- destruct cur as [|x cur]; constructor; [|done].
  simpl. by destruct (rev cur).
- destruct (textwrap.chunk_ends _ _ _ _); [|apply IH].
  constructor; [|apply IH]. simpl. by destruct (rev cur).
Qed.

Lemma split_concat s : concat (textwrap._split s) = s.
Proof. apply split_from_concat. Qed.

Lemma split_nonempty s : Forall (fun chunk => chunk <> []) (textwrap._split s).
Proof. apply split_from_nonempty. Qed.

Lemma sum_len_concat chunks : textwrap.sum_len chunks = length (concat chunks).
Proof. induction chunks as [|c l IH]; simpl; [done|]. by rewrite length_app, IH. Qed.

Lemma sum_len_app l1 l2 :
textwrap.sum_len (l1 ++ l2) = (textwrap.sum_len l1 + textwrap.sum_len l2)%nat.
Proof. rewrite !sum_len_concat, concat_app, length_app. done. Qed.

Lemma sum_len_rev l : textwrap.sum_len (rev l) = textwrap.sum_len l.
Proof.
induction l as [|c l IH]; simpl; [done|]. rewrite sum_len_app, IH. simpl. lia.
Qed.

(** The inner loop moves a prefix [popped] of the chunks to the line and
  stops at the first chunk that does not fit. *)
Lemma fill_line_spec W chunks cur_line n :
exists popped rest,
  chunks = popped ++ rest /\
  textwrap.fill_line W chunks cur_line n
    = (rest, rev popped ++ cur_line, (n + textwrap.sum_len popped)%nat) /\
  (popped <> [] -> n + textwrap.sum_len popped <= W)%nat /\
  match rest with
  | c :: _ => (W < n + textwrap.sum_len popped + length c)%nat
  | [] => True
  end.
Proof.
revert cur_line n. induction chunks as [|c chunks IH]; intros cur_line n; simpl.
- exists [], []. simpl. rewrite Nat.add_0_r. done.
- destruct (n + length c <=? W)%nat eqn:E.
  + apply Nat.leb_le in E.
    destruct (IH (c :: cur_line) (n + length c)%nat) as (popped & rest & -> & -> & Hle & Hrest).
    exists (c :: popped), rest. simpl. rewrite <- app_assoc. simpl.
    replace (n + (length c + textwrap.sum_len popped))%nat
      with (n + length c + textwrap.sum_len popped)%nat by lia.
    split_and!; [done|done| |].
    * intros _. destruct popped as [|p popped]; [simpl; lia|].
      assert (p :: popped <> []) as H by discriminate. apply Hle in H. exact H.
    * done.
  + apply Nat.leb_gt in E. exists [], (c :: chunks). simpl.
    rewrite Nat.add_0_r. split_and!; [done|done|done|lia].
Qed.

Lemma rfind_from_lt c i stop s j :
Str.rfind_from c i stop s = Some j -> (i <= j < i + stop)%nat.
Proof.
revert i stop. induction s as [|x s IH]; intros i [|stop]; simpl; try done.
destruct (Str.rfind_from c (S i) stop s) eqn:E.
- intros [= ->]. apply IH in E. lia.
- destruct (Ascii.eqb x c); [|done]. intros [= ->]. lia.
Qed.

(** Breaking a long word puts a piece of it on the line that fits into
  the space left. *)
Lemma handle_long_word_spec chunk below cur_line n W :
(1 <= W)%nat -> (n <= W)%nat ->
exists e,
  textwrap._handle_long_word (chunk :: below) cur_line n W
    = (take e chunk :: cur_line, drop e chunk :: below) /\
  (e <= W - n)%nat /\ (n = 0 -> 1 <= e)%nat.
Proof.
intros HW Hn. unfold textwrap._handle_long_word.
destruct (W <? 1)%nat eqn:E1; [apply Nat.ltb_lt in E1; lia|].
eexists. split; [reflexivity|].
destruct (W - n <? length chunk)%nat; [|lia].
destruct (Str.rfind "-" (W - n) chunk) as [j|] eqn:E; [|lia].
apply rfind_from_lt in E. destruct (_ && _); lia.
Qed.

End chunks.

Section one_line.

Implicit Types (s word : text) (chunks lines cl : list text).

Variable W : nat.
Hypothesis W_pos : (1 <= W)%nat.

(** The wrapper that [shorten] builds when the placeholder is empty. *)
Let tw : textwrap.TextWrapper :=
{| textwrap.width := W; textwrap.max_lines := Some 1%nat; textwrap.placeholder := [] |}.

Lemma break_long_spec rest cl n :
n = textwrap.sum_len cl -> (n <= W)%nat ->
exists rest' cl',
  textwrap.break_long W rest cl n = (rest', cl', textwrap.sum_len cl') /\
  (textwrap.sum_len cl' <= W)%nat /\
  ((rest' = rest /\ cl' = cl /\
    match rest with c :: _ => (length c <= W)%nat | [] => True end)
   \/ exists c below e,
        rest = c :: below /\ cl' = take e c :: cl /\ rest' = drop e c :: below /\
        (n = 0 -> 1 <= e)%nat).
Proof.
intros -> Hn. unfold textwrap.break_long. destruct rest as [|c below].
- exists [], cl. split_and!; [done|done|]. left. done.
- destruct (W <? length c)%nat eqn:E.
  + destruct (handle_long_word_spec c below cl (textwrap.sum_len cl) W W_pos Hn)
      as (e & -> & He & He').
    exists (drop e c :: below), (take e c :: cl). split_and!; [done| |].
    * simpl. rewrite length_take. lia.
    * right. exists c, below, e. done.
  + apply Nat.ltb_ge in E. exists (c :: below), cl. split_and!; [done|done|].
    left. done.
Qed.

Lemma drop_blank_spec cl :
exists cl',
  textwrap.drop_blank cl (textwrap.sum_len cl) = (cl', textwrap.sum_len cl') /\
  (cl' = cl \/ exists last, cl = last :: cl' /\ textwrap.blank last = true).
Proof.
unfold textwrap.drop_blank. destruct cl as [|last before]; [by exists []; auto|].
destruct (textwrap.blank last) eqn:E.
- exists before. split; [|right; eauto]. simpl. f_equal. lia.
- eexists. split; [reflexivity|by left].
Qed.

Lemma drop_blank_bottom cl cl' :
bottom_solid cl ->
(cl' = cl \/ exists last, cl = last :: cl' /\ textwrap.blank last = true) ->
bottom_solid cl'.
Proof.
intros (l & x & r & -> & Hx) [->|(last & Heq & Hb)]; [by exists l, x, r|].
destruct l as [|y l]; simpl in Heq.
- injection Heq as <- <-. rewrite blank_solid in Hb; done.
- injection Heq as <- <-. by exists l, x, r.
Qed.

Lemma fit_placeholder_spec cl :
(textwrap.sum_len cl <= W)%nat -> bottom_solid cl ->
exists l1 l2,
  cl = l1 ++ l2 /\
  textwrap.fit_placeholder tw W cl (textwrap.sum_len cl) = Some (concat (rev l2)).
Proof.
induction cl as [|last before IH]; intros Hn Hb.
- destruct Hb as ([|??] & ? & ? & ? & _); done.
- simpl. replace (length last + textwrap.sum_len before + 0 <=? W)%nat with true
    by (symmetry; apply Nat.leb_le; simpl in Hn; lia).
  rewrite andb_true_r. destruct (textwrap.blank last) eqn:E; simpl.
  + replace (length last + textwrap.sum_len before - length last)%nat
      with (textwrap.sum_len before) by lia.
    destruct IH as (l1 & l2 & -> & ->).
    * simpl in Hn. lia.
    * apply (drop_blank_bottom (last :: before)); [done|]. right. eauto.
    * exists (last :: l1), l2. done.
  + exists [], (last :: before). split; [done|]. f_equal.
    rewrite concat_app. simpl. by rewrite app_nil_r.
Qed.

(** Once the single line is stored, what is left of the chunks is between
  nothing and one blank chunk, and the loop ends. *)
Lemma wrap_loop_done fuel rest line :
match rest with [] => true | [c] => textwrap.blank c | _ => false end = true ->
textwrap.wrap_loop fuel tw rest [line] = [line].
Proof.
intros H. destruct fuel as [|fuel]; [done|].
destruct rest as [|c [|??]]; [done| |done]. simpl. rewrite H. simpl.
destruct fuel; done.
Qed.

(** A text whose first chunk starts with a character that is not
  whitespace is wrapped into exactly one line: a prefix of the text, no
  longer than the width. *)
Lemma wrap_one_line fuel x r below :
Str.isspace x = false ->
exists line,
  textwrap.wrap_loop (S fuel) tw ((x :: r) :: below) [] = [line] /\
  (length line <= W)%nat /\
  line `prefix_of` concat ((x :: r) :: below).
Proof.
intros Hx.
unfold textwrap.wrap_loop; fold textwrap.wrap_loop.
rewrite andb_false_r. simpl textwrap.width.
set (chunks := (x :: r) :: below).
destruct (fill_line_spec W chunks [] 0) as (popped & rest & Heq & -> & Hle & Hrest).
rewrite app_nil_r. simpl plus.
assert (textwrap.sum_len popped <= W)%nat as Hn.
{ destruct popped; [simpl; lia|]. apply Hle. done. }
destruct (break_long_spec rest (rev popped) (textwrap.sum_len popped))
  as (rest' & cl' & -> & Hn' & Hbreak); [by rewrite sum_len_rev|done|].
assert (bottom_solid cl' /\ concat (rev cl') ++ concat rest' = concat chunks)
  as [Hbot Htext].
{ destruct popped as [|p popped].
  - simpl in Heq. subst rest. destruct Hbreak as [(_ & _ & Hfit)|(c & bl & e & Hc & -> & -> & He)].
    + simpl in Hrest, Hfit. lia.
    + injection Hc as <- <-. split.
      * specialize (He eq_refl). destruct e as [|e]; [lia|]. by exists [], x, (take e r).
      * simpl. by rewrite app_nil_r, app_assoc, take_drop.
  - injection Heq as <- Heq. cbn [rev].
    destruct Hbreak as [(-> & -> & _)|(c & bl & e & -> & -> & -> & He)].
    + split; [by exists (rev popped), x, r|].
      rewrite rev_involutive. unfold chunks. rewrite Heq. simpl.
      by rewrite concat_app, app_assoc.
    + split; [by exists (take e c :: rev popped), x, r|].
      change (rev (take e c :: rev ((x :: r) :: popped)))
        with (rev (rev ((x :: r) :: popped)) ++ [take e c]).
      rewrite rev_involutive. unfold chunks. rewrite Heq. simpl.
      rewrite !concat_app. simpl.
      rewrite app_nil_r, <- !app_assoc.
      by rewrite (app_assoc (take e c)), take_drop. }
destruct (drop_blank_spec cl') as (cl3 & -> & Hdrop).
assert (bottom_solid cl3) as Hbot3 by eauto using drop_blank_bottom.
assert (textwrap.sum_len cl3 <= W)%nat as Hn3.
{ destruct Hdrop as [->|(last & -> & _)]; simpl in *; lia. }
assert (concat (rev cl3) `prefix_of` concat chunks) as Hpre.
{ rewrite <- Htext. destruct Hdrop as [->|(last & -> & _)].
  - by apply prefix_app_r.
  - cbn [rev]. rewrite concat_app, <- app_assoc. by apply prefix_app_r. }
destruct cl3 as [|top under].
{ destruct Hbot3 as ([|??] & ? & ? & ? & _); done. }
cbv iota beta. unfold textwrap.keeps_line. simpl textwrap.max_lines. simpl orb.
destruct (match rest' with [] => true | [c] => textwrap.blank c | _ => false end) eqn:Erest;
  simpl andb.
- simpl app. rewrite wrap_loop_done by done.
  destruct (_ <=? W)%nat eqn:Efit;
    [|apply Nat.leb_gt in Efit; simpl in Hn3, Efit; lia].
  eexists. split_and!; [reflexivity| |exact Hpre].
  change (rev under ++ [top]) with (rev (top :: under)).
  by rewrite <- sum_len_concat, sum_len_rev.
- unfold textwrap.truncate.
  destruct (fit_placeholder_spec (top :: under) Hn3 Hbot3) as (l1 & l2 & Hcl & ->).
  eexists. split_and!; [done| |].
  + rewrite <- sum_len_concat, sum_len_rev. rewrite Hcl, sum_len_app in Hn3. lia.
  + etransitivity; [|exact Hpre]. rewrite Hcl, rev_app_distr, concat_app.
    by apply prefix_app_r.
Qed.

(** A text that fits into the width and does not end in a blank chunk is
  its own single line. *)
Lemma wrap_fits fuel chunks :
chunks <> [] ->
(length (concat chunks) <= W)%nat ->
(forall l c, chunks = l ++ [c] -> textwrap.blank c = false) ->
textwrap.wrap_loop (S fuel) tw chunks [] = [concat chunks].
Proof.
intros Hne Hlen Hlast. destruct chunks as [|top below]; [done|].
unfold textwrap.wrap_loop; fold textwrap.wrap_loop.
rewrite andb_false_r. simpl textwrap.width.
set (chunks := top :: below) in *. clearbody chunks.
destruct (fill_line_spec W chunks [] 0) as (popped & rest & Heq & -> & Hle & Hrest).
assert (rest = []) as ->.
{ destruct rest as [|c rest]; [done|]. exfalso.
  rewrite Heq, <- sum_len_concat, sum_len_app in Hlen. simpl in *. lia. }
rewrite app_nil_r in *. subst popped. unfold textwrap.break_long.
destruct (exists_last Hne) as (l & c & Hc).
assert (rev chunks = c :: rev l) as Hrev by (by rewrite Hc, rev_unit).
rewrite Hrev. unfold textwrap.drop_blank. rewrite (Hlast l c Hc).
unfold textwrap.keeps_line. simpl.
destruct (_ <=? W)%nat eqn:Efit.
- rewrite rev_involutive, <- Hc. destruct fuel; simpl; done.
- apply Nat.leb_gt in Efit. rewrite <- sum_len_concat in Hlen. lia.
Qed.

End one_line.

Section shorten.

Implicit Types (s : text) (chunks : list text).

Lemma last_chunk_solid chunks l chunk s c :
Forall (fun chunk => chunk <> []) chunks ->
chunks = l ++ [chunk] -> concat chunks = s ++ [c] -> Str.isspace c = false ->
textwrap.blank chunk = false.
Proof.
intros Hne -> Hs Hc. apply Forall_app in Hne as [_ Hne].
inversion Hne as [|? ? Hchunk _]; subst.
destruct (exists_last Hchunk) as (chunk' & c' & ->).
rewrite concat_app in Hs. simpl in Hs. rewrite app_nil_r, app_assoc in Hs.
apply app_inj_tail in Hs as [_ ->]. by apply blank_ends_solid.
Qed.

(** What [shorten] returns for a positive width and the empty
  placeholder: a prefix of the collapsed text that fits into the
  width, and all of it when it fits. *)
Lemma shorten_spec s W :
(1 <= W)%nat ->
exists short,
  textwrap.shorten s W [] = Ok short /\
  (length short <= W)%nat /\
  short `prefix_of` collapse s /\
  ((length (collapse s) <= W)%nat -> short = collapse s).
Proof.
intros HW. unfold textwrap.shorten, textwrap.fill, textwrap.wrap,
  textwrap._wrap_chunks, textwrap._split_chunks.
fold (collapse s). rewrite (munge_clean _ (collapse_clean s)).
simpl textwrap.width. simpl textwrap.max_lines. simpl textwrap.placeholder.
destruct (W <=? 0)%nat eqn:E0; [apply Nat.leb_le in E0; lia|].
simpl Str.lstrip. simpl length.
destruct (W <? 0)%nat eqn:E1; [apply Nat.ltb_lt in E1; lia|].
pose proof (split_concat (collapse s)) as Hcat.
pose proof (split_nonempty (collapse s)) as Hne.
pose proof (join_starts_solid _ (collapse_words s)) as Hstart.
pose proof (join_ends_solid _ (collapse_words s)) as Hend.
fold (collapse s) in Hstart, Hend.
destruct (textwrap._split (collapse s)) as [|chunk below] eqn:Echunks.
- simpl in Hcat. rewrite <- Hcat. exists []. simpl.
  split_and!; [done|lia|done|done].
- assert (exists x r, chunk = x :: r /\ Str.isspace x = false) as (x & r & -> & Hx).
  { inversion Hne as [|? ? Hchunk _]; subst. destruct chunk as [|x r]; [done|].
    exists x, r. split; [done|]. rewrite <- Hcat in Hstart. exact Hstart. }
  destruct (wrap_one_line W HW (length ((x :: r) :: below)
                                 + textwrap.sum_len ((x :: r) :: below)) x r below Hx)
    as (line & Hline & Hlen & Hpre).
  rewrite Hline. exists line. simpl Str.join.
  split_and!; [done|done|by rewrite <- Hcat|].
  intros Hfits. rewrite <- Hcat in Hfits.
  rewrite wrap_fits in Hline; [congruence|done|done|done|].
  intros l c Hl. destruct Hend as [Hnil|(s' & y & Hs' & Hy)].
  + rewrite <- Hcat in Hnil. done.
  + rewrite <- Hcat in Hs'. eauto using last_chunk_solid.
Qed.

End shorten.

Section fuel.

Implicit Types (chunks lines cl : list text).

Lemma handle_long_word_progress chunk below cl W :
exists e,
  textwrap._handle_long_word (chunk :: below) cl 0 W
    = (take e chunk :: cl, drop e chunk :: below) /\ (1 <= e)%nat.
Proof.
unfold textwrap._handle_long_word. eexists. split; [reflexivity|].
assert (1 <= (if (W <? 1)%nat then 1 else W - 0))%nat as Hs.
{ destruct (W <? 1)%nat eqn:E; [lia|]. apply Nat.ltb_ge in E. lia. }
destruct (_ <? length chunk)%nat; [|done].
destruct (Str.rfind _ _ _); [|done]. destruct (_ && _); lia.
Qed.

Lemma handle_long_word_shape chunk below cl n W :
exists e,
  textwrap._handle_long_word (chunk :: below) cl n W
    = (take e chunk :: cl, drop e chunk :: below).
Proof. unfold textwrap._handle_long_word. eexists. reflexivity. Qed.

(** One pass of the outer loop leaves less to wrap than it found. *)
Lemma pass_progress W chunks rest cl n rest' cl' n' :
chunks <> [] ->
textwrap.fill_line W chunks [] 0 = (rest, cl, n) ->
textwrap.break_long W rest cl n = (rest', cl', n') ->
(length rest' + textwrap.sum_len rest' < length chunks + textwrap.sum_len chunks)%nat.
Proof.
intros Hne Hfill Hbreak.
destruct (fill_line_spec W chunks [] 0) as (popped & rest0 & Heq & Hfill' & _ & Hrest).
rewrite Hfill in Hfill'. injection Hfill' as <- -> ->.
rewrite Heq, length_app, sum_len_app.
unfold textwrap.break_long in Hbreak. destruct rest as [|c below].
- injection Hbreak as <- _ _. destruct popped; simpl in *; [done|lia].
- destruct (W <? length c)%nat eqn:E.
  + apply Nat.ltb_lt in E. destruct popped as [|p popped].
    * simpl textwrap.sum_len in Hbreak. simpl plus in Hbreak.
      destruct (handle_long_word_progress c below (rev [] ++ []) W) as (e & He & He1).
      rewrite He in Hbreak. injection Hbreak as <- _ _.
      simpl. rewrite length_drop. lia.
    * match type of Hbreak with
      | context [textwrap._handle_long_word _ ?b ?m _] =>
          destruct (handle_long_word_shape c below b m W) as (e & He)
      end.
      rewrite He in Hbreak. injection Hbreak as <- _ _.
      simpl. rewrite length_drop. lia.
  + apply Nat.ltb_ge in E. injection Hbreak as <- _ _.
    destruct popped; simpl in *; lia.
Qed.

(** The result of the loop does not depend on the fuel once there is more
  of it than chunks and characters: the loop always runs to its end. *)
Lemma wrap_loop_fuel tw f1 f2 chunks lines :
(length chunks + textwrap.sum_len chunks < f1)%nat ->
(length chunks + textwrap.sum_len chunks < f2)%nat ->
textwrap.wrap_loop f1 tw chunks lines = textwrap.wrap_loop f2 tw chunks lines.
Proof.
revert f2 chunks lines. induction f1 as [|f1 IH]; intros f2 chunks lines H1 H2; [lia|].
destruct f2 as [|f2]; [lia|]. destruct chunks as [|top below]; [done|].
unfold textwrap.wrap_loop; fold textwrap.wrap_loop.
set (chunks0 := if _ && _ then below else top :: below).
assert (length chunks0 + textwrap.sum_len chunks0
        <= length (top :: below) + textwrap.sum_len (top :: below))%nat as Hle0.
{ unfold chunks0. destruct (_ && _); simpl; lia. }
destruct (textwrap.fill_line (textwrap.width tw) chunks0 [] 0) as [[rest cl] n] eqn:Hfill.
destruct (textwrap.break_long (textwrap.width tw) rest cl n) as [[rest' cl'] n'] eqn:Hbreak.
assert (length rest' + textwrap.sum_len rest'
        < length (top :: below) + textwrap.sum_len (top :: below))%nat as Hlt.
{ destruct chunks0 as [|c0 chunks0'] eqn:E0.
  - simpl in Hfill. injection Hfill as <- <- <-. simpl in Hbreak.
    injection Hbreak as <- _ _. simpl. lia.
  - eapply Nat.lt_le_trans; [|exact Hle0].
    eapply pass_progress; [|exact Hfill|exact Hbreak]. done. }
destruct (textwrap.drop_blank cl' n') as [cl3 n3].
destruct cl3 as [|c3 cl3]; [apply IH; lia|].
destruct (textwrap.keeps_line _ _ _ _ _); [apply IH; lia|done].
Qed.

End fuel.

(* ===================================================================== *)
(** ** Running computations *)
(* ===================================================================== *)

Section running.

Context {A B : Type}.

Lemma bind_inv (m : M A) (k : A -> M B) w res w' :
bind m k w = (res, w') ->
(exists a w1, m w = (Ok a, w1) /\ k a w1 = (res, w')) \/
(exists e, m w = (Raise e, w') /\ res = Raise e).
Proof.
unfold bind. destruct (m w) as [[a|e] w1]; [left|right]; eauto.
injection H as <- <-. eauto.
Qed.

Lemma bind_ok (m : M A) (k : A -> M B) w b w' :
bind m k w = (Ok b, w') ->
exists a w1, m w = (Ok a, w1) /\ k a w1 = (Ok b, w').
Proof.
intros [H|(e & _ & H)]%bind_inv; [done|discriminate].
Qed.

Lemma bind_run (m : M A) (k : A -> M B) w a w1 :
m w = (Ok a, w1) -> bind m k w = k a w1.
Proof. unfold bind. by intros ->. Qed.

End running.

(** A call on the session adds one event to the trace and touches nothing
    but the session. *)
Lemma session_call_inv {A : Type} (c : call) (effect : Sql.database -> result (A * Sql.database))
    w res w' :
  session_call c effect w = (res, w') ->
  (exists e, res = Raise e /\ w' = record (Call c (Some e)) w
             /\ (faults w (length (trace w)) = Some e
                 \/ faults w (length (trace w)) = None /\ effect (conn w) = Raise e)) \/
  (exists a db, res = Ok a /\ w' = record (Call c None) (with_conn db w)
                /\ faults w (length (trace w)) = None /\ effect (conn w) = Ok (a, db)).
Proof.
  unfold session_call. destruct (faults w (length (trace w))) as [e|].
  - intros [= <- <-]. left. eauto.
  - destruct (effect (conn w)) as [[a db]|e]; intros [= <- <-]; [right|left]; eauto 10.
Qed.

Lemma cursor_execute_inv s w res w' :
  cursor_execute s w = (res, w') ->
  (exists e, res = Raise e /\ w' = record (Call (execute s) (Some e)) w) \/
  (exists db, res = Ok tt /\ w' = record (Call (execute s) None) (with_conn db w)
              /\ Sql.run s (conn w) = Ok db).
Proof.
  intros [(e & -> & -> & _)|(a & db & -> & -> & _ & H)]%session_call_inv; [left; eauto|].
  right. destruct (Sql.run s (conn w)) as [db'|]; [|done].
  injection H as <- <-. eauto.
Qed.

Lemma conn_commit_inv w res w' :
  conn_commit w = (res, w') ->
  (exists e, res = Raise e /\ w' = record (Call commit (Some e)) w) \/
  (res = Ok tt /\ w' = record (Call commit None) w).
Proof.
  intros [(e & -> & -> & _)|(a & db & -> & -> & _ & H)]%session_call_inv; [left; eauto|].
  right. injection H as <- <-. by destruct w.
Qed.

Lemma cursor_fetchone_inv w res w' :
  cursor_fetchone w = (res, w') ->
  (exists e, res = Raise e /\ w' = record (Call fetchone (Some e)) w) \/
  (exists row db, res = Ok row /\ w' = record (Call fetchone None) (with_conn db w)
     /\ match Sql.pending (conn w) with
        | Some (v :: _) => row = Some [v]
        | _ => row = None
        end
     /\ Sql.department db = Sql.department (conn w)
     /\ Sql.employee db = Sql.employee (conn w)).
Proof.
  intros [(e & -> & -> & _)|(a & db & -> & -> & _ & H)]%session_call_inv; [left; eauto|].
  right. exists a, db. destruct (Sql.pending (conn w)) as [[|v later]|]; [| |done];
    injection H as <- <-; done.
Qed.

(* ===================================================================== *)
(** ** [save] *)
(* ===================================================================== *)

Ltac interrupted_at_some_call :=
  try unfold follows; try unfold interrupted;
  first [ eexists [], _, _; split; reflexivity
        | eexists [_], _, _; split; reflexivity
        | eexists [_; _], _, _; split; reflexivity
        | eexists [_; _; _], _, _; split; reflexivity
        | eexists [_; _; _; _], _, _; split; reflexivity ].

Lemma same_environment_refl w : same_environment w w.
Proof. done. Qed.

Lemma same_environment_trans w1 w2 w3 :
  same_environment w1 w2 -> same_environment w2 w3 -> same_environment w1 w3.
Proof. intros (? & ? & ?) (? & ? & ?). unfold same_environment. split_and!; congruence. Qed.

(** Reading the identity back: after an [INSERT] that succeeded,
    [SELECT @@IDENTITY] followed by [fetchone()[0]] yields the key of the
    new row; the object at [self] gets it as its [id]. *)
Lemma read_identity_back self o w res w' v :
  heap w !! self = Some o ->
  Sql.last_identity (conn w) = Some v ->
  (cursor_execute SELECT_IDENTITY ;;
   row <- cursor_fetchone ;;
   v <- first_column row ;;
   set_id self v) w = (res, w') ->
  same_environment w w' /\
  Sql.department (conn w') = Sql.department (conn w) /\
  Sql.employee (conn w') = Sql.employee (conn w) /\
  exists t,
    trace w' = trace w ++ t /\
    follows [Call (execute SELECT_IDENTITY) None; Call fetchone None; SetId self (Some v)]
            res t /\
    (res = Ok tt -> heap w' = <[self := with_id (Some v) o]> (heap w)) /\
    (forall e, res = Raise e -> heap w' = heap w).
Proof.
  intros Ho Hv H.
  apply bind_inv in H as [(u1 & w1 & H1 & H)|(e & H1 & ->)]; cycle 1.
  { apply cursor_execute_inv in H1 as [(e' & [= <-] & ->)|(? & ? & _)]; [|done].
    simpl. split_and!; try done. eexists. split; [done|]. split_and!; try done.
    interrupted_at_some_call. }
  apply cursor_execute_inv in H1 as [(e' & ? & _)|(db1 & _ & -> & Hrun)]; [done|].
  simpl in Hrun. injection Hrun as <-.
  apply bind_inv in H as [(row & w2 & H2 & H)|(e & H2 & ->)]; cycle 1.
  { apply cursor_fetchone_inv in H2 as [(e' & [= <-] & ->)|(? & ? & ? & _)]; [|done].
    simpl. split_and!; try done. eexists. split; [by rewrite <- app_assoc|].
    split_and!; try done. interrupted_at_some_call. }
  apply cursor_fetchone_inv in H2 as [(e' & ? & _)|(row' & db2 & [= <-] & -> & Hrow & Hd & He)];
    [done|].
  simpl in Hrow, Hd, He. rewrite Hv in Hrow. subst row.
  simpl in H. unfold bind, ret, set_id in H. simpl in H. rewrite Ho in H.
  injection H as <- <-. simpl. split_and!; try done.
  eexists. split; [by rewrite <- !app_assoc|]. split_and!; done.
Qed.

(** An insert, the identity read back and the commit, each attempted
    once; [s] is an [INSERT] into a table with an identity column. *)
Lemma insert_and_commit self o s w res w' :
  heap w !! self = Some o ->
  (forall db, Sql.run s (conn w) = Ok db -> is_Some (Sql.last_identity db)) ->
  ((cursor_execute s ;;
    cursor_execute SELECT_IDENTITY ;;
    row <- cursor_fetchone ;;
    v <- first_column row ;;
    set_id self v) ;;
   conn_commit) w = (res, w') ->
  same_environment w w' /\
  exists t v,
    trace w' = trace w ++ t /\
    follows (insert_plan self s v) res t /\
    (heap w' = heap w \/ heap w' = <[self := with_id (Some v) o]> (heap w)) /\
    (res = Ok tt ->
     heap w' = <[self := with_id (Some v) o]> (heap w) /\
     exists db,
       Sql.run s (conn w) = Ok db /\ Sql.last_identity db = Some v /\
       Sql.department (conn w') = Sql.department db /\
       Sql.employee (conn w') = Sql.employee db).
Proof.
  intros Hat Hident H.
  apply bind_inv in H as [(u & w4 & H & Hcommit)|(e & H & ->)].
  - (* the body returned *)
    apply bind_ok in H as (u1 & w1 & H1 & H).
    apply cursor_execute_inv in H1 as [(e' & ? & _)|(db1 & _ & -> & Hrun)]; [done|].
    destruct (Hident _ Hrun) as [v Hv].
    eapply (read_identity_back self _ _ _ _ v) in H; [|exact Hat|done].
    destruct H as (Henv & Hd & He & t & Ht & Hfol & Hheap & _). simpl in *.
    destruct u. specialize (Hheap eq_refl). subst t.
    apply conn_commit_inv in Hcommit as [(e & -> & ->)|[-> ->]]; simpl.
    + split; [done|]. eexists _, v. rewrite Ht.
      split; [by rewrite <- !app_assoc|]. split; [|split; [by right|done]].
      interrupted_at_some_call.
    + split; [done|]. eexists _, v. rewrite Ht.
      split; [by rewrite <- !app_assoc|]. split; [done|]. split; [by right|].
      intros _. split; [done|]. exists db1. done.
  - (* the body raised *)
    apply bind_inv in H as [(u1 & w1 & H1 & H)|(e' & H1 & [= <-])]; cycle 1.
    { apply cursor_execute_inv in H1 as [(e' & [= <-] & ->)|(? & ? & _)]; [|done].
      split; [done|]. eexists _, 0. split; [done|]. split; [|split; [by left|done]].
      interrupted_at_some_call. }
    apply cursor_execute_inv in H1 as [(e' & ? & _)|(db1 & _ & -> & Hrun)]; [done|].
    destruct (Hident _ Hrun) as [v Hv].
    eapply (read_identity_back self _ _ _ _ v) in H; [|exact Hat|done].
    destruct H as (Henv & Hd & He & t & Ht & Hfol & _ & Hheap). simpl in *.
    split; [done|]. eexists _, v. rewrite Ht.
    split; [by rewrite <- !app_assoc|]. split; [|split; [left; by apply (Hheap e)|done]].
    destruct Hfol as (before & c & after & Hplan & ->).
    exists (Call (execute s) None :: before), c, (after ++ [Call commit None]).
    split; [|done]. unfold insert_plan.
    change [Call (execute SELECT_IDENTITY) None; Call fetchone None;
            SetId self (Some v); Call commit None]
      with ([Call (execute SELECT_IDENTITY) None; Call fetchone None;
             SetId self (Some v)] ++ [Call commit None]).
    rewrite Hplan. by rewrite <- !app_assoc.
Qed.

(** An update and the commit, each attempted once. *)
Lemma update_and_commit s w res w' :
  (cursor_execute s ;; conn_commit) w = (res, w') ->
  same_environment w w' /\ heap w' = heap w /\
  exists t,
    trace w' = trace w ++ t /\
    follows (update_plan s) res t /\
    (res = Ok tt ->
     exists db, Sql.run s (conn w) = Ok db /\ conn w' = db).
Proof.
  intros H.
  apply bind_inv in H as [(u & w1 & H1 & Hcommit)|(e & H1 & ->)].
  - apply cursor_execute_inv in H1 as [(e' & ? & _)|(db1 & _ & -> & Hrun)]; [done|].
    apply conn_commit_inv in Hcommit as [(e & -> & ->)|[-> ->]]; simpl.
    + split_and!; try done. eexists. split; [by rewrite <- !app_assoc|].
      split; [|done]. interrupted_at_some_call.
    + split_and!; try done. eexists. split; [by rewrite <- !app_assoc|].
      split; [done|]. eauto.
  - apply cursor_execute_inv in H1 as [(e' & [= <-] & ->)|(? & ? & _)]; [|done].
    simpl. split_and!; try done. eexists. split; [done|].
    split; [|done]. interrupted_at_some_call.
Qed.

Lemma department_at_heap w self d :
  department_at w self = Some d -> heap w !! self = Some (department_object d).
Proof.
  unfold department_at. destruct (heap w !! self) as [[d'|]|]; [|done..]. by intros [= ->].
Qed.

Lemma employee_at_heap w self r :
  employee_at w self = Some r -> heap w !! self = Some (employee_object r).
Proof.
  unfold employee_at. destruct (heap w !! self) as [[|r']|]; [done| |done]. by intros [= ->].
Qed.

Lemma Department_attributes_run w self d :
  department_at w self = Some d -> Department.attributes self w = (Ok d, w).
Proof.
  intros H%department_at_heap. unfold Department.attributes, bind, deref. by rewrite H.
Qed.

Lemma Employee_attributes_run w self r :
  employee_at w self = Some r -> Employee.attributes self w = (Ok r, w).
Proof.
  intros H%employee_at_heap. unfold Employee.attributes, bind, deref. by rewrite H.
Qed.

Lemma get_id_run w a :
  is_Some (heap w !! a) -> get_id a w = (Ok (id_of w a), w).
Proof.
  intros [o Ho]. unfold get_id, id_of, bind, deref. rewrite Ho. by destruct o.
Qed.

(** The first [save] of a department. *)
(** An identity value that the table hands out is its next one: in the
    range of [INTEGER], and the key of no row. *)
Lemma identity_ok {R : Type} (t : Sql.table R) v :
  Sql.identity t = Ok v ->
  v = Sql.next_identity t /\ Sql.has t v = false /\ Sql.fits_integer v = true.
Proof.
  unfold Sql.identity. destruct (Sql.fits_integer (Sql.next_identity t)) eqn:E; [|done].
  simpl. destruct (Sql.has t (Sql.next_identity t)) eqn:E'; [done|].
  by intros [= <-].
Qed.

Lemma Department_save_insert w self d res w' :
  department_at w self = Some d -> DepartmentObject.id d = None ->
  Department.save self w = (res, w') ->
  same_environment w w' /\
  exists t v idv,
    trace w' = trace w ++ t /\
    follows (insert_plan self (INSERT_INTO_department (DepartmentObject.name d)) v) res t /\
    heap w' = <[self := department_object
                           {| DepartmentObject.name := DepartmentObject.name d;
                              DepartmentObject.id := idv |}]> (heap w) /\
    (idv = None \/ idv = Some v) /\
    (res = Ok tt ->
     idv = Some v /\
     exists tbl,
       Sql.department (conn w) = Some tbl /\ v = Sql.next_identity tbl /\
       Sql.department (conn w') = Some (Sql.add (DepartmentObject.name d) tbl) /\
       Sql.employee (conn w') = Sql.employee (conn w)).
Proof.
  intros Hat Hid H. unfold Department.save in H.
  rewrite (bind_run _ _ _ _ _ (Department_attributes_run _ _ _ Hat)), Hid in H.
  apply department_at_heap in Hat.
  assert (forall db, Sql.run (INSERT_INTO_department (DepartmentObject.name d)) (conn w) = Ok db ->
          exists tbl, Sql.department (conn w) = Some tbl /\
            Sql.last_identity db = Some (Sql.next_identity tbl) /\
            Sql.department db = Some (Sql.add (DepartmentObject.name d) tbl) /\
            Sql.employee db = Sql.employee (conn w)) as Hrun.
  { intros db. simpl. destruct (Sql.department (conn w)) as [tbl|]; [|done].
    destruct (Sql.fits_name _); [|done].
    destruct (Sql.identity tbl) as [v|] eqn:Ei; [|done].
    apply identity_ok in Ei as (-> & _). intros [= <-]. by exists tbl. }
  eapply insert_and_commit in H; [|exact Hat|].
  2:{ intros db (tbl & _ & -> & _)%Hrun. done. }
  destruct H as (Henv & t & v & Ht & Hfol & Hheap & Hok). split; [done|].
  destruct Hheap as [Hheap|Hheap].
  - exists t, v, None. split_and!; [done|done| |by left|].
    + rewrite Hheap. symmetry. apply list_insert_id.
      destruct d; simpl in *; by subst.
    + intros Hres. destruct (Hok Hres) as (Hheap' & _). exfalso. rewrite Hheap in Hheap'.
      apply (f_equal (fun h => h !! self)) in Hheap'.
      rewrite list_lookup_insert_eq in Hheap' by (by eapply lookup_lt_Some).
      rewrite Hat in Hheap'. destruct d; simpl in *; by subst.
  - exists t, v, (Some v). split_and!; [done|done|done|by right|].
    intros Hres. destruct (Hok Hres) as (_ & db & Hr & Hv & Hd & He).
    apply Hrun in Hr as (tbl & ? & ? & ? & ?).
    split; [done|]. exists tbl. split_and!; congruence.
Qed.

Lemma bind_assoc {A B C : Type} (m : M A) (k : A -> M B) (k' : B -> M C) w :
  bind (bind m k) k' w = bind m (fun a => bind (k a) k') w.
Proof. unfold bind. by destruct (m w) as [[a|e] w1]. Qed.

(** What the statements of the script do to the tables. *)
Lemma run_insert_department nm db db' :
  Sql.run (INSERT_INTO_department nm) db = Ok db' ->
  exists tbl,
    Sql.department db = Some tbl /\
    Sql.last_identity db' = Some (Sql.next_identity tbl) /\
    Sql.department db' = Some (Sql.add nm tbl) /\
    Sql.employee db' = Sql.employee db.
Proof.
  simpl. destruct (Sql.department db) as [tbl|]; [|done].
  destruct (Sql.fits_name _); [|done].
  destruct (Sql.identity tbl) as [v|] eqn:Ei; [|done].
  apply identity_ok in Ei as (-> & _). intros [= <-]. by exists tbl.
Qed.

Lemma has_size {R : Type} (t : Sql.table R) i (r : R) :
  Sql.has t i = true -> size (<[i := r]> (Sql.rows t)) = size (Sql.rows t).
Proof.
  unfold Sql.has. intros [x Hx]%bool_decide_eq_true. by eapply map_size_insert_Some.
Qed.

Lemma run_update_department nm i db db' :
  Sql.run (UPDATE_department nm i) db = Ok db' ->
  Sql.count (Sql.department db') = Sql.count (Sql.department db) /\
  Sql.employee db' = Sql.employee db.
Proof.
  simpl. destruct (Sql.department db) as [tbl|] eqn:E; [|done].
  destruct (Sql.has tbl i) eqn:Ehas.
  - destruct (Sql.fits_name _); [|done]. intros [= <-]. simpl.
    split; [|done]. by apply has_size.
  - intros [= <-]. simpl. by rewrite ?E.
Qed.

Lemma run_insert_employee dep chf nm sal db db' :
  Sql.run (INSERT_INTO_employee dep chf nm sal) db = Ok db' ->
  exists tbl dv,
    Sql.employee db = Some tbl /\ dep = Some dv /\
    Sql.last_identity db' = Some (Sql.next_identity tbl) /\
    Sql.employee db' =
      Some (Sql.add {| Sql.department_id := dv; Sql.chief_id := chf;
                       Sql.name := nm; Sql.salary := sal |} tbl) /\
    Sql.department db' = Sql.department db.
Proof.
  simpl. destruct (Sql.employee db) as [tbl|]; [|done].
  unfold Sql.check_employee. destruct dep as [dv|]; [|done].
  repeat (destruct (negb _); [done|]).
  destruct (Sql.identity tbl) as [v|] eqn:Ei; [|done].
  apply identity_ok in Ei as (-> & _). intros [= <-]. by exists tbl, dv.
Qed.

Lemma run_update_employee dep chf nm sal i db db' :
  Sql.run (UPDATE_employee dep chf nm sal i) db = Ok db' ->
  Sql.count (Sql.employee db') = Sql.count (Sql.employee db) /\
  Sql.department db' = Sql.department db.
Proof.
  simpl. destruct (Sql.employee db) as [tbl|] eqn:E; [|done].
  destruct (Sql.has tbl i) eqn:Ehas.
  - destruct (Sql.check_employee _ _ _ _ _ _); [|done]. intros [= <-]. simpl.
    split; [|done]. by apply has_size.
  - intros [= <-]. simpl. by rewrite ?E.
Qed.

(** A later [save] of a department. *)
Lemma Department_save_update w self d i res w' :
  department_at w self = Some d -> DepartmentObject.id d = Some i ->
  Department.save self w = (res, w') ->
  same_environment w w' /\ heap w' = heap w /\
  exists t,
    trace w' = trace w ++ t /\
    follows (update_plan (UPDATE_department (DepartmentObject.name d) i)) res t /\
    (res = Ok tt ->
     Sql.count (Sql.department (conn w')) = Sql.count (Sql.department (conn w)) /\
     Sql.employee (conn w') = Sql.employee (conn w)).
Proof.
  intros Hat Hid H. unfold Department.save in H.
  rewrite (bind_run _ _ _ _ _ (Department_attributes_run _ _ _ Hat)), Hid in H.
  apply update_and_commit in H as (Henv & Hheap & t & Ht & Hfol & Hok).
  split_and!; [done|done|]. exists t. split_and!; [done|done|].
  intros (db & Hrun & <-)%Hok. by apply run_update_department in Hrun.
Qed.

Lemma chief_id_run w r :
  (forall c, EmployeeObject.chief r = Some c -> is_Some (heap w !! c)) ->
  Employee.chief_id r w
    = (Ok (match EmployeeObject.chief r with Some c => id_of w c | None => None end), w).
Proof.
  intros H. unfold Employee.chief_id. destruct (EmployeeObject.chief r) as [c|]; [|done].
  by apply get_id_run, H.
Qed.

(** The first [save] of an employee whose department and chief are
    objects. *)
Lemma Employee_save_insert w self r res w' :
  employee_at w self = Some r -> EmployeeObject.id r = None ->
  is_Some (heap w !! EmployeeObject.department r) ->
  (forall c, EmployeeObject.chief r = Some c -> is_Some (heap w !! c)) ->
  Employee.save self w = (res, w') ->
  same_environment w w' /\
  exists t v idv,
    trace w' = trace w ++ t /\
    follows (insert_plan self
               (INSERT_INTO_employee (id_of w (EmployeeObject.department r)) (chief_key w r)
                  (EmployeeObject.name r) (EmployeeObject.salary r)) v) res t /\
    heap w' = <[self := with_id idv (employee_object r)]> (heap w) /\
    (idv = None \/ idv = Some v) /\
    (res = Ok tt ->
     idv = Some v /\
     exists tbl dv,
       Sql.employee (conn w) = Some tbl /\ v = Sql.next_identity tbl /\
       id_of w (EmployeeObject.department r) = Some dv /\
       Sql.department (conn w') = Sql.department (conn w)).
Proof.
  intros Hat Hid Hdep Hchf H. unfold Employee.save in H.
  rewrite (bind_run _ _ _ _ _ (Employee_attributes_run _ _ _ Hat)), Hid in H.
  rewrite bind_assoc, (bind_run _ _ _ _ _ (get_id_run _ _ Hdep)) in H.
  rewrite bind_assoc, (bind_run _ _ _ _ _ (chief_id_run _ _ Hchf)) in H.
  fold (chief_key w r) in H.
  apply employee_at_heap in Hat.
  eapply insert_and_commit in H; [|exact Hat|].
  2:{ intros db (tbl & dv & _ & _ & -> & _)%run_insert_employee. done. }
  destruct H as (Henv & t & v & Ht & Hfol & Hheap & Hok). split; [done|].
  destruct Hheap as [Hheap|Hheap].
  - exists t, v, None. split_and!; [done|done| |by left|].
    + rewrite Hheap. symmetry. apply list_insert_id.
      destruct r; simpl in *; by subst.
    + intros Hres. destruct (Hok Hres) as (Hheap' & _). exfalso. rewrite Hheap in Hheap'.
      apply (f_equal (fun h => h !! self)) in Hheap'.
      rewrite list_lookup_insert_eq in Hheap' by (by eapply lookup_lt_Some).
      rewrite Hat in Hheap'. destruct r; simpl in *; by subst.
  - exists t, v, (Some v). split_and!; [done|done|done|by right|].
    intros Hres. destruct (Hok Hres) as (_ & db & Hr & Hv & Hd & He).
    apply run_insert_employee in Hr as (tbl & dv & ? & ? & ? & ? & ?).
    split; [done|]. exists tbl, dv. split_and!; congruence.
Qed.

(** A later [save] of an employee. *)
Lemma Employee_save_update w self r i res w' :
  employee_at w self = Some r -> EmployeeObject.id r = Some i ->
  is_Some (heap w !! EmployeeObject.department r) ->
  (forall c, EmployeeObject.chief r = Some c -> is_Some (heap w !! c)) ->
  Employee.save self w = (res, w') ->
  same_environment w w' /\ heap w' = heap w /\
  exists t,
    trace w' = trace w ++ t /\
    follows (update_plan
               (UPDATE_employee (id_of w (EmployeeObject.department r)) (chief_key w r)
                  (EmployeeObject.name r) (EmployeeObject.salary r) i)) res t /\
    (res = Ok tt ->
     Sql.count (Sql.employee (conn w')) = Sql.count (Sql.employee (conn w)) /\
     Sql.department (conn w') = Sql.department (conn w)).
Proof.
  intros Hat Hid Hdep Hchf H. unfold Employee.save in H.
  rewrite (bind_run _ _ _ _ _ (Employee_attributes_run _ _ _ Hat)), Hid in H.
  rewrite bind_assoc, (bind_run _ _ _ _ _ (get_id_run _ _ Hdep)) in H.
  rewrite bind_assoc, (bind_run _ _ _ _ _ (chief_id_run _ _ Hchf)) in H.
  fold (chief_key w r) in H.
  apply update_and_commit in H as (Henv & Hheap & t & Ht & Hfol & Hok).
  split_and!; [done|done|]. exists t. split_and!; [done|done|].
  intros (db & Hrun & <-)%Hok. by apply run_update_employee in Hrun.
Qed.

(* ===================================================================== *)
(** ** Construction *)
(* ===================================================================== *)

Lemma bind_ret_inv {A B : Type} (m : M A) (b : B) w res w' :
  bind m (fun _ => ret b) w = (res, w') ->
  exists res0,
    m w = (res0, w') /\
    res = match res0 with Ok _ => Ok b | Raise e => Raise e end.
Proof.
  unfold bind, ret. destruct (m w) as [[a|e] w1]; intros [= <- <-]; eauto.
Qed.

Lemma insert_at_end {A : Type} (l : list A) (x y : A) :
  <[length l := y]> (l ++ [x]) = l ++ [y].
Proof. rewrite insert_app_r_alt by lia. by rewrite Nat.sub_diag. Qed.

Lemma shorten_100 nm :
  exists short,
    textwrap.shorten nm 100 (str "") = Ok short /\
    (length short <= 100)%nat /\
    short `prefix_of` collapse nm /\
    ((length (collapse nm) <= 100)%nat -> short = collapse nm).
Proof. apply shorten_spec. lia. Qed.

(** [Department(name)]: the object is allocated with the shortened name,
    then saved. *)
Lemma Department_init_inv nm w res w' :
  Department.__init__ nm w = (res, w') ->
  exists short t v idv,
    textwrap.shorten nm 100 (str "") = Ok short /\
    same_environment w w' /\
    trace w' = trace w ++ New (length (heap w)) :: t /\
    follows (insert_plan (length (heap w)) (INSERT_INTO_department short) v) res t /\
    heap w' = heap w ++ [department_object
                           {| DepartmentObject.name := short;
                              DepartmentObject.id := idv |}] /\
    (idv = None \/ idv = Some v) /\
    (forall a, res = Ok a ->
       a = length (heap w) /\ idv = Some v /\
       exists tbl,
         Sql.department (conn w) = Some tbl /\ v = Sql.next_identity tbl /\
         Sql.department (conn w') = Some (Sql.add short tbl) /\
         Sql.employee (conn w') = Sql.employee (conn w)).
Proof.
  intros H. destruct (shorten_100 nm) as (short & Hshort & _).
  unfold Department.__init__ in H. rewrite Hshort in H.
  unfold bind at 1, lift in H. unfold bind at 1, new in H.
  apply bind_ret_inv in H as (res0 & H & ->).
  set (o := {| DepartmentObject.name := short; DepartmentObject.id := None |}) in *.
  eapply (Department_save_insert _ _ o) in H; [|unfold department_at; simpl|done].
  2:{ by rewrite list_lookup_middle. }
  destruct H as (Henv & t & v & idv & Ht & Hfol & Hheap & Hidv & Hok). simpl in *.
  exists short, t, v, idv. split_and!; [done|done| | | |done|].
  - rewrite Ht. by rewrite <- app_assoc.
  - by destruct res0.
  - rewrite Hheap. apply insert_at_end.
  - intros a Ha. destruct res0 as [[]|]; [|done]. injection Ha as <-.
    destruct (Hok eq_refl) as (-> & tbl & ? & ? & ? & ?). split_and!; [done|done|].
    by exists tbl.
Qed.

Lemma id_of_grow w h o a :
  is_Some (heap w !! a) -> id_of (record o (with_heap (heap w ++ h) w)) a = id_of w a.
Proof.
  intros [x Hx]. unfold id_of. simpl. by rewrite (lookup_app_l_Some _ _ _ _ Hx), Hx.
Qed.

(** [Employee(department, chief, name, salary)] for a department and a
    chief that are objects. *)
Lemma Employee_init_inv dep chf nm sal w res w' :
  is_Some (heap w !! dep) ->
  (forall c, chf = Some c -> is_Some (heap w !! c)) ->
  Employee.__init__ dep chf nm sal w = (res, w') ->
  exists short t v idv,
    textwrap.shorten nm 100 (str "") = Ok short /\
    same_environment w w' /\
    trace w' = trace w ++ New (length (heap w)) :: t /\
    follows (insert_plan (length (heap w))
               (INSERT_INTO_employee (id_of w dep)
                  (match chf with Some c => id_of w c | None => None end) short sal) v)
            res t /\
    heap w' = heap w ++ [employee_object
                           {| EmployeeObject.department := dep;
                              EmployeeObject.chief := chf;
                              EmployeeObject.name := short;
                              EmployeeObject.salary := sal;
                              EmployeeObject.id := idv |}] /\
    (idv = None \/ idv = Some v) /\
    (forall a, res = Ok a ->
       a = length (heap w) /\ idv = Some v /\
       exists dv, id_of w dep = Some dv).
Proof.
  intros Hdep Hchf H. destruct (shorten_100 nm) as (short & Hshort & _).
  unfold Employee.__init__ in H. rewrite Hshort in H.
  unfold bind at 1, lift in H. unfold bind at 1, new in H.
  apply bind_ret_inv in H as (res0 & H & ->).
  set (o := {| EmployeeObject.department := dep; EmployeeObject.chief := chf;
               EmployeeObject.name := short; EmployeeObject.salary := sal;
               EmployeeObject.id := None |}) in *.
  eapply (Employee_save_insert _ _ o) in H; [|unfold employee_at; simpl|done|simpl|simpl].
  2:{ by rewrite list_lookup_middle. }
  2:{ destruct Hdep as [x Hx]. by rewrite (lookup_app_l_Some _ _ _ _ Hx). }
  2:{ intros c Hc. destruct (Hchf c Hc) as [x Hx]. by rewrite (lookup_app_l_Some _ _ _ _ Hx). }
  destruct H as (Henv & t & v & idv & Ht & Hfol & Hheap & Hidv & Hok).
  rewrite id_of_grow in Hfol, Hok by done.
  assert (chief_key (record (New (length (heap w))) (with_heap (heap w ++ [employee_object o]) w)) o
          = match chf with Some c => id_of w c | None => None end) as Hkey.
  { unfold chief_key. simpl. destruct chf as [c|]; [|done]. apply id_of_grow. by apply Hchf. }
  rewrite Hkey in Hfol. simpl in *.
  exists short, t, v, idv. split_and!; [done|done| | | |done|].
  - rewrite Ht. by rewrite <- app_assoc.
  - by destruct res0.
  - rewrite Hheap. apply insert_at_end.
  - intros a Ha. destruct res0 as [[]|]; [|done]. injection Ha as <-.
    destruct (Hok eq_refl) as (-> & tbl & dv & ? & ? & ? & ?). split_and!; [done|done|].
    by exists dv.
Qed.

(* ===================================================================== *)
(** ** Random numbers and subscripts *)
(* ===================================================================== *)

Lemma randint_run a b w :
  a <= b ->
  randint a b w = (Ok (a + draws (random w) (used (random w)) mod (b - a + 1)), drawn w).
Proof.
  intros H. unfold randint, randrange.
  destruct (0 <? b + 1 - a) eqn:E; [|apply Z.ltb_ge in E; lia].
  replace (b + 1 - a) with (b - a + 1) by lia. reflexivity.
Qed.

Lemma randint_range a b x : a <= b -> a <= a + x mod (b - a + 1) <= b.
Proof. intros H. pose proof (Z.mod_pos_bound x (b - a + 1)). lia. Qed.

Lemma getitem_run {A : Type} (l : list A) i x w :
  0 <= i -> l !! Z.to_nat i = Some x -> getitem l i w = (Ok x, w).
Proof.
  intros Hi Hx. unfold getitem, len. apply lookup_lt_Some in Hx as Hlt.
  destruct (i <? 0) eqn:E; [apply Z.ltb_lt in E; lia|].
  destruct (0 <=? i) eqn:E1; [|apply Z.leb_gt in E1; lia].
  destruct (i <? Z.of_nat (length l)) eqn:E2; [|apply Z.ltb_ge in E2; lia].
  simpl. by rewrite Hx.
Qed.

Lemma chief_choices_lookup emps (k : Z) :
  0 <= k <= len emps ->
  exists chf,
    chief_choices emps !! Z.to_nat k = Some chf /\
    (k = 0 -> chf = None) /\
    (0 < k -> exists c, chf = Some c /\ emps !! Z.to_nat (k - 1) = Some c).
Proof.
  intros Hk. unfold len in Hk. destruct (decide (k = 0)) as [->|Hne].
  - exists None. split_and!; [done|done|lia].
  - destruct (lookup_lt_is_Some_2 emps (Z.to_nat (k - 1))) as [c Hc]; [lia|].
    exists (Some c). split_and!; [|lia|by eauto].
    unfold chief_choices. replace (Z.to_nat k) with (S (Z.to_nat (k - 1))) by lia.
    simpl. by rewrite list_lookup_fmap, Hc.
Qed.

(* ===================================================================== *)
(** ** One pass of the employee generator *)
(* ===================================================================== *)

(** What a pass does once the department and the chief are chosen: ask for
    a name, draw the salary, construct the employee. *)
Lemma pass_tail_inv d chf w res w' :
  allocated w d -> (forall c, chf = Some c -> allocated w c) ->
  (name <- fake_unique Faker.name ;;
   salary <- randint 20000 100001 ;;
   Employee.__init__ d chf name salary) w = (res, w') ->
  let sal := 20000 + draws (random w) (used (random w)) mod 80002 in
  fake w' = snd (Faker.ask Faker.name (fake w)) /\
  faults w' = faults w /\ draws (random w') = draws (random w) /\
  match fst (Faker.ask Faker.name (fake w)) with
  | Raise e =>
      res = Raise e /\ heap w' = heap w /\ trace w' = trace w /\ random w' = random w
  | Ok nm =>
      used (random w') = S (used (random w)) /\
      exists short t v idv,
        textwrap.shorten nm 100 (str "") = Ok short /\
        trace w' = trace w ++ New (length (heap w)) :: t /\
        follows (insert_plan (length (heap w))
                   (INSERT_INTO_employee (id_of w d)
                      (match chf with Some c => id_of w c | None => None end) short sal) v)
                res t /\
        heap w' = heap w ++ [employee_object
                               {| EmployeeObject.department := d;
                                  EmployeeObject.chief := chf;
                                  EmployeeObject.name := short;
                                  EmployeeObject.salary := sal;
                                  EmployeeObject.id := idv |}] /\
        (idv = None \/ idv = Some v) /\
        (forall a, res = Ok a ->
           a = length (heap w) /\ idv = Some v /\ exists dv, id_of w d = Some dv)
  end.
Proof.
  intros Hd Hchf H sal. unfold bind at 1, fake_unique in H.
  destruct (Faker.ask Faker.name (fake w)) as [[nm|e] f'] eqn:Eask; simpl.
  - rewrite (bind_run _ _ _ _ _ (randint_run 20000 100001 _ ltac:(lia))) in H.
    apply Employee_init_inv in H; [|done|done].
    destruct H as (short & t & v & idv & Hs & (Hf & Hr & Hk) & Ht & Hfol & Hheap & Hidv & Hok).
    simpl in *. rewrite Hf, Hr, Hk. split_and!; try done.
    exists short, t, v, idv. done.
  - injection H as <- <-. done.
Qed.

Ltac world_simpl H :=
  cbn [heap trace faults random fake conn draws used drawn with_random with_fake
       with_heap with_conn record] in H.

Lemma id_of_drawn w a : id_of (drawn w) a = id_of w a.
Proof. done. Qed.

(** One pass of the generator: the department and the chief come from the
    first draws, then the pass goes on as in [pass_tail_inv]. *)
Lemma employees_pass_inv deps emps w res w' :
  Forall (allocated w) deps -> Forall (allocated w) emps -> deps <> [] ->
  employees_pass deps emps w = (res, w') ->
  let g := draws (random w) in
  let u := used (random w) in
  let extra := match emps with [] => O | _ => 1%nat end in
  let sal := 20000 + g (u + 1 + extra)%nat mod 80002 in
  exists d chf,
    deps !! Z.to_nat (g u mod len deps) = Some d /\
    (emps = [] -> chf = None) /\
    (emps <> [] -> chief_choices emps !! Z.to_nat (g (S u) mod (len emps + 1)) = Some chf) /\
    (forall c, chf = Some c -> c ∈ emps) /\
    fake w' = snd (Faker.ask Faker.name (fake w)) /\
    faults w' = faults w /\ draws (random w') = g /\
    match fst (Faker.ask Faker.name (fake w)) with
    | Raise e => res = Raise e /\ heap w' = heap w /\ trace w' = trace w
    | Ok nm =>
        used (random w') = (u + 2 + extra)%nat /\
        exists short t v idv,
          textwrap.shorten nm 100 (str "") = Ok short /\
          trace w' = trace w ++ New (length (heap w)) :: t /\
          follows (insert_plan (length (heap w))
                     (INSERT_INTO_employee (id_of w d)
                        (match chf with Some c => id_of w c | None => None end) short sal) v)
                  res t /\
          heap w' = heap w ++ [employee_object
                                 {| EmployeeObject.department := d;
                                    EmployeeObject.chief := chf;
                                    EmployeeObject.name := short;
                                    EmployeeObject.salary := sal;
                                    EmployeeObject.id := idv |}] /\
          (idv = None \/ idv = Some v) /\
          (forall a, res = Ok a ->
             a = length (heap w) /\ idv = Some v /\ exists dv, id_of w d = Some dv)
    end.
Proof.
  intros Hdeps Hemps Hne H g u extra sal. unfold employees_pass in H.
  assert (0 < len deps) as Hlen by (unfold len; destruct deps; simpl; [done|lia]).
  rewrite (bind_run _ _ _ _ _ (randint_run 0 (len deps - 1) _ ltac:(lia))) in H.
  replace (len deps - 1 - 0 + 1) with (len deps) in H by lia.
  fold g u in H. rewrite Z.add_0_l in H.
  pose proof (Z.mod_pos_bound (g u) (len deps) Hlen) as Hpos.
  destruct (lookup_lt_is_Some_2 deps (Z.to_nat (g u mod len deps))) as [d Hd];
    [unfold len in *; lia|].
  assert (allocated w d) as Hdalloc.
  { rewrite Forall_forall in Hdeps. apply Hdeps. by eapply list_elem_of_lookup_2. }
  destruct emps as [|e0 emps'] eqn:Eemps.
  - (* the first pass: no draw for the chief *)
    simpl in H. unfold bind at 1, ret in H.
    rewrite (bind_run _ _ _ _ _ (getitem_run deps (g u mod len deps) d _ ltac:(lia) Hd)) in H.
    unfold bind at 1, ret in H. simpl in H.
    apply pass_tail_inv in H; [|done|done].
    destruct H as (Hf & Hfa & Hdr & H).
    world_simpl Hf; world_simpl Hfa; world_simpl Hdr; world_simpl H.
    rewrite ?id_of_drawn in H.
    exists d, None. split_and!; try done.
    fold g u in H. destruct (fst _) as [nm|e]; [|by destruct H as (? & ? & ? & _)].
    destruct H as (Hu & H). split; [lia|].
    unfold sal, extra. replace (u + 1 + 0)%nat with (S u) by lia. done.
  - (* a later pass: the chief is drawn *)
    rewrite <- Eemps in *.
    assert (0 < len emps) as Hlene by (unfold len; subst emps; simpl; lia).
    destruct (0 <? len emps) eqn:E; [|apply Z.ltb_ge in E; lia].
    rewrite (bind_run _ _ _ _ _ (randint_run (-1) (len emps - 1) _ ltac:(lia))) in H.
    replace (len emps - 1 - -1 + 1) with (len emps + 1) in H by lia.
    simpl in H. fold g u in H.
    rewrite (bind_run _ _ _ _ _ (getitem_run deps (g u mod len deps) d _ ltac:(lia) Hd)) in H.
    pose proof (Z.mod_pos_bound (g (S u)) (len emps + 1) ltac:(lia)) as Hk.
    destruct (chief_choices_lookup emps (g (S u) mod (len emps + 1)) ltac:(lia))
      as (chf & Hchf & Hnone & Hsome).
    assert ((if -1 <? -1 + g (S u) mod (len emps + 1)
             then c <- getitem emps (-1 + g (S u) mod (len emps + 1)) ;; ret (Some c)
             else ret None) (drawn (drawn w)) = (Ok chf, drawn (drawn w))) as Hrun.
    { destruct (-1 <? _) eqn:E1.
      - apply Z.ltb_lt in E1. destruct Hsome as (c & -> & Hc); [lia|].
        replace (-1 + g (S u) mod (len emps + 1)) with (g (S u) mod (len emps + 1) - 1) by lia.
        by rewrite (bind_run _ _ _ _ _ (getitem_run emps (g (S u) mod (len emps + 1) - 1) c _ ltac:(lia) Hc)).
      - apply Z.ltb_ge in E1. rewrite Hnone by lia. done. }
    rewrite (bind_run _ _ _ _ _ Hrun) in H.
    assert (forall c, chf = Some c -> c ∈ emps) as Hin.
    { intros c ->. destruct (decide (g (S u) mod (len emps + 1) = 0)) as [Hz|Hz].
      - by specialize (Hnone Hz).
      - destruct Hsome as (c' & [= <-] & Hc); [lia|]. by eapply list_elem_of_lookup_2. }
    apply pass_tail_inv in H; [|done|].
    2:{ intros c Hc%Hin. rewrite Forall_forall in Hemps. by apply Hemps. }
    destruct H as (Hf & Hfa & Hdr & H).
    world_simpl Hf; world_simpl Hfa; world_simpl Hdr; world_simpl H.
    rewrite ?id_of_drawn in H.
    exists d, chf. split_and!; try done.
    { by subst emps. }
    fold g u in H. destruct (fst _) as [nm|e]; [|by destruct H as (? & ? & ? & _)].
    destruct H as (Hu & H). split; [subst emps; simpl; lia|].
    unfold sal, extra. subst emps. replace (u + 1 + 1)%nat with (S (S u)) by lia. done.
Qed.

(* ===================================================================== *)
(** ** The employee generator *)
(* ===================================================================== *)

Lemma allocated_mono w w' h a :
  heap w' = heap w ++ h -> allocated w a -> allocated w' a.
Proof. intros Hh [o Ho]. exists o. rewrite Hh. by apply lookup_app_l_Some. Qed.

Lemma allocated_new w w' o h :
  heap w' = heap w ++ o :: h -> allocated w' (length (heap w)).
Proof. intros Hh. exists o. rewrite Hh. by apply list_lookup_middle. Qed.

Lemma id_of_mono w w' h a :
  heap w' = heap w ++ h -> allocated w a -> id_of w' a = id_of w a.
Proof.
  intros Hh [o Ho]. unfold id_of. by rewrite Hh, (lookup_app_l_Some _ _ _ _ Ho), Ho.
Qed.

Lemma draws_used_next (emps : list addr) :
  (draws_used (length emps) + 2 + match emps with [] => O | _ => 1 end
   = draws_used (S (length emps)))%nat.
Proof. destruct emps; simpl; lia. Qed.

(** A run of the loop that returns: every pass made one employee, out of
    its own draws, and saved it. *)
Lemma employees_loop_ok n : forall deps emps0 w emps w' u,
  Forall (allocated w) deps -> Forall (allocated w) emps0 -> deps <> [] ->
  used (random w) = (u + draws_used (length emps0))%nat ->
  employees_loop n deps emps0 w = (Ok emps, w') ->
  exists rs : list EmployeeObject.t,
    length rs = n /\
    emps = emps0 ++ seq (length (heap w)) n /\
    heap w' = heap w ++ (employee_object <$> rs) /\
    faults w' = faults w /\ draws (random w') = draws (random w) /\
    (exists t, trace w' = trace w ++ t) /\
    forall j r, rs !! j = Some r ->
      drawn_as (draws (random w)) u deps emps (length emps0 + j)%nat r /\
      exists v dv t1 t2,
        EmployeeObject.id r = Some v /\
        id_of w (EmployeeObject.department r) = Some dv /\
        trace w' = trace w ++ t1
                   ++ birth (length (heap w) + j)%nat
                        (INSERT_INTO_employee (Some dv) (chief_key w' r)
                           (EmployeeObject.name r) (EmployeeObject.salary r)) v
                   ++ t2 /\
        forall c, EmployeeObject.chief r = Some c ->
          c ∈ take (length emps0 + j)%nat emps /\
          (c ∈ emps0 \/ exists vc, SetId c (Some vc) ∈ t1).
Proof.
  induction n as [|n IH]; intros deps emps0 w emps w' u Hdeps Hemps Hne Hu H.
  { injection H as <- <-. exists []. simpl. rewrite !app_nil_r.
    split_and!; try done. by exists []; rewrite app_nil_r. }
  simpl in H. apply bind_ok in H as (e & w1 & Hpass & Hloop).
  apply employees_pass_inv in Hpass; [|done..].
  destruct Hpass as (d & chf & Hd & Hfirst & Hlater & Hin & Hfake & Hfaults & Hdraws & Hpass).
  destruct (fst (Faker.ask Faker.name (fake w))) as [nm|ex]; [|by destruct Hpass].
  destruct Hpass as (Hused & short & t & v & idv & Hshort & Ht & Hfol & Hheap & _ & Hok).
  destruct (Hok e eq_refl) as (-> & -> & dv & Hdv). simpl in Hfol. subst t.
  set (r0 := {| EmployeeObject.department := d; EmployeeObject.chief := chf;
                EmployeeObject.name := short;
                EmployeeObject.salary := _; EmployeeObject.id := Some v |}) in *.
  assert (allocated w d) as Hdalloc.
  { rewrite Forall_forall in Hdeps. apply Hdeps. by eapply list_elem_of_lookup_2. }
  apply (IH _ _ _ _ _ u) in Hloop; cycle 1.
  { eapply Forall_impl; [exact Hdeps|]. intros a. by eapply allocated_mono. }
  { apply Forall_app. split.
    - eapply Forall_impl; [exact Hemps|]. intros a. by eapply allocated_mono.
    - constructor; [|done]. by eapply allocated_new. }
  { done. }
  { rewrite Hused, Hu, length_app. simpl. rewrite Nat.add_1_r, <- draws_used_next. lia. }
  destruct Hloop as (rs & Hlen & Hemps' & Hheap' & Hfaults' & Hdraws' & [t' Ht'] & Hrs).
  assert (length (heap w1) = S (length (heap w))) as Hlen1.
  { rewrite Hheap, length_app. simpl. lia. }
  rewrite Hlen1 in *.
  assert (heap w' = heap w ++ employee_object r0 :: (employee_object <$> rs)) as Hheap2.
  { rewrite Hheap', Hheap, <- app_assoc. done. }
  assert (emps = emps0 ++ seq (length (heap w)) (S n)) as Hemps2.
  { rewrite Hemps', <- app_assoc. done. }
  assert (chief_key w' r0 = match chf with Some c => id_of w c | None => None end) as Hkey.
  { unfold chief_key. simpl. destruct chf as [c|]; [|done].
    eapply id_of_mono; [done|]. rewrite Forall_forall in Hemps. by apply Hemps, Hin. }
  exists (r0 :: rs). split_and!; [simpl; lia|done|done|congruence|congruence| |].
  { eexists. rewrite Ht', Ht, <- app_assoc. done. }
  assert (take (length emps0) emps = emps0) as Htake.
  { rewrite Hemps2. by rewrite take_app_length. }
  intros [|j] r Hr.
  - (* the employee of this pass *)
    injection Hr as <-. rewrite !Nat.add_0_r. split.
    + unfold drawn_as.
      cbn [r0 EmployeeObject.department EmployeeObject.chief EmployeeObject.salary].
      rewrite Htake. split_and!.
      * by rewrite <- Hu.
      * intros Hz. apply Hfirst. by apply length_zero_iff_nil.
      * intros Hz. rewrite <- Hlater by (by intros ->).
        replace (u + 3 * length emps0)%nat with (S (used (random w)))
          by (rewrite Hu; destruct emps0; [done|simpl; lia]).
        done.
      * replace (u + salary_draw (length emps0))%nat
          with (used (random w) + 1 + match emps0 with [] => 0 | _ => 1 end)%nat
          by (rewrite Hu; destruct emps0; simpl; lia).
        done.
    + exists v, dv, [], t'. split_and!; [done|done| |].
      * rewrite Ht', Ht, Hkey, <- Hdv. simpl. by rewrite <- !app_assoc.
      * intros c Hc. simpl in Hc. subst chf. rewrite Htake.
        split; [by apply Hin|]. left. by apply Hin.
  - (* an employee of a later pass *)
    simpl in Hr. destruct (Hrs j r Hr) as (Hgen & v' & dv' & t1 & t2 & Hid & Hdep & Htr & Hchief).
    rewrite length_app in Hgen, Hchief. simpl in Hgen, Hchief.
    replace (length emps0 + 1 + j)%nat with (length emps0 + S j)%nat in Hgen, Hchief by lia.
    rewrite Hdraws in Hgen. split; [done|].
    assert (allocated w (EmployeeObject.department r)) as Hralloc.
    { destruct Hgen as (Hlk & _). rewrite Forall_forall in Hdeps. apply Hdeps.
      by eapply list_elem_of_lookup_2. }
    exists v', dv', (birth (length (heap w))
                       (INSERT_INTO_employee (id_of w d)
                          (match chf with Some c => id_of w c | None => None end)
                          short (EmployeeObject.salary r0)) v ++ t1), t2.
    split_and!; [done| | |].
    + by rewrite <- (id_of_mono w w1 _ _ Hheap Hralloc).
    + rewrite Htr, Ht. replace (S (length (heap w)) + j)%nat
        with (length (heap w) + S j)%nat by lia.
      unfold birth at 2. simpl. by rewrite <- !app_assoc.
    + intros c Hc. destruct (Hchief c Hc) as (Hc1 & Hc2). split; [done|].
      destruct Hc2 as [[Hc2|Hc2]%elem_of_app|(vc & Hvc)].
      * by left.
      * right. apply list_elem_of_singleton in Hc2 as ->. exists v.
        apply elem_of_app. left. apply list_elem_of_In. simpl. auto 10.
      * right. exists vc. apply elem_of_app. by right.
Qed.

(* ===================================================================== *)
(** ** Runs that succeed *)
(* ===================================================================== *)

Lemma session_call_run {A : Type} (c : call)
    (effect : Sql.database -> result (A * Sql.database)) w a db :
  quiet w -> effect (conn w) = Ok (a, db) ->
  session_call c effect w = (Ok a, record (Call c None) (with_conn db w)).
Proof. intros Hq He. unfold session_call. by rewrite Hq, He. Qed.

Lemma cursor_execute_run s w db :
  quiet w -> Sql.run s (conn w) = Ok db ->
  cursor_execute s w = (Ok tt, record (Call (execute s) None) (with_conn db w)).
Proof. intros Hq Hr. apply session_call_run; [done|]. by rewrite Hr. Qed.

Lemma quiet_record ev db w : quiet w -> quiet (record ev (with_conn db w)).
Proof. done. Qed.

(** In a quiet world an insert that the database accepts goes through to
    the commit. *)
Lemma insert_and_commit_run self o s w db v :
  quiet w -> heap w !! self = Some o ->
  Sql.run s (conn w) = Ok db -> Sql.last_identity db = Some v ->
  exists w',
    ((cursor_execute s ;;
      cursor_execute SELECT_IDENTITY ;;
      row <- cursor_fetchone ;;
      v <- first_column row ;;
      set_id self v) ;;
     conn_commit) w = (Ok tt, w').
Proof.
  intros Hq Ho Hrun Hv.
  rewrite bind_assoc, (bind_run _ _ _ _ _ (cursor_execute_run s w db Hq Hrun)).
  set (w1 := record _ _). assert (quiet w1) as Hq1 by done.
  rewrite bind_assoc, (bind_run _ _ _ _ _ (cursor_execute_run SELECT_IDENTITY w1 _ Hq1 eq_refl)).
  set (w2 := record _ _). assert (quiet w2) as Hq2 by done.
  rewrite bind_assoc.
  unfold cursor_fetchone. erewrite (bind_run (session_call fetchone _));
    [|apply session_call_run; [done|]; simpl; rewrite Hv; reflexivity].
  set (w3 := record _ _). assert (quiet w3) as Hq3 by done.
  rewrite bind_assoc. unfold first_column. unfold bind at 1, ret.
  unfold bind, set_id. simpl. rewrite Ho. unfold conn_commit, session_call. simpl.
  rewrite Hq. eauto.
Qed.

(** In a quiet world the first save of an employee without chief returns
    when the database accepts the row. *)
Lemma Employee_save_run self r w dv db :
  quiet w -> employee_at w self = Some r ->
  EmployeeObject.id r = None -> EmployeeObject.chief r = None ->
  allocated w (EmployeeObject.department r) ->
  id_of w (EmployeeObject.department r) = Some dv ->
  Sql.run (INSERT_INTO_employee (Some dv) None (EmployeeObject.name r)
             (EmployeeObject.salary r)) (conn w) = Ok db ->
  exists w', Employee.save self w = (Ok tt, w').
Proof.
  intros Hq Hat Hid Hchf Hdep Hdv Hdb. unfold Employee.save.
  rewrite (bind_run _ _ _ _ _ (Employee_attributes_run _ _ _ Hat)), Hid.
  rewrite bind_assoc, (bind_run _ _ _ _ _ (get_id_run _ _ Hdep)), Hdv.
  rewrite bind_assoc. unfold Employee.chief_id. rewrite Hchf. unfold bind at 1, ret.
  apply run_insert_employee in Hdb as Hdb'.
  destruct Hdb' as (tbl & dv' & _ & _ & Hlast & _).
  eapply insert_and_commit_run; [done|by apply employee_at_heap|done|done].
Qed.

(** In a quiet world the constructor of an employee without chief returns
    when the database accepts the row. *)
Lemma Employee_init_run dep nm sal w dv :
  quiet w -> allocated w dep -> id_of w dep = Some dv ->
  (forall short, textwrap.shorten nm 100 (str "") = Ok short ->
     exists db, Sql.run (INSERT_INTO_employee (Some dv) None short sal) (conn w) = Ok db) ->
  exists w', Employee.__init__ dep None nm sal w = (Ok (length (heap w)), w').
Proof.
  intros Hq Hdep Hdv Hrun. destruct (shorten_100 nm) as (short & Hshort & _).
  destruct (Hrun short Hshort) as [db Hdb].
  unfold Employee.__init__. rewrite Hshort. unfold bind at 1, lift. unfold bind at 1, new.
  set (r := EmployeeObject.Build_t _ _ _ _ _) in *. set (w1 := record _ _).
  destruct (Employee_save_run (length (heap w)) r w1 dv db) as [w' Hw']; try done.
  - unfold employee_at. simpl. by rewrite list_lookup_middle.
  - by eapply (allocated_mono w w1 [employee_object r]).
  - by rewrite (id_of_mono w w1 [employee_object r]).
  - exists w'. unfold bind. by rewrite Hw'.
Qed.

(* ===================================================================== *)
(** ** The department generator *)
(* ===================================================================== *)

Lemma fake_unique_inv p w res w' :
  fake_unique p w = (res, w') ->
  res = (Faker.ask p (fake w)).1 /\ w' = with_fake (Faker.ask p (fake w)).2 w.
Proof. unfold fake_unique. destruct (Faker.ask p (fake w)). by intros [= <- <-]. Qed.

Lemma ask_history p f :
  Faker.history (Faker.ask p f).2 = Faker.history f ++ [(p, (Faker.ask p f).1)].
Proof. done. Qed.

(** A run of the loop that returns: every pass made one department, named
    after the phrase it asked for, and saved it. *)
Lemma departments_loop_ok n : forall deps0 w deps w',
  departments_loop n deps0 w = (Ok deps, w') ->
  exists ds : list DepartmentObject.t,
    length ds = n /\
    deps = deps0 ++ seq (length (heap w)) n /\
    heap w' = heap w ++ (department_object <$> ds) /\
    Faker.history (fake w) `prefix_of` Faker.history (fake w') /\
    exists t,
      trace w' = trace w ++ t /\
      forall j dd, ds !! j = Some dd ->
        (exists dv, DepartmentObject.id dd = Some dv /\
                    SetId (length (heap w) + j)%nat (Some dv) ∈ t) /\
        exists phrase,
          Faker.history (fake w') !! (length (Faker.history (fake w)) + j)%nat
            = Some (Faker.catch_phrase, Ok phrase) /\
          textwrap.shorten phrase 100 (str "") = Ok (DepartmentObject.name dd).
Proof.
  induction n as [|n IH]; intros deps0 w deps w' H.
  { injection H as <- <-. exists []. simpl. rewrite !app_nil_r.
    split_and!; try done. exists []. by rewrite app_nil_r. }
  simpl in H. apply bind_ok in H as (phrase & w0 & Hask & H).
  apply fake_unique_inv in Hask as [Hphrase ->].
  apply bind_ok in H as (a & w1 & Hinit & Hloop).
  apply Department_init_inv in Hinit
    as (short & t & v & idv & Hshort & (_ & _ & Hfake) & Ht & Hfol & Hheap & _ & Hok).
  destruct (Hok a eq_refl) as (-> & -> & _). simpl in Hfol, Ht, Hheap. subst t.
  world_simpl Hfake.
  apply IH in Hloop as (ds & Hlen & Hdeps & Hheap' & Hpre & t' & Ht' & Hds).
  assert (length (heap w1) = S (length (heap w))) as Hlen1.
  { rewrite Hheap, length_app. simpl. lia. }
  assert (Faker.history (fake w1) = Faker.history (fake w) ++ [(Faker.catch_phrase, Ok phrase)])
    as Hhist by (by rewrite Hfake, ask_history, <- Hphrase).
  set (d0 := {| DepartmentObject.name := short; DepartmentObject.id := Some v |}) in *.
  exists (d0 :: ds). split_and!.
  - simpl. lia.
  - rewrite Hdeps, Hlen1, <- app_assoc. done.
  - rewrite Hheap', Hheap, <- app_assoc. done.
  - etransitivity; [|exact Hpre]. rewrite Hhist. by apply prefix_app_r.
  - eexists. split; [rewrite Ht', Ht, <- app_assoc; reflexivity|].
    intros [|j] dd Hdd.
    + injection Hdd as <-. rewrite !Nat.add_0_r. split.
      * exists v. split; [done|]. apply elem_of_app. left.
        apply list_elem_of_In. simpl. auto 10.
      * exists phrase. split; [|done]. destruct Hpre as [more ->]. rewrite Hhist.
        rewrite <- app_assoc. by apply list_lookup_middle.
    + simpl in Hdd. destruct (Hds j dd Hdd) as ((dv & Hdv & Hin) & phrase' & Hlook & Hsh).
      rewrite Hlen1 in Hin. rewrite Hhist, length_app in Hlook. simpl in Hlook.
      replace (length (Faker.history (fake w)) + 1 + j)%nat
        with (length (Faker.history (fake w)) + S j)%nat in Hlook by lia.
      replace (S (length (heap w)) + j)%nat with (length (heap w) + S j)%nat in Hin by lia.
      split; [|by eauto]. exists dv. split; [done|]. apply elem_of_app. by right.
Qed.

(* ===================================================================== *)
(** ** What the generators ask the fake-data generator *)
(* ===================================================================== *)

Lemma answers_app g asked ps qs :
  answers g asked (ps ++ qs) = answers g asked ps ++ answers g (asked ++ ps) qs.
Proof.
  revert asked. induction ps as [|p ps IH]; intros asked; simpl.
  - by rewrite app_nil_r.
  - rewrite IH, <- app_assoc. done.
Qed.

Lemma answers_fst g asked ps : (answers g asked ps).*1 = ps.
Proof. revert asked. induction ps as [|p ps IH]; intros asked; simpl; by rewrite ?IH. Qed.

Lemma told_nil f : told f f [].
Proof. split; [done|]. simpl. by rewrite app_nil_r. Qed.

Lemma told_ask p f : told f (Faker.ask p f).2 [p].
Proof. done. Qed.

Lemma told_app f f' f'' ps qs :
  told f f' ps -> told f' f'' qs -> told f f'' (ps ++ qs).
Proof.
  intros [Hg Hh] [Hg' Hh']. split; [congruence|].
  rewrite Hh', Hh, Hg, answers_app, <- app_assoc. do 2 f_equal.
  unfold Faker.asked. by rewrite Hh, fmap_app, answers_fst.
Qed.

Lemma told_same f f' f'' ps : told f f' ps -> f'' = f' -> told f f'' ps.
Proof. by intros H ->. Qed.

(** Whatever becomes of the loop of the department generator, it has asked
    for a catch phrase once per pass it started, and for nothing else. *)
Lemma departments_loop_told n : forall deps0 w res w',
  departments_loop n deps0 w = (res, w') ->
  exists m,
    (m <= n)%nat /\ told (fake w) (fake w') (repeat Faker.catch_phrase m) /\
    (forall deps, res = Ok deps -> m = n).
Proof.
  induction n as [|n IH]; intros deps0 w res w' H.
  { injection H as <- <-. exists O. split_and!; [done|apply told_nil|done]. }
  simpl in H. apply bind_inv in H as [(phrase & w0 & Hask & H)|(e & Hask & ->)]; cycle 1.
  { apply fake_unique_inv in Hask as [_ ->]. exists 1%nat.
    split_and!; [lia|apply told_ask|done]. }
  apply fake_unique_inv in Hask as [_ ->].
  apply bind_inv in H as [(a & w1 & Hinit & Hloop)|(e & Hinit & ->)]; cycle 1.
  { apply Department_init_inv in Hinit as (_ & _ & _ & _ & _ & (_ & _ & Hfake) & _).
    exists 1%nat. split_and!; [lia| |done]. eapply told_same; [apply told_ask|done]. }
  apply Department_init_inv in Hinit as (_ & _ & _ & _ & _ & (_ & _ & Hfake) & _).
  apply IH in Hloop as (m & Hm & Htold & Hok). exists (S m).
  split_and!; [lia| |by intros deps ->%Hok].
  change (repeat Faker.catch_phrase (S m)) with ([Faker.catch_phrase] ++ repeat Faker.catch_phrase m).
  eapply told_app; [|exact Htold]. eapply told_same; [apply told_ask|done].
Qed.

(** Whatever becomes of the loop of the employee generator, it has asked
    for a name once per pass it started, and for nothing else. *)
Lemma employees_loop_told n : forall deps emps0 w res w',
  Forall (allocated w) deps -> Forall (allocated w) emps0 -> deps <> [] ->
  employees_loop n deps emps0 w = (res, w') ->
  exists m,
    (m <= n)%nat /\ told (fake w) (fake w') (repeat Faker.name m) /\
    (forall emps, res = Ok emps -> m = n).
Proof.
  induction n as [|n IH]; intros deps emps0 w res w' Hdeps Hemps Hne H.
  { injection H as <- <-. exists O. split_and!; [done|apply told_nil|done]. }
  simpl in H. apply bind_inv in H as [(a & w1 & Hpass & Hloop)|(e & Hpass & ->)]; cycle 1.
  { apply employees_pass_inv in Hpass as (_ & _ & _ & _ & _ & _ & Hfake & _); [|done..].
    exists 1%nat. split_and!; [lia| |done]. eapply told_same; [apply told_ask|done]. }
  apply employees_pass_inv in Hpass
    as (d & chf & _ & _ & _ & _ & Hfake & _ & _ & Hpass); [|done..].
  destruct (Faker.ask Faker.name (fake w)).1 as [nm|ex] eqn:Eans; [|by destruct Hpass].
  destruct Hpass as (_ & short & t & v & idv & _ & _ & _ & Hheap & _ & Hnew).
  destruct (Hnew a eq_refl) as (-> & _).
  apply IH in Hloop as (m & Hm & Htold & Hok); [| | |done].
  - exists (S m). split_and!; [lia| |by intros emps ->%Hok].
    change (repeat Faker.name (S m)) with ([Faker.name] ++ repeat Faker.name m).
    eapply told_app; [|exact Htold]. eapply told_same; [apply told_ask|done].
  - eapply Forall_impl; [exact Hdeps|]. intros x. by eapply allocated_mono.
  - apply Forall_app. split.
    + eapply Forall_impl; [exact Hemps|]. intros x. by eapply allocated_mono.
    + constructor; [|done]. by eapply allocated_new.
Qed.

Lemma name_of_mono w w' h a :
  heap w' = heap w ++ h -> allocated w a -> name_of w' a = name_of w a.
Proof.
  intros Hh [o Ho]. unfold name_of. by rewrite Hh, (lookup_app_l_Some _ _ _ _ Ho), Ho.
Qed.

(** A run of the loop of the employee generator that returns: the
    employee of every pass stores the shortened name that the pass was
    given. *)
Lemma employees_loop_names n : forall deps emps0 w emps w',
  Forall (allocated w) deps -> Forall (allocated w) emps0 -> deps <> [] ->
  employees_loop n deps emps0 w = (Ok emps, w') ->
  Faker.history (fake w) `prefix_of` Faker.history (fake w') /\
  (exists h, heap w' = heap w ++ h) /\
  forall j, (j < n)%nat ->
    exists name short,
      Faker.history (fake w') !! (length (Faker.history (fake w)) + j)%nat
        = Some (Faker.name, Ok name) /\
      textwrap.shorten name 100 (str "") = Ok short /\
      name_of w' (length (heap w) + j)%nat = Some short.
Proof.
  induction n as [|n IH]; intros deps emps0 w emps w' Hdeps Hemps Hne H.
  { injection H as <- <-. split_and!; [done|by exists []; rewrite app_nil_r|lia]. }
  simpl in H. apply bind_ok in H as (a & w1 & Hpass & Hloop).
  apply employees_pass_inv in Hpass
    as (d & chf & _ & _ & _ & _ & Hfake & _ & _ & Hpass); [|done..].
  destruct (Faker.ask Faker.name (fake w)).1 as [nm|ex] eqn:Eans; [|by destruct Hpass].
  destruct Hpass as (_ & short & t & v & idv & Hshort & _ & _ & Hheap & _ & Hnew).
  destruct (Hnew a eq_refl) as (-> & _).
  assert (Faker.history (fake w1) = Faker.history (fake w) ++ [(Faker.name, Ok nm)]) as Hhist
    by (by rewrite Hfake, ask_history, Eans).
  assert (length (heap w1) = S (length (heap w))) as Hlen1.
  { rewrite Hheap, length_app. simpl. lia. }
  apply IH in Hloop as (Hpre & [h Hh] & Hnames); [| | |done].
  - split_and!.
    + etransitivity; [|exact Hpre]. rewrite Hhist. by apply prefix_app_r.
    + eexists. rewrite Hh, Hheap, <- app_assoc. done.
    + intros [|j] Hj.
      * exists nm, short. rewrite !Nat.add_0_r. split_and!; [|done|].
        -- destruct Hpre as [more ->]. rewrite Hhist, <- app_assoc.
           by apply list_lookup_middle.
        -- rewrite (name_of_mono w1 w' h) by (done || by eapply allocated_new).
           unfold name_of. by rewrite Hheap, list_lookup_middle.
      * destruct (Hnames j ltac:(lia)) as (nm' & short' & Hlook & Hsh & Hname).
        exists nm', short'. rewrite Hhist, length_app in Hlook. simpl in Hlook.
        rewrite Hlen1 in Hname.
        replace (length (Faker.history (fake w)) + S j)%nat
          with (length (Faker.history (fake w)) + 1 + j)%nat by lia.
        replace (length (heap w) + S j)%nat with (S (length (heap w)) + j)%nat by lia.
        done.
  - eapply Forall_impl; [exact Hdeps|]. intros x. by eapply allocated_mono.
  - apply Forall_app. split.
    + eapply Forall_impl; [exact Hemps|]. intros x. by eapply allocated_mono.
    + constructor; [|done]. by eapply allocated_new.
Qed.

Lemma answers_prefix g asked ps qs :
  ps `prefix_of` qs -> answers g asked ps `prefix_of` answers g asked qs.
Proof. intros [k ->]. rewrite answers_app. by apply prefix_app_r. Qed.

Lemma repeat_prefix {A : Type} (x : A) (m n : nat) :
  (m <= n)%nat -> repeat x m `prefix_of` repeat x n.
Proof.
  intros H. exists (repeat x (n - m)). rewrite <- repeat_app. f_equal. lia.
Qed.

Lemma employee_at_generated w w' (rs : list EmployeeObject.t) (j : nat) r :
  heap w' = heap w ++ (employee_object <$> rs) -> rs !! j = Some r ->
  employee_at w' (length (heap w) + j)%nat = Some r.
Proof.
  intros Hh Hr. unfold employee_at. rewrite Hh, lookup_app_r by lia.
  replace (length (heap w) + j - length (heap w))%nat with j by lia.
  by rewrite list_lookup_fmap, Hr.
Qed.

(** A run of [get_random_employees] that returns, on departments that are
    objects: the employees are new objects, one per pass, each made out of
    the draws of its pass and saved before the next pass starts. *)
Lemma get_random_employees_ok amount deps w emps w' :
  Forall (allocated w) deps ->
  get_random_employees amount deps w = (Ok emps, w') ->
  exists rs : list EmployeeObject.t,
    emps = seq (length (heap w)) (length rs) /\
    heap w' = heap w ++ (employee_object <$> rs) /\
    faults w' = faults w /\
    (exists t, trace w' = trace w ++ t) /\
    forall j r, rs !! j = Some r ->
      drawn_as (draws (random w)) (used (random w)) deps emps j r /\
      exists v dv t1 t2,
        EmployeeObject.id r = Some v /\
        id_of w (EmployeeObject.department r) = Some dv /\
        trace w' = trace w ++ t1
                   ++ birth (length (heap w) + j)%nat
                        (INSERT_INTO_employee (Some dv) (chief_key w' r)
                           (EmployeeObject.name r) (EmployeeObject.salary r)) v
                   ++ t2 /\
        forall c, EmployeeObject.chief r = Some c ->
          c ∈ take j emps /\ exists vc, SetId c (Some vc) ∈ t1.
Proof.
  intros Hdeps H. unfold get_random_employees in H.
  destruct (len deps <? 1) eqn:E.
  - injection H as <- <-. exists []. simpl. rewrite app_nil_r.
    split_and!; try done. by exists []; rewrite app_nil_r.
  - apply Z.ltb_ge in E.
    apply (employees_loop_ok _ _ _ _ _ _ (used (random w))) in H;
      [|done|done|by intros ->|simpl; lia].
    destruct H as (rs & Hlen & Hemps & Hheap & Hfaults & _ & Ht & Hrs).
    exists rs. simpl in Hemps. rewrite Hlen. split_and!; try done.
    intros j r Hr. destruct (Hrs j r Hr) as (Hgen & v & dv & t1 & t2 & ? & ? & ? & Hc).
    simpl in *. split; [done|]. exists v, dv, t1, t2. split_and!; try done.
    intros c Hcr. destruct (Hc c Hcr) as (? & [Hnil|?]); [|done].
    by apply elem_of_nil in Hnil.
Qed.

(** C7: the department generator called with count 0, and the employee
    generator called with any count and an empty list of departments,
    return the empty list and leave the world as it is: no event is added
    to the trace, so no insert, update or commit is issued. *)
Theorem nothing_to_generate (w : world) (amount : Z) :
  get_random_departments 0 w = (Ok [], w) /\
  get_random_employees amount [] w = (Ok [], w).
Proof. split; reflexivity. Qed.

(** C10: for a negative count the two generators return the empty list,
    whatever the list of departments, without raising and without touching
    the world: a negative count is treated like zero. *)
Theorem negative_amount (w : world) (amount : Z) (departments : list addr) :
  amount < 0 ->
  get_random_departments amount w = (Ok [], w) /\
  get_random_employees amount departments w = (Ok [], w).
Proof.
  intros H. unfold get_random_departments, get_random_employees.
  replace (Z.to_nat amount) with O by lia. simpl. by destruct (len departments <? 1).
Qed.

Lemma negative_amount_witness :
  -3 < 0 /\
  get_random_departments (-3) (sample_boot (fun _ => 7)) = (Ok [], sample_boot (fun _ => 7)) /\
  get_random_employees (-3) [0%nat; 1%nat] (sample_boot (fun _ => 7))
    = (Ok [], sample_boot (fun _ => 7)).
Proof. split; [lia | apply (negative_amount (sample_boot (fun _ => 7)) (-3)); lia]. Defined.

(** C1: in a run of the employee generator that returns, the chief [c] of
    a generated employee [e] is an employee generated by an earlier pass:
    it stands before [e] in the result, it was allocated before [e], its
    identity was assigned before [e] was constructed, and it is not [e]
    itself; the chief relation over the generated employees has no
    cycle. *)
Theorem chief_precedes (amount : Z) (departments : list addr) (w : world)
    (employees : list addr) (w' : world) :
  Forall (allocated w) departments ->
  get_random_employees amount departments w = (Ok employees, w') ->
  (forall j e, employees !! j = Some e ->
     exists r, employee_at w' e = Some r /\
       forall c, EmployeeObject.chief r = Some c ->
         (exists i, (i < j)%nat /\ employees !! i = Some c) /\
         (c < e)%nat /\ c <> e /\
         exists v, precedes (SetId c (Some v)) (New e) (trace w')) /\
  (forall e, e ∈ employees -> ~ tc (chief_edge w') e e).
Proof.
  intros Hdeps H.
  destruct (get_random_employees_ok _ _ _ _ _ Hdeps H) as (rs & Hemps & Hheap & _ & _ & Hrs).
  assert (forall j e, employees !! j = Some e ->
            exists r, rs !! j = Some r /\ e = (length (heap w) + j)%nat /\
                      employee_at w' e = Some r) as Hlook.
  { intros j e He. rewrite Hemps in He. apply lookup_seq in He as [-> Hj].
    destruct (lookup_lt_is_Some_2 rs j Hj) as [r Hr]. exists r.
    split_and!; [done|done|]. by eapply employee_at_generated. }
  assert (forall j e r c, employees !! j = Some e -> employee_at w' e = Some r ->
            EmployeeObject.chief r = Some c ->
            (exists i, (i < j)%nat /\ employees !! i = Some c) /\ (c < e)%nat /\
            exists v, precedes (SetId c (Some v)) (New e) (trace w')) as Hchief.
  { intros j e r c He Hr Hc. destruct (Hlook j e He) as (r' & Hr' & -> & Hat).
    assert (r' = r) as -> by congruence.
    destruct (Hrs j r Hr') as (_ & v & dv & t1 & t2 & _ & _ & Htr & Hch).
    destruct (Hch c Hc) as (Hin & vc & Hvc).
    apply list_elem_of_lookup in Hin as [i Hi].
    apply lookup_take_Some in Hi as [Hi Hij].
    split; [by eauto|]. split.
    - rewrite Hemps in Hi. apply lookup_seq in Hi as [-> _]. lia.
    - exists vc. apply list_elem_of_split in Hvc as (a & b & ->).
      exists (trace w ++ a), b. eexists. rewrite Htr. unfold birth.
      rewrite <- !app_assoc. simpl. reflexivity. }
  split.
  - intros j e He. destruct (Hlook j e He) as (r & _ & _ & Hat). exists r.
    split; [done|]. intros c Hc.
    destruct (Hchief j e r c He Hat Hc) as (Hi & Hlt & Hpre).
    split_and!; [done|done|lia|done].
  - assert (forall e x, tc (chief_edge w') e x -> e ∈ employees ->
              x ∈ employees /\ (x < e)%nat) as Htc.
    { intros e x Htc. induction Htc as [e x (r & Hat & Hc)|e y x (r & Hat & Hc) _ IH];
        intros [j He]%list_elem_of_lookup.
      - destruct (Hchief j e r x He Hat Hc) as ((i & _ & Hi) & Hlt & _).
        split; [by eapply list_elem_of_lookup_2|done].
      - destruct (Hchief j e r y He Hat Hc) as ((i & _ & Hi) & Hlt & _).
        destruct IH as [Hx Hxy]; [by eapply list_elem_of_lookup_2|]. split; [done|lia]. }
    intros e He Hcycle. destruct (Htc e e Hcycle He) as [_ Hlt]. lia.
Qed.

Lemma chief_precedes_witness :
  let w := sample_staffed (fun n => Z.of_nat n) in
  let run := get_random_employees 3 [0%nat] w in
  Forall (allocated w) [0%nat] /\
  run = (Ok [1%nat; 2%nat; 3%nat], run.2) /\
  ((forall j e, [1%nat; 2%nat; 3%nat] !! j = Some e ->
      exists r, employee_at run.2 e = Some r /\
        forall c, EmployeeObject.chief r = Some c ->
          (exists i, (i < j)%nat /\ [1%nat; 2%nat; 3%nat] !! i = Some c) /\
          (c < e)%nat /\ c <> e /\
          exists v, precedes (SetId c (Some v)) (New e) (trace run.2)) /\
   (forall e, e ∈ [1%nat; 2%nat; 3%nat] -> ~ tc (chief_edge run.2) e e)).
Proof.
  intros w run.
  assert (Forall (allocated w) [0%nat]) as H1.
  { repeat constructor. vm_compute. eexists. reflexivity. }
  assert (run = (Ok [1%nat; 2%nat; 3%nat], run.2)) as H2.
  { vm_compute. reflexivity. }
  split; [exact H1|]. split; [exact H2|].
  exact (chief_precedes 3 [0%nat] w [1%nat; 2%nat; 3%nat] run.2 H1 H2).
Defined.

(** In a quiet world with both tables, a saved department and a name to be
    had, the generator asked for one employee returns one. *)
Lemma first_pass_succeeds w d dv dt et nm :
  quiet w -> allocated w d -> id_of w d = Some dv ->
  Sql.department (conn w) = Some dt -> Sql.has dt dv = true ->
  Sql.employee (conn w) = Some et ->
  Sql.identity et = Ok (Sql.next_identity et) ->
  (Faker.ask Faker.name (fake w)).1 = Ok nm ->
  exists w', employees_pass [d] [] w = (Ok (length (heap w)), w').
Proof.
  intros Hq Hd Hdv Hdt Hhas Het Hident Hnm. unfold employees_pass.
  rewrite (bind_run _ _ _ _ _ (randint_run 0 (len [d] - 1) _ ltac:(unfold len; simpl; lia))).
  replace (0 + _ mod (len [d] - 1 - 0 + 1)) with 0
    by (unfold len; simpl; by rewrite Z.mod_1_r).
  change (0 <? len []) with false. cbv iota. unfold bind at 1, ret.
  rewrite (bind_run _ _ _ _ _ (getitem_run [d] 0 d _ ltac:(lia) eq_refl)).
  change (-1 <? -1) with false. cbv iota. unfold bind at 1, ret.
  unfold bind at 1, fake_unique.
  destruct (Faker.ask Faker.name (fake (drawn w))) as [ans f'] eqn:Eask.
  change (fake (drawn w)) with (fake w) in Eask. rewrite Eask in Hnm. simpl in Hnm. subst ans.
  rewrite (bind_run _ _ _ _ _ (randint_run 20000 100001 _ ltac:(lia))).
  set (sal := 20000 + _ mod _). set (w3 := drawn _).
  destruct (Employee_init_run d nm sal w3 dv) as [w' Hw']; try done.
  - intros short Hshort. simpl. change (conn w3) with (conn w). rewrite Het.
    unfold Sql.check_employee. rewrite Hdt, Hhas. simpl.
    destruct (shorten_100 nm) as (short' & Hshort' & Hlen & _).
    assert (short' = short) as -> by congruence.
    unfold Sql.fits_name, Sql.fits_integer.
    pose proof (randint_range 20000 100001
                  (draws (random (with_fake f' (drawn w)))
                     (used (random (with_fake f' (drawn w))))) ltac:(lia)) as Hsal.
    fold sal in Hsal.
    destruct (length short <=? 100)%nat eqn:E1; [|apply Nat.leb_gt in E1; lia].
    destruct (-2147483648 <=? sal) eqn:E2; [|apply Z.leb_gt in E2; lia].
    destruct (sal <=? 2147483647) eqn:E3; [|apply Z.leb_gt in E3; lia].
    simpl. rewrite Hident. eauto.
  - exists w'. exact Hw'.
Qed.

Lemma first_employee_succeeds w d dv dt et nm :
  quiet w -> allocated w d -> id_of w d = Some dv ->
  Sql.department (conn w) = Some dt -> Sql.has dt dv = true ->
  Sql.employee (conn w) = Some et ->
  Sql.identity et = Ok (Sql.next_identity et) ->
  (Faker.ask Faker.name (fake w)).1 = Ok nm ->
  exists w', get_random_employees 1 [d] w = (Ok [length (heap w)], w').
Proof.
  intros Hq Hd Hdv Hdt Hhas Het Hident Hnm.
  destruct (first_pass_succeeds w d dv dt et nm) as [w' Hw']; try done.
  exists w'. unfold get_random_employees. change (len [d] <? 1) with false. cbv iota.
  change (Z.to_nat 1) with 1%nat. unfold employees_loop.
  by rewrite (bind_run _ _ _ _ _ Hw').
Qed.

(** C2: in a run of the employee generator that returns, the employee of
    the first pass has no chief; the employee of pass [j > 0] has the chief
    at index [chief_pos] of the employees generated so far, where
    [chief_pos] is [randint(-1, j - 1)] on a draw of its own, that is
    [-1 + _randbelow(j + 1)]: it lies in [-1, j - 1], the index [-1] stands
    for no chief and an index [i >= 0] for the [i]-th employee.  The
    employees are pairwise distinct, so each of the [j + 1] values of the
    uniform [_randbelow(j + 1)] gives another outcome: no chief weighs as
    much as any single earlier employee. *)
Theorem chief_choice (amount : Z) (departments : list addr) (w : world)
    (employees : list addr) (w' : world) :
  Forall (allocated w) departments ->
  get_random_employees amount departments w = (Ok employees, w') ->
  NoDup employees /\
  forall j e, employees !! j = Some e ->
    exists r, employee_at w' e = Some r /\
      match j with
      | O => EmployeeObject.chief r = None
      | S _ =>
          let chief_pos :=
            -1 + draws (random w) (used (random w) + 3 * j)%nat mod (Z.of_nat j + 1) in
          -1 <= chief_pos <= Z.of_nat j - 1 /\
          EmployeeObject.chief r
            = if decide (chief_pos = -1) then None else employees !! Z.to_nat chief_pos
      end.
Proof.
  intros Hdeps H.
  destruct (get_random_employees_ok _ _ _ _ _ Hdeps H) as (rs & Hemps & Hheap & _ & _ & Hrs).
  split; [rewrite Hemps; apply NoDup_seq|].
  intros j e He. rewrite Hemps in He. apply lookup_seq in He as [-> Hj].
  destruct (lookup_lt_is_Some_2 rs j Hj) as [r Hr]. exists r.
  split; [by eapply employee_at_generated|].
  destruct (Hrs j r Hr) as ((_ & Hfirst & Hlater & _) & _).
  destruct j as [|j]; [by apply Hfirst|]. specialize (Hlater ltac:(done)).
  set (k := draws (random w) (used (random w) + 3 * S j)%nat mod (Z.of_nat (S j) + 1)) in *.
  pose proof (Z.mod_pos_bound (draws (random w) (used (random w) + 3 * S j)%nat)
                (Z.of_nat (S j) + 1) ltac:(lia)) as Hk. fold k in Hk.
  cbv zeta. split; [lia|]. destruct (decide (-1 + k = -1)) as [Hz|Hz].
  - replace k with 0 in Hlater by lia. simpl in Hlater. congruence.
  - replace (Z.to_nat k) with (S (Z.to_nat (-1 + k))) in Hlater by lia.
    unfold chief_choices in Hlater. simpl in Hlater.
    rewrite list_lookup_fmap in Hlater.
    destruct (take (S j) employees !! Z.to_nat (-1 + k)) as [c|] eqn:Ec; [|done].
    apply lookup_take_Some in Ec as [Ec _]. simpl in Hlater. congruence.
Qed.

Lemma chief_choice_witness :
  let w := sample_staffed (fun n => Z.of_nat n) in
  let run := get_random_employees 3 [0%nat] w in
  Forall (allocated w) [0%nat] /\
  run = (Ok [1%nat; 2%nat; 3%nat], run.2) /\
  (NoDup [1%nat; 2%nat; 3%nat] /\
   forall j e, [1%nat; 2%nat; 3%nat] !! j = Some e ->
     exists r, employee_at run.2 e = Some r /\
       match j with
       | O => EmployeeObject.chief r = None
       | S _ =>
           let chief_pos :=
             -1 + draws (random w) (used (random w) + 3 * j)%nat mod (Z.of_nat j + 1) in
           -1 <= chief_pos <= Z.of_nat j - 1 /\
           EmployeeObject.chief r
             = if decide (chief_pos = -1) then None
               else [1%nat; 2%nat; 3%nat] !! Z.to_nat chief_pos
       end).
Proof.
  intros w run.
  assert (Forall (allocated w) [0%nat]) as H1.
  { repeat constructor. vm_compute. eexists. reflexivity. }
  assert (run = (Ok [1%nat; 2%nat; 3%nat], run.2)) as H2.
  { vm_compute. reflexivity. }
  split; [exact H1|]. split; [exact H2|].
  exact (chief_choice 3 [0%nat] w [1%nat; 2%nat; 3%nat] run.2 H1 H2).
Defined.

(** C3, as the code has it: the salary of every generated employee lies in
    the inclusive range [20000, 100001], and every value of that range,
    100001 included, is the salary of the employee of some run. *)
Theorem salary_range :
  (forall amount departments w employees w',
     Forall (allocated w) departments ->
     get_random_employees amount departments w = (Ok employees, w') ->
     forall e, e ∈ employees ->
       exists r, employee_at w' e = Some r /\
                 20000 <= EmployeeObject.salary r <= 100001) /\
  (forall s, 20000 <= s <= 100001 ->
     exists w departments e w' r,
       Forall (allocated w) departments /\
       get_random_employees 1 departments w = (Ok [e], w') /\
       employee_at w' e = Some r /\ EmployeeObject.salary r = s).
Proof.
  assert (forall amount departments w employees w',
     Forall (allocated w) departments ->
     get_random_employees amount departments w = (Ok employees, w') ->
     forall j e, employees !! j = Some e ->
       exists r, employee_at w' e = Some r /\
         EmployeeObject.salary r
           = 20000 + draws (random w) (used (random w) + salary_draw j)%nat mod 80002)
    as Hsal.
  { intros amount deps w emps w' Hdeps H j e He.
    destruct (get_random_employees_ok _ _ _ _ _ Hdeps H) as (rs & Hemps & Hheap & _ & _ & Hrs).
    rewrite Hemps in He. apply lookup_seq in He as [-> Hj].
    destruct (lookup_lt_is_Some_2 rs j Hj) as [r Hr]. exists r.
    split; [by eapply employee_at_generated|].
    by destruct (Hrs j r Hr) as ((_ & _ & _ & Hs) & _). }
  split.
  - intros amount deps w emps w' Hdeps H e [j He]%list_elem_of_lookup.
    destruct (Hsal _ _ _ _ _ Hdeps H j e He) as (r & Hat & Hr). exists r.
    split; [done|]. rewrite Hr. apply (randint_range 20000 100001). lia.
  - intros s Hs.
    set (w := with_random {| draws := fun _ => s - 20000; used := O |}
                (sample_staffed (fun _ => 0))).
    assert (Forall (allocated w) [0%nat]) as Hdeps.
    { repeat constructor. vm_compute. eexists. reflexivity. }
    destruct (first_employee_succeeds w 0%nat 1
                (Sql.add (str "Synergistic web-enabled matrix I") Sql.empty)
                Sql.empty (str "Grace  Hopper II")) as [w' Hw'].
    + intros k. reflexivity.
    + by inversion Hdeps.
    + reflexivity.
    + reflexivity.
    + reflexivity.
    + reflexivity.
    + reflexivity.
    + reflexivity.
    + destruct (Hsal _ _ _ _ _ Hdeps Hw' O _ eq_refl) as (r & Hat & Hr).
      exists w, [0%nat], (length (heap w)), w', r. split_and!; [done|done|done|].
      rewrite Hr. simpl. rewrite Z.mod_small by lia. lia.
Qed.

(** C3, against the claim as stated: a run whose employee earns 100001. *)
Lemma salary_100001 :
  let run := get_random_employees 1 [0%nat] (sample_staffed (fun _ => 80001)) in
  run.1 = Ok [1%nat] /\
  exists r, employee_at run.2 1%nat = Some r /\
            EmployeeObject.salary r = 100001 /\
            ~ (20000 <= EmployeeObject.salary r <= 100000).
Proof.
  split; [vm_compute; reflexivity|]. eexists. split; [vm_compute; reflexivity|].
  simpl. split; [reflexivity|lia].
Qed.

Lemma get_id_inv a w res w' : get_id a w = (res, w') -> w' = w.
Proof.
  unfold get_id, bind, deref. destruct (heap w !! a) as [[d|r]|]; by intros [= <- <-].
Qed.

Lemma chief_id_inv r w res w' : Employee.chief_id r w = (res, w') -> w' = w.
Proof.
  unfold Employee.chief_id. destruct (EmployeeObject.chief r); [apply get_id_inv|].
  by intros [= <- <-].
Qed.

(** Whatever becomes of the first [save] of an employee, it changes at
    most the [id] of the employee. *)
Lemma Employee_save_heap w self r res w' :
  employee_at w self = Some r -> EmployeeObject.id r = None ->
  Employee.save self w = (res, w') ->
  exists idv, heap w' = <[self := with_id idv (employee_object r)]> (heap w).
Proof.
  intros Hat Hid H. unfold Employee.save in H.
  rewrite (bind_run _ _ _ _ _ (Employee_attributes_run _ _ _ Hat)), Hid in H.
  apply employee_at_heap in Hat.
  assert (heap w = <[self := with_id None (employee_object r)]> (heap w)) as Hsame.
  { symmetry. apply list_insert_id. destruct r; simpl in *; by subst. }
  rewrite bind_assoc in H.
  apply bind_inv in H as [(dep & w1 & H1 & H)|(e & H1 & _)]; cycle 1.
  { apply get_id_inv in H1 as ->. by exists None. }
  apply get_id_inv in H1 as ->. rewrite bind_assoc in H.
  apply bind_inv in H as [(chf & w1 & H1 & H)|(e & H1 & _)]; cycle 1.
  { apply chief_id_inv in H1 as ->. by exists None. }
  apply chief_id_inv in H1 as ->.
  eapply insert_and_commit in H; [|exact Hat|].
  2:{ intros db (tbl & dv & _ & _ & -> & _)%run_insert_employee. done. }
  destruct H as (_ & t & v & _ & _ & [Hheap|Hheap] & _).
  - exists None. by rewrite Hheap.
  - by exists (Some v).
Qed.

Lemma name_of_new w w' o idv :
  heap w' = <[length (heap w) := with_id idv o]> (heap w ++ [o]) ->
  name_of w' (length (heap w))
  = match o with
    | department_object d => Some (DepartmentObject.name d)
    | employee_object r => Some (EmployeeObject.name r)
    end.
Proof.
  intros H. unfold name_of. rewrite H, insert_at_end, list_lookup_middle by done.
  by destruct o.
Qed.

(** C4, as the code has it: the name an entity stores has at most 100
    characters and is a prefix of the given name with its whitespace
    collapsed, so nothing is appended to it; a name of 100 characters or
    fewer is stored in its whitespace-collapsed form: without leading and
    trailing whitespace and with a single space for every inner run of
    whitespace. *)
Theorem name_truncation (name : text) (w : world) (department : addr)
    (chief : option addr) (salary : Z) :
  exists stored,
    name_of (Department.__init__ name w).2 (length (heap w)) = Some stored /\
    name_of (Employee.__init__ department chief name salary w).2 (length (heap w))
      = Some stored /\
    (length stored <= 100)%nat /\
    stored `prefix_of` collapse name /\
    ((length name <= 100)%nat -> stored = collapse name).
Proof.
  destruct (shorten_100 name) as (short & Hshort & Hlen & Hpre & Hfit).
  exists short. split_and!; [| |done|done|].
  - destruct (Department.__init__ name w) as [res w'] eqn:H.
    apply Department_init_inv in H
      as (short' & t & v & idv & Hshort' & _ & _ & _ & Hheap & _).
    assert (short' = short) as -> by congruence.
    simpl. unfold name_of. by rewrite Hheap, list_lookup_middle.
  - destruct (Employee.__init__ department chief name salary w) as [res w'] eqn:H.
    unfold Employee.__init__ in H. rewrite Hshort in H.
    unfold bind at 1, lift in H. unfold bind at 1, new in H.
    apply bind_ret_inv in H as (res0 & H & _). simpl.
    set (r := EmployeeObject.Build_t _ _ _ _ _) in H.
    assert (employee_at (record (New (length (heap w)))
                           (with_heap (heap w ++ [employee_object r]) w))
              (length (heap w)) = Some r) as Hat.
    { unfold employee_at. simpl. by rewrite list_lookup_middle. }
    destruct (Employee_save_heap _ _ _ _ _ Hat eq_refl H) as [idv Hheap].
    simpl in Hheap. by rewrite (name_of_new _ _ _ _ Hheap).
  - intros Hn. apply Hfit. pose proof (collapse_length name). lia.
Qed.

(** C4, against the claim as stated: a name of four characters that is not
    stored unchanged. *)
Lemma name_not_kept :
  let name := str "a  b" in
  let w := sample_ready (fun _ => 0) in
  (length name <= 100)%nat /\
  name_of (Department.__init__ name w).2 (length (heap w)) = Some (str "a b") /\
  name_of (Department.__init__ name w).2 (length (heap w)) <> Some name.
Proof.
  split; [simpl; lia|]. split; [vm_compute; reflexivity|].
  vm_compute. discriminate.
Qed.


Lemma id_of_at_department w self d :
  department_at w self = Some d -> id_of w self = DepartmentObject.id d.
Proof. intros H%department_at_heap. unfold id_of. by rewrite H. Qed.

Lemma id_of_at_employee w self r :
  employee_at w self = Some r -> id_of w self = EmployeeObject.id r.
Proof. intros H%employee_at_heap. unfold id_of. by rewrite H. Qed.



(* ===================================================================== *)
(** ** Resetting the schema *)
(* ===================================================================== *)

(** Creating or dropping a table: the statement and the commit, each
    attempted once. *)
Lemma ddl_inv s w res w' :
  (cursor_execute s ;; conn_commit) w = (res, w') ->
  exists t, trace w' = trace w ++ t /\ follows (ddl_plan s) res t.
Proof.
  intros (_ & _ & t & Ht & Hfol & _)%update_and_commit. by exists t.
Qed.

(** Dropping a table under [try ... except Exception]: nothing is raised,
    a failure is logged. *)
Lemma guarded_drop_inv s w res w' :
  try_except (cursor_execute s ;; conn_commit) logging_warning w = (res, w') ->
  res = Ok tt /\ exists t, trace w' = trace w ++ t /\ drop_events s t.
Proof.
  unfold try_except.
  destruct ((cursor_execute s ;; conn_commit) w) as [[[]|e] w1] eqn:H;
    apply ddl_inv in H as (t & Ht & Hfol).
  - intros [= <- <-]. split; [done|]. exists t. split; [done|]. by left.
  - unfold logging_warning. intros [= <- <-]. split; [done|].
    exists (t ++ [Warning e]). simpl. rewrite Ht, <- app_assoc.
    split; [done|]. right. by exists e, t.
Qed.

Lemma follows_more {A B : Type} plan plan' e t :
  @follows A plan (Raise e) t -> @follows B (plan ++ plan') (Raise e) t.
Proof.
  intros (before & c & after & -> & ->). exists before, c, (after ++ plan').
  by rewrite <- app_assoc.
Qed.

Lemma follows_next {A : Type} plan plan' (res : result A) t :
  follows plan' res t -> follows (plan ++ plan') res (plan ++ t).
Proof.
  destruct res as [a|e]; simpl; [by intros ->|].
  intros (before & c & after & -> & ->). exists (plan ++ before), c, after.
  by rewrite <- !app_assoc.
Qed.

(** C8: [create_tables] attempts the drop of the employee table, then the
    drop of the department table; a drop that fails, at its statement or
    at its commit, is logged as a warning with the exception it raised and
    is not propagated; then the two tables are created, the department
    table first.  The result of [create_tables], and of a [save], is the
    result of going once through the planned calls: every call is
    attempted at most once and in order, and when one of them raises, no
    later call is attempted and the exception of that call is the
    exception the caller gets. *)
Theorem failures_surface :
  (forall w,
     exists tE tD tC,
       trace (create_tables w).2 = trace w ++ tE ++ tD ++ tC /\
       drop_events DROP_TABLE_employee tE /\
       drop_events DROP_TABLE_department tD /\
       follows (ddl_plan CREATE_TABLE_department ++ ddl_plan CREATE_TABLE_employee)
               (create_tables w).1 tC) /\
  (forall w self d,
     department_at w self = Some d ->
     exists t v,
       trace (Department.save self w).2 = trace w ++ t /\
       follows (department_plan self d v) (Department.save self w).1 t) /\
  (forall w self r,
     employee_at w self = Some r ->
     allocated w (EmployeeObject.department r) ->
     (forall c, EmployeeObject.chief r = Some c -> allocated w c) ->
     exists t v,
       trace (Employee.save self w).2 = trace w ++ t /\
       follows (employee_plan w self r v) (Employee.save self w).1 t).
Proof.
  split_and!.
  - intros w. destruct (create_tables w) as [res w'] eqn:H. cbn [fst snd].
    unfold create_tables in H.
    apply bind_inv in H as [(u1 & w1 & H1 & H)|(e & H1 & _)]; cycle 1.
    { by apply guarded_drop_inv in H1 as [? _]. }
    apply guarded_drop_inv in H1 as (_ & tE & HtE & HE).
    apply bind_inv in H as [(u2 & w2 & H2 & H)|(e & H2 & _)]; cycle 1.
    { by apply guarded_drop_inv in H2 as [? _]. }
    apply guarded_drop_inv in H2 as (_ & tD & HtD & HD).
    exists tE, tD.
    apply bind_inv in H as [(u3 & w3 & H3 & H)|(e & H3 & ->)].
    + apply ddl_inv in H3 as (t3 & Ht3 & Hf3). simpl in Hf3. subst t3.
      apply ddl_inv in H as (t4 & Ht4 & Hf4).
      exists (ddl_plan CREATE_TABLE_department ++ t4).
      split_and!; [|done|done|by apply follows_next].
      rewrite Ht4, Ht3, HtD, HtE. by rewrite <- !app_assoc.
    + apply ddl_inv in H3 as (t3 & Ht3 & Hf3). exists t3.
      split_and!; [|done|done|by eapply follows_more].
      rewrite Ht3, HtD, HtE. by rewrite <- !app_assoc.
  - intros w self d Hat. destruct (Department.save self w) as [res w'] eqn:H. cbn [fst snd].
    unfold department_plan. destruct (DepartmentObject.id d) as [i|] eqn:Hid.
    + destruct (Department_save_update _ _ _ _ _ _ Hat Hid H) as (_ & _ & t & Ht & Hfol & _).
      by exists t, 0.
    + destruct (Department_save_insert _ _ _ _ _ Hat Hid H) as (_ & t & v & _ & Ht & Hfol & _).
      by exists t, v.
  - intros w self r Hat Hdep Hchf. destruct (Employee.save self w) as [res w'] eqn:H. cbn [fst snd].
    unfold employee_plan. destruct (EmployeeObject.id r) as [i|] eqn:Hid.
    + destruct (Employee_save_update _ _ _ _ _ _ Hat Hid Hdep Hchf H)
        as (_ & _ & t & Ht & Hfol & _).
      by exists t, 0.
    + destruct (Employee_save_insert _ _ _ _ _ Hat Hid Hdep Hchf H)
        as (_ & t & v & _ & Ht & Hfol & _).
      by exists t, v.
Qed.

(** A first run on a new database: both drops fail and are logged, both
    tables are created.  And a run that loses the connection after the
    drops: the first [CREATE TABLE] raises, and [create_tables] with it. *)
Lemma failures_surface_witness :
  let w := sample_boot (fun _ => 0) in
  let lost := sample_lossy 4 (fun _ => 0) in
  (create_tables w).1 = Ok tt /\
  (create_tables lost).1 = Raise (pyodbc_Error "08S01") /\
  statements (trace (create_tables lost).2)
    = [DROP_TABLE_employee; DROP_TABLE_department; CREATE_TABLE_department] /\
  exists tE tD tC,
    trace (create_tables lost).2 = trace lost ++ tE ++ tD ++ tC /\
    drop_events DROP_TABLE_employee tE /\
    drop_events DROP_TABLE_department tD /\
    follows (ddl_plan CREATE_TABLE_department ++ ddl_plan CREATE_TABLE_employee)
            (create_tables lost).1 tC.
Proof.
  intros w lost. split; [vm_compute; reflexivity|]. split; [vm_compute; reflexivity|].
  split; [vm_compute; reflexivity|]. exact (proj1 failures_surface lost).
Defined.

Lemma department_at_generated w w' (ds : list DepartmentObject.t) (j : nat) dd :
  heap w' = heap w ++ (department_object <$> ds) -> ds !! j = Some dd ->
  department_at w' (length (heap w) + j)%nat = Some dd.
Proof.
  intros Hh Hd. unfold department_at. rewrite Hh, lookup_app_r by lia.
  replace (length (heap w) + j - length (heap w))%nat with j by lia.
  by rewrite list_lookup_fmap, Hd.
Qed.

(** C6: in a run of [create_fake_data] that returns, the department of
    every generated employee is one of the generated departments; that
    department got its identity, which is not null, before the employee
    was constructed, and the insert that the [save] of the employee
    executed, right after its construction, carries that identity as
    [department_id]. *)
Theorem department_saved_first (departments_amount employees_amount : Z) (w : world)
    (departments employees : list addr) (w' : world) :
  create_fake_data departments_amount employees_amount w
    = (Ok (departments, employees), w') ->
  forall e, e ∈ employees ->
    exists r dv,
      employee_at w' e = Some r /\
      EmployeeObject.department r ∈ departments /\
      id_of w' (EmployeeObject.department r) = Some dv /\
      exists t1 t2 v,
        trace w' = t1
                   ++ birth e (INSERT_INTO_employee (Some dv) (chief_key w' r)
                                 (EmployeeObject.name r) (EmployeeObject.salary r)) v
                   ++ t2 /\
        SetId (EmployeeObject.department r) (Some dv) ∈ t1.
Proof.
  intros H e He. unfold create_fake_data in H.
  apply bind_ok in H as (deps & w1 & Hdeps & H).
  apply bind_ok in H as (emps & w2 & Hemps & H).
  injection H as <- <- ->.
  apply departments_loop_ok in Hdeps
    as (ds & Hlen & Hdeps & Hheap1 & _ & t & Ht & Hds). simpl in Hdeps.
  assert (Forall (allocated w1) deps) as Halloc.
  { rewrite Forall_forall. intros a Ha. rewrite Hdeps in Ha.
    apply elem_of_seq in Ha as [Ha1 Ha2].
    destruct (lookup_lt_is_Some_2 ds (a - length (heap w))%nat ltac:(lia)) as [dd Hdd].
    exists (department_object dd).
    apply department_at_generated with (w := w) (w' := w1) in Hdd; [|done].
    replace (length (heap w) + (a - length (heap w)))%nat with a in Hdd by lia.
    by apply department_at_heap. }
  destruct (get_random_employees_ok _ _ _ _ _ Halloc Hemps)
    as (rs & Hemps' & Hheap2 & _ & _ & Hrs).
  rewrite Hemps' in He. apply elem_of_seq in He as [He1 He2].
  destruct (lookup_lt_is_Some_2 rs (e - length (heap w1))%nat ltac:(lia)) as [r Hr].
  destruct (Hrs _ r Hr) as ((Hdep & _) & v & dv & t1 & t2 & _ & Hdv & Htr & _).
  replace (length (heap w1) + (e - length (heap w1)))%nat with e in Htr by lia.
  apply list_elem_of_lookup_2 in Hdep as Hin.
  assert (allocated w1 (EmployeeObject.department r)) as Hralloc.
  { rewrite Forall_forall in Halloc. by apply Halloc. }
  exists r, dv. split_and!.
  - apply employee_at_generated with (w := w1) (w' := w') in Hr; [|done].
    by replace (length (heap w1) + (e - length (heap w1)))%nat with e in Hr by lia.
  - done.
  - by rewrite (id_of_mono w1 w' _ _ Hheap2 Hralloc).
  - exists (trace w1 ++ t1), t2, v. split; [by rewrite Htr, <- !app_assoc|].
    apply elem_of_app. left. rewrite Ht. apply elem_of_app. right.
    rewrite Hdeps in Hin. apply elem_of_seq in Hin as [Hi1 Hi2].
    destruct (lookup_lt_is_Some_2 ds (EmployeeObject.department r - length (heap w))%nat
                ltac:(lia)) as [dd Hdd].
    destruct (Hds _ dd Hdd) as ((dv' & Hid & Hset) & _).
    replace (length (heap w) + (EmployeeObject.department r - length (heap w)))%nat
      with (EmployeeObject.department r) in Hset by lia.
    apply department_at_generated with (w := w) (w' := w1) in Hdd; [|done].
    replace (length (heap w) + (EmployeeObject.department r - length (heap w)))%nat
      with (EmployeeObject.department r) in Hdd by lia.
    rewrite (id_of_at_department _ _ _ Hdd), Hid in Hdv. by injection Hdv as <-.
Qed.

Lemma department_saved_first_witness :
  let w := sample_ready (fun n => Z.of_nat n) in
  let run := create_fake_data 2 3 w in
  run = (Ok ([0%nat; 1%nat], [2%nat; 3%nat; 4%nat]), run.2) /\
  forall e, e ∈ [2%nat; 3%nat; 4%nat] ->
    exists r dv,
      employee_at run.2 e = Some r /\
      EmployeeObject.department r ∈ [0%nat; 1%nat] /\
      id_of run.2 (EmployeeObject.department r) = Some dv /\
      exists t1 t2 v,
        trace run.2 = t1
                      ++ birth e (INSERT_INTO_employee (Some dv) (chief_key run.2 r)
                                    (EmployeeObject.name r) (EmployeeObject.salary r)) v
                      ++ t2 /\
        SetId (EmployeeObject.department r) (Some dv) ∈ t1.
Proof.
  intros w run.
  assert (run = (Ok ([0%nat; 1%nat], [2%nat; 3%nat; 4%nat]), run.2)) as H.
  { vm_compute. reflexivity. }
  split; [exact H|].
  exact (department_saved_first 2 3 w [0%nat; 1%nat] [2%nat; 3%nat; 4%nat] run.2 H).
Defined.

(* ===================================================================== *)
(** ** The names of a run *)
(* ===================================================================== *)

Lemma departments_allocated w w' (ds : list DepartmentObject.t) :
  heap w' = heap w ++ (department_object <$> ds) ->
  Forall (allocated w') (seq (length (heap w)) (length ds)).
Proof.
  intros Hh. rewrite Forall_forall. intros a [Ha1 Ha2]%elem_of_seq.
  destruct (lookup_lt_is_Some_2 ds (a - length (heap w))%nat ltac:(lia)) as [dd Hdd].
  exists (department_object dd).
  apply department_at_generated with (w := w) (w' := w') in Hdd; [|done].
  replace (length (heap w) + (a - length (heap w)))%nat with a in Hdd by lia.
  by apply department_at_heap.
Qed.

(** Whatever becomes of [create_fake_data], what it has asked the
    fake-data generator is a prefix of the requests of a complete run,
    and all of them when it returns. *)
Lemma create_fake_data_told d e w res w' :
  create_fake_data d e w = (res, w') ->
  exists ps,
    ps `prefix_of` requests d e /\ told (fake w) (fake w') ps /\
    (forall x, res = Ok x -> ps = requests d e).
Proof.
  intros H. unfold create_fake_data in H.
  apply bind_inv in H as [(deps & w1 & Hdeps & H)|(ex & Hdeps & ->)]; cycle 1.
  { apply departments_loop_told in Hdeps as (m & Hm & Htold & _).
    exists (repeat Faker.catch_phrase m). split_and!; [|done|done].
    unfold requests. apply prefix_app_r, repeat_prefix. done. }
  apply departments_loop_told in Hdeps as Htold. destruct Htold as (m & _ & Htold & Hm).
  specialize (Hm deps eq_refl). subst m.
  apply departments_loop_ok in Hdeps as (ds & Hlen & Hdeps & Hheap & _). simpl in Hdeps.
  assert (Forall (allocated w1) deps) as Halloc.
  { rewrite Hdeps, <- Hlen. by eapply departments_allocated. }
  assert (exists res_e, get_random_employees e deps w1 = (res_e, w') /\
                        (forall x, res = Ok x -> exists emps, res_e = Ok emps)) as (res_e & He & Hres).
  { apply bind_inv in H as [(emps & w2 & He & H)|(ex & He & ->)].
    - injection H as <- <-. eauto.
    - eexists. split; [done|]. done. }
  unfold get_random_employees in He. unfold requests.
  destruct (len deps <? 1) eqn:E.
  - injection He as <- <-. apply Z.ltb_lt in E.
    assert (Z.to_nat d = O) as Hz.
    { rewrite Hdeps in E. unfold len in E. rewrite length_seq in E. lia. }
    rewrite Hz in *. exists []. simpl. split_and!; [done|done|done].
  - apply Z.ltb_ge in E.
    assert (deps <> []) as Hne by (intros ->; unfold len in E; simpl in E; lia).
    apply employees_loop_told in He as (m & Hm & Htold' & Hok); [|done|done|done].
    exists (repeat Faker.catch_phrase (Z.to_nat d) ++ repeat Faker.name m).
    assert (exists k, Z.to_nat d = S k) as [k Hk].
    { rewrite Hdeps in E. unfold len in E. rewrite length_seq in E.
      destruct (Z.to_nat d); [lia|eauto]. }
    rewrite Hk in *. split_and!.
    + apply prefix_app, repeat_prefix. done.
    + by eapply told_app.
    + intros x Hx. destruct (Hres x Hx) as [emps ->]. by rewrite (Hok emps eq_refl).
Qed.

Lemma names_from_history (w' : world) (H : list (Faker.provider * result text))
    (base h0 n : nat) :
  (forall j, (j < n)%nat ->
     exists p name short,
       H !! (h0 + j)%nat = Some (p, Ok name) /\
       textwrap.shorten name 100 (str "") = Ok short /\
       name_of w' (base + j)%nat = Some short) ->
  name_of w' <$> seq base n = shortened <$> take n (drop h0 H).
Proof.
  intros Hn. apply list_eq. intros j. rewrite !list_lookup_fmap.
  destruct (decide (j < n)%nat) as [Hj|Hj].
  - rewrite lookup_seq_lt, lookup_take_lt, lookup_drop by done.
    destruct (Hn j Hj) as (p & nm & short & Hl & Hs & Hnm). rewrite Hl.
    cbn [fmap option_fmap option_map]. unfold shortened. cbn [snd].
    by rewrite Hs, Hnm.
  - rewrite lookup_seq_ge, lookup_take_ge by lia. done.
Qed.

(** A run of [create_fake_data] that returns: the names the entities
    store are the shortened answers of the fake-data generator, in
    order. *)
Lemma create_fake_data_names d e w deps emps w' :
  create_fake_data d e w = (Ok (deps, emps), w') ->
  length deps = Z.to_nat d /\
  length emps = match Z.to_nat d with O => O | S _ => Z.to_nat e end /\
  name_of w' <$> deps
    = shortened <$> take (length deps)
                      (drop (length (Faker.history (fake w))) (Faker.history (fake w'))) /\
  name_of w' <$> emps
    = shortened <$> take (length emps)
                      (drop (length (Faker.history (fake w)) + length deps)
                            (Faker.history (fake w'))).
Proof.
  intros H. unfold create_fake_data in H.
  apply bind_ok in H as (deps' & w1 & Hdeps & H).
  apply bind_ok in H as (emps' & w2 & Hemps & H). injection H as -> -> ->.
  apply departments_loop_told in Hdeps as Htold. destruct Htold as (m & _ & [_ Hh1] & Hm).
  specialize (Hm deps eq_refl). subst m.
  apply departments_loop_ok in Hdeps as (ds & Hlen & Hdeps & Hheap & Hpre1 & t & _ & Hds).
  simpl in Hdeps.
  assert (Forall (allocated w1) deps) as Halloc.
  { rewrite Hdeps, <- Hlen. by eapply departments_allocated. }
  assert (length deps = Z.to_nat d) as Hld by (by rewrite Hdeps, length_seq).
  assert (length (Faker.history (fake w1))
          = (length (Faker.history (fake w)) + length deps)%nat) as Hh1len.
  { rewrite Hh1, length_app. f_equal.
    rewrite <- (length_fmap fst), answers_fst, repeat_length. lia. }
  assert (Faker.history (fake w1) `prefix_of` Faker.history (fake w') /\
          (exists h, heap w' = heap w1 ++ h) /\
          length emps = match Z.to_nat d with O => O | S _ => Z.to_nat e end /\
          name_of w' <$> emps
          = shortened <$> take (length emps)
                            (drop (length (Faker.history (fake w1)))
                                  (Faker.history (fake w')))) as (Hpre2 & [h Hh] & Hle & Hnames).
  { unfold get_random_employees in Hemps. destruct (len deps <? 1) eqn:E.
    - injection Hemps as <- <-. apply Z.ltb_lt in E.
      assert (Z.to_nat d = O) as -> by (unfold len in E; lia).
      split_and!; [done|by exists []; rewrite app_nil_r|done|done].
    - apply Z.ltb_ge in E.
      assert (deps <> []) as Hne by (intros Hnil; rewrite Hnil in E; unfold len in E; simpl in E; lia).
      apply employees_loop_names in Hemps as Hn; [|done|done|done].
      destruct Hn as (Hpre2 & Hh & Hn).
      apply (employees_loop_ok _ _ _ _ _ _ (used (random w1))) in Hemps;
        [|done|done|done|simpl; lia].
      destruct Hemps as (rs & Hlrs & -> & _). simpl.
      assert (exists k, Z.to_nat d = S k) as [k Hk].
      { unfold len in E. destruct (Z.to_nat d); [lia|eauto]. }
      rewrite Hk, length_seq. split_and!; [done|done|done|].
      apply names_from_history. intros j Hj.
      destruct (Hn j Hj) as (nm & short & ? & ? & ?). by exists Faker.name, nm, short. }
  split_and!; [done|done| |by rewrite <- Hh1len].
  rewrite Hdeps, length_seq. apply names_from_history. intros j Hj.
  destruct (lookup_lt_is_Some_2 ds j ltac:(lia)) as [dd Hdd].
  destruct (Hds j dd Hdd) as (_ & phrase & Hlook & Hsh).
  exists Faker.catch_phrase, phrase, (DepartmentObject.name dd). split_and!; [|done|].
  - by eapply prefix_lookup_Some.
  - apply department_at_generated with (w := w) (w' := w1) in Hdd as Hat; [|done].
    rewrite (name_of_mono w1 w' h) by (done || by eexists; apply department_at_heap).
    unfold name_of. by rewrite (department_at_heap _ _ _ Hat).
Qed.

(* ===================================================================== *)
(** ** The shape of the line that [shorten] returns *)
(* ===================================================================== *)

Lemma hyphen_not_whitespace c :
  textwrap.is_hyphen c = true -> textwrap.is_whitespace c = false.
Proof.
  destruct c as [b0 b1 b2 b3 b4 b5 b6 b7].
  destruct b0, b1, b2, b3, b4, b5, b6, b7; vm_compute; congruence.
Qed.

(** Every chunk of [wordsep_re] is a run of whitespace or has no
    whitespace in it. *)
Lemma split_from_pure rest : forall k before cur,
  match k with
  | None => cur = []
  | Some textwrap.in_space =>
      forallb textwrap.is_whitespace cur = true /\
      textwrap.nth_is textwrap.is_whitespace 0 rest = true
  | Some _ =>
      forallb (fun x => negb (textwrap.is_whitespace x)) cur = true /\
      textwrap.nth_is (fun x => negb (textwrap.is_whitespace x)) 0 rest = true
  end ->
  Forall (fun chunk => forallb textwrap.is_whitespace chunk = true \/
                       forallb (fun x => negb (textwrap.is_whitespace x)) chunk = true)
         (textwrap.split_from k before cur rest).
Proof.
  induction rest as [|c rest IH]; intros k before cur Hinv.
  - simpl. destruct cur as [|x cur]; [constructor|]. constructor; [|constructor].
    rewrite !forallb_rev. destruct k as [[]|]; [left|right|right|done]; apply Hinv.
  - cbn [textwrap.split_from].
    set (k' := match k with Some k0 => k0 | None => textwrap.kind_at before (c :: rest) end).
    (* the class of [c :: cur] is the one of [k'] *)
    assert (match k' with
            | textwrap.in_space => forallb textwrap.is_whitespace (c :: cur) = true
            | _ => forallb (fun x => negb (textwrap.is_whitespace x)) (c :: cur) = true
            end) as Hclass.
    { destruct k as [k0|]; unfold k'.
      - destruct k0; destruct Hinv as [Hcur Hc]; unfold textwrap.nth_is in Hc;
          simpl in Hc; simpl; by rewrite Hc, Hcur.
      - subst cur. unfold textwrap.kind_at.
        destruct (textwrap.is_whitespace c) eqn:Ec; [by simpl; rewrite Ec|].
        destruct (_ && _); simpl; by rewrite Ec. }
    destruct (textwrap.chunk_ends k' (S (length cur)) (c :: before) rest) eqn:Eend.
    + constructor; [|by apply IH].
      rewrite !forallb_rev.
      destruct k'; [left|right|right]; exact Hclass.
    + apply IH. destruct k'; (split; [exact Hclass|]).
      * simpl in Eend. by apply negb_false_iff in Eend.
      * simpl in Eend. apply negb_false_iff in Eend. unfold textwrap.nth_is in *.
        destruct (rest !! 0%nat) as [x|]; [|done]. by rewrite (hyphen_not_whitespace x).
      * simpl in Eend. apply orb_false_iff in Eend as [Eend _].
        apply orb_false_iff in Eend as [_ Eend]. unfold textwrap.nth_is.
        destruct rest as [|x rest']; [done|]. simpl. by rewrite Eend.
Qed.

(** The chunks of a collapsed text: none is empty, and each one is a run
    of spaces or free of whitespace. *)
Lemma chunks_pure s :
  clean s -> Forall (fun chunk => chunk <> [] /\ pure chunk) (textwrap._split s).
Proof.
  intros Hs. pose proof (split_concat s) as Hcat.
  pose proof (split_nonempty s) as Hne.
  pose proof (split_from_pure s None [] [] eq_refl) as Hp. fold (textwrap._split s) in Hp.
  rewrite Forall_forall in Hne, Hp. rewrite Forall_forall. intros chunk Hin.
  split; [by apply Hne|].
  destruct (Hp chunk Hin) as [Hw|Hw].
  - left. rewrite blank_forallb. rewrite forallb_forall in Hw. rewrite forallb_forall.
    intros x Hx. by apply whitespace_isspace, Hw.
  - right. unfold solid. rewrite forallb_forall in Hw. rewrite forallb_forall.
    intros x Hx. destruct (Str.isspace x) eqn:Ex; [|done]. exfalso.
    assert (x ∈ s) as Hxs.
    { rewrite <- Hcat. apply list_elem_of_In, in_concat. exists chunk.
      split; [by apply list_elem_of_In|done]. }
    unfold clean in Hs. rewrite Forall_forall in Hs. pose proof (Hs x Hxs Ex) as ->.
    by specialize (Hw _ Hx).
Qed.

Lemma pure_take e chunk : pure chunk -> pure (take e chunk).
Proof.
  intros [H|H]; [left|right].
  - rewrite blank_forallb in *. rewrite forallb_forall in H. rewrite forallb_forall.
    intros x Hx. apply H. apply list_elem_of_In in Hx. apply list_elem_of_In.
    rewrite <- (take_drop e chunk). apply elem_of_app. by left.
  - unfold solid in *. rewrite forallb_forall in H. rewrite forallb_forall.
    intros x Hx. apply H. apply list_elem_of_In in Hx. apply list_elem_of_In.
    rewrite <- (take_drop e chunk). apply elem_of_app. by left.
Qed.

Lemma nonblank_ends_solid chunk :
  pure chunk -> textwrap.blank chunk = false -> ends_solid chunk.
Proof.
  intros [H|H] Hb; [congruence|].
  destruct chunk as [|x chunk]; [done|].
  destruct (exists_last (l := x :: chunk) ltac:(done)) as (front & c & Heq).
  exists front, c. split; [done|]. unfold solid in H. rewrite Heq, forallb_app in H.
  simpl in H. apply andb_true_iff in H as [_ H]. rewrite andb_true_r in H.
  by apply negb_true_iff in H.
Qed.

Lemma ends_solid_app front s : ends_solid s -> ends_solid (front ++ s).
Proof. intros (f & c & -> & Hc). exists (front ++ f), c. by rewrite app_assoc. Qed.

(** The [while cur_line:] loop leaves through [break] on a chunk that is
    not blank. *)
Lemma fit_placeholder_top W cl : forall n line,
  textwrap.fit_placeholder
    {| textwrap.width := W; textwrap.max_lines := Some 1%nat; textwrap.placeholder := [] |}
    W cl n = Some line ->
  exists last before,
    line = concat (rev before) ++ last /\ textwrap.blank last = false /\ last ∈ cl.
Proof.
  induction cl as [|top under IH]; intros n line; [done|]. simpl.
  destruct (negb (textwrap.blank top) && _) eqn:E.
  - intros [= <-]. apply andb_true_iff in E as [E _]. apply negb_true_iff in E.
    exists top, under. split_and!; [|done|by left].
    rewrite !concat_app. simpl. by rewrite !app_nil_r.
  - intros (last & before & ? & ? & ?)%IH. exists last, before. split_and!; [done|done|by right].
Qed.

Lemma blank_app s1 s2 :
  textwrap.blank (s1 ++ s2) = textwrap.blank s1 && textwrap.blank s2.
Proof. by rewrite !blank_forallb, forallb_app. Qed.

(** The single line of [wrap_one_line] ends in a character that is not
    whitespace when the text does. *)
Lemma wrap_one_line_ends W fuel x r below :
  (1 <= W)%nat ->
  Str.isspace x = false ->
  Forall (fun chunk => chunk <> [] /\ pure chunk) ((x :: r) :: below) ->
  (forall l c, (x :: r) :: below = l ++ [c] -> textwrap.blank c = false) ->
  exists line,
    textwrap.wrap_loop (S fuel)
      {| textwrap.width := W; textwrap.max_lines := Some 1%nat; textwrap.placeholder := [] |}
      ((x :: r) :: below) [] = [line] /\
    ends_solid line.
Proof.
  intros W_pos Hx Hpure Hlast.
  set (tw := {| textwrap.width := W; textwrap.max_lines := Some 1%nat;
                textwrap.placeholder := [] |}).
  unfold textwrap.wrap_loop; fold textwrap.wrap_loop.
  rewrite andb_false_r. simpl textwrap.width.
  set (chunks := (x :: r) :: below) in *.
  destruct (fill_line_spec W chunks [] 0) as (popped & rest & Heq & -> & Hle & Hrest).
  rewrite app_nil_r. simpl plus.
  assert (textwrap.sum_len popped <= W)%nat as Hn.
  { destruct popped; [simpl; lia|]. apply Hle. done. }
  destruct (break_long_spec W W_pos rest (rev popped) (textwrap.sum_len popped))
    as (rest' & cl' & -> & Hn' & Hbreak); [by rewrite sum_len_rev|done|].
  assert (Forall pure popped /\ Forall pure rest) as [Hpp Hpr].
  { rewrite Heq in Hpure. apply Forall_app in Hpure as [H1 H2].
    split; eapply Forall_impl; eauto; by intros ? [_ ?]. }
  assert (Forall pure cl') as Hcl'.
  { destruct Hbreak as [(_ & -> & _)|(c & bl & e & -> & -> & _)].
    - by apply Forall_rev.
    - constructor; [|by apply Forall_rev]. apply pure_take. by inversion Hpr. }
  assert (bottom_solid cl') as Hbot.
  { destruct popped as [|p popped].
    - simpl in Heq. subst rest.
      destruct Hbreak as [(_ & _ & Hfit)|(c & bl & e & Hc & -> & -> & He)].
      + simpl in Hrest, Hfit. lia.
      + injection Hc as <- <-.
        specialize (He eq_refl). destruct e as [|e]; [lia|]. by exists [], x, (take e r).
    - injection Heq as <- Heq. cbn [rev].
      destruct Hbreak as [(-> & -> & _)|(c & bl & e & -> & -> & -> & He)].
      + by exists (rev popped), x, r.
      + by exists (take e c :: rev popped), x, r. }
  (* in the branch that keeps the line, its last chunk is not blank *)
  assert (match rest' with [] => true | [c] => textwrap.blank c | _ => false end = true ->
          match cl' with top :: _ => textwrap.blank top = false | [] => True end) as Hkeep.
  { intros Erest. destruct Hbreak as [(-> & -> & _)|(c & bl & e & -> & -> & -> & He)].
    - destruct rest as [|c [|??]]; [|exfalso|done].
      + rewrite app_nil_r in Heq. subst popped.
        destruct (exists_last (l := chunks) ltac:(done)) as (l & c & Hc).
        rewrite Hc, rev_unit. eauto.
      + rewrite (Hlast _ _ Heq) in Erest. done.
    - destruct bl as [|??]; [|done].
      pose proof (Hlast _ _ Heq) as Hc.
      rewrite <- (take_drop e c), blank_app, Erest, andb_true_r in Hc. done. }
  destruct (drop_blank_spec W W_pos cl') as (cl3 & -> & Hdrop).
  assert (bottom_solid cl3) as Hbot3 by eauto using drop_blank_bottom.
  assert (textwrap.sum_len cl3 <= W)%nat as Hn3.
  { destruct Hdrop as [->|(last & -> & _)]; simpl in *; lia. }
  assert (Forall pure cl3) as Hcl3.
  { destruct Hdrop as [->|(last & -> & _)]; [done|]. by inversion Hcl'. }
  destruct cl3 as [|top under].
  { destruct Hbot3 as ([|??] & ? & ? & ? & _); done. }
  cbv iota beta. unfold textwrap.keeps_line. simpl textwrap.max_lines. simpl orb.
  destruct (match rest' with [] => true | [c] => textwrap.blank c | _ => false end) eqn:Erest;
    simpl andb.
  - simpl app. rewrite (wrap_loop_done W) by done.
    destruct (_ <=? W)%nat eqn:Efit;
      [|apply Nat.leb_gt in Efit; simpl in Hn3, Efit; lia].
    eexists. split; [reflexivity|].
    specialize (Hkeep eq_refl).
    assert (textwrap.blank top = false) as Htop.
    { destruct Hdrop as [<-|(last & -> & Hb)]; [done|]. congruence. }
    rewrite concat_app. simpl. rewrite app_nil_r.
    apply ends_solid_app, nonblank_ends_solid; [|done]. by inversion Hcl3.
  - unfold textwrap.truncate.
    destruct (fit_placeholder_spec W W_pos (top :: under) Hn3 Hbot3) as (l1 & l2 & Hcl & Hfit).
    fold tw in Hfit. rewrite Hfit.
    apply fit_placeholder_top in Hfit as (last & before & -> & Hb & Hin).
    eexists. split; [reflexivity|]. simpl.
    apply ends_solid_app, nonblank_ends_solid; [|done].
    rewrite Forall_forall in Hcl3. by apply Hcl3.
Qed.

(** What [shorten] returns ends in a character that is not whitespace,
    unless the collapsed text is empty. *)
Lemma shorten_ends s W short :
  (1 <= W)%nat ->
  textwrap.shorten s W [] = Ok short ->
  (collapse s = [] -> short = []) /\ (collapse s <> [] -> ends_solid short).
Proof.
  intros HW. unfold textwrap.shorten, textwrap.fill, textwrap.wrap,
    textwrap._wrap_chunks, textwrap._split_chunks.
  fold (collapse s). rewrite (munge_clean _ (collapse_clean s)).
  simpl textwrap.width. simpl textwrap.max_lines. simpl textwrap.placeholder.
  destruct (W <=? 0)%nat eqn:E0; [apply Nat.leb_le in E0; lia|].
  simpl Str.lstrip. simpl length.
  destruct (W <? 0)%nat eqn:E1; [apply Nat.ltb_lt in E1; lia|].
  pose proof (split_concat (collapse s)) as Hcat.
  pose proof (split_nonempty (collapse s)) as Hne.
  pose proof (chunks_pure _ (collapse_clean s)) as Hpure.
  pose proof (join_starts_solid _ (collapse_words s)) as Hstart.
  pose proof (join_ends_solid _ (collapse_words s)) as Hend.
  fold (collapse s) in Hstart, Hend.
  destruct (textwrap._split (collapse s)) as [|chunk below] eqn:Echunks.
  - simpl in Hcat. rewrite <- Hcat. simpl. by intros [= <-].
  - assert (exists x r, chunk = x :: r /\ Str.isspace x = false) as (x & r & -> & Hx).
    { inversion Hne as [|? ? Hchunk _]; subst. destruct chunk as [|x r]; [done|].
      exists x, r. split; [done|]. rewrite <- Hcat in Hstart. exact Hstart. }
    destruct (wrap_one_line_ends W (length ((x :: r) :: below)
                                    + textwrap.sum_len ((x :: r) :: below)) x r below HW Hx Hpure)
      as (line & Hline & Hends).
    { intros l c Hl. destruct Hend as [Hnil|(s' & y & Hs' & Hy)].
      + rewrite <- Hcat in Hnil. done.
      + rewrite <- Hcat in Hs'. eauto using last_chunk_solid. }
    rewrite Hline. simpl Str.join. intros [= <-]. split; [|done].
    intros Hnil. rewrite <- Hcat in Hnil. done.
Qed.

(* ===================================================================== *)
(** ** Collapsed texts *)
(* ===================================================================== *)

Lemma rstrip_keeps_solid s : forallb Str.isspace (Str.rstrip s) = forallb Str.isspace s.
Proof. unfold Str.rstrip. by rewrite forallb_rev, lstrip_keeps_solid, forallb_rev. Qed.

Lemma split_from_nil s : forall word,
  Str.split_from word s = [] -> word = [] /\ forallb Str.isspace s = true.
Proof.
  induction s as [|c s IH]; intros word; simpl.
  - by destruct word.
  - destruct (Str.isspace c).
    + destruct word; [|done]. intros H. by destruct (IH [] H).
    + intros H. destruct (IH _ H) as [Hw _]. by destruct word.
Qed.

Lemma join_words_nil (words : list text) :
  Forall (fun w => w <> [] /\ solid w) words -> Str.join (str " ") words = [] -> words = [].
Proof.
  intros H. destruct H as [|w ws [Hw _] Hws]; [done|]. simpl.
  destruct ws; [done|]. by destruct w.
Qed.

(** The collapsed text is empty exactly when the text is blank. *)
Lemma collapse_nil s : collapse s = [] <-> forallb Str.isspace s = true.
Proof.
  split.
  - intros H. apply join_words_nil in H; [|apply collapse_words].
    apply split_from_nil in H as [_ H].
    unfold Str.strip in H. by rewrite rstrip_keeps_solid, lstrip_keeps_solid in H.
  - intros H. unfold collapse, Str.strip.
    apply lstrip_nil in H. rewrite H. done.
Qed.

Lemma lstrip_solid c s : Str.isspace c = false -> Str.lstrip (c :: s) = c :: s.
Proof. intros H. simpl. by rewrite H. Qed.

Lemma rstrip_solid s : ends_solid s -> Str.rstrip s = s.
Proof.
  intros (front & c & -> & Hc). unfold Str.rstrip.
  rewrite rev_unit, (lstrip_solid _ _ Hc). by rewrite <- rev_unit, rev_involutive.
Qed.

Lemma split_from_solid w : forall word rest,
  solid w -> Str.split_from word (w ++ rest) = Str.split_from (word ++ w) rest.
Proof.
  induction w as [|c w IH]; intros word rest Hw; [by rewrite app_nil_r|].
  unfold solid in Hw. simpl in Hw. apply andb_true_iff in Hw as [Hc Hw].
  apply negb_true_iff in Hc. simpl. rewrite Hc, IH by done. by rewrite <- app_assoc.
Qed.

Lemma split_join (words : list text) :
  Forall (fun w => w <> [] /\ solid w) words ->
  Str.split (Str.join (str " ") words) = words.
Proof.
  unfold Str.split. induction 1 as [|w ws [Hne Hw] Hws IH]; [done|].
  destruct ws as [|w' ws].
  - simpl. rewrite <- (app_nil_r w) at 1. rewrite split_from_solid by done.
    simpl. by destruct w.
  - rewrite join_cons by done. rewrite split_from_solid by done.
    change (str " " ++ ?s) with (" "%char :: s). cbn [Str.split_from app].
    change (Str.isspace " ") with true. cbv iota.
    destruct w; [done|]. by rewrite IH.
Qed.

(** A text made of words with one space between them is its own collapsed
    form. *)
Lemma collapse_join (words : list text) :
  Forall (fun w => w <> [] /\ solid w) words ->
  collapse (Str.join (str " ") words) = Str.join (str " ") words.
Proof.
  intros H. unfold collapse.
  assert (Str.strip (Str.join (str " ") words) = Str.join (str " ") words) as ->.
  { unfold Str.strip. pose proof (join_starts_solid _ H) as Hs.
    destruct (join_ends_solid _ H) as [Hnil|He]; [by rewrite Hnil|].
    destruct (Str.join (str " ") words) as [|c s] eqn:E; [done|].
    rewrite (lstrip_solid _ _ Hs). rewrite <- E in *. by apply rstrip_solid. }
  by rewrite split_join.
Qed.

Lemma prefix_solid (p w : text) : p `prefix_of` w -> solid w -> solid p.
Proof.
  intros [q ->]. unfold solid. rewrite forallb_app. by intros [? _]%andb_true_iff.
Qed.

(** A prefix of such a text that ends in a character that is not
    whitespace is such a text again. *)
Lemma prefix_join (words : list text) : forall p,
  Forall (fun w => w <> [] /\ solid w) words ->
  p `prefix_of` Str.join (str " ") words ->
  p = [] \/ ends_solid p ->
  exists words',
    Forall (fun w => w <> [] /\ solid w) words' /\ p = Str.join (str " ") words'.
Proof.
  induction words as [|w ws IH]; intros p Hws Hp Hend.
  - simpl in Hp. apply prefix_nil_inv in Hp as ->. by exists [].
  - apply Forall_cons in Hws as [[Hne Hw] Hws].
    destruct (decide (p = [])) as [->|Hpne]; [by exists []|].
    destruct Hend as [?|Hend]; [done|].
    destruct ws as [|w' ws].
    + simpl in Hp. exists [p]. split; [|done]. repeat constructor; [done|].
      by eapply prefix_solid.
    + rewrite join_cons in Hp by done.
      destruct (prefix_weak_total p w _ Hp (prefix_app_r w w _ (reflexivity w)))
        as [Hpw|[q Hq]].
      * exists [p]. split; [|done]. repeat constructor; [done|]. by eapply prefix_solid.
      * subst p. apply prefix_app_inv in Hp.
        destruct q as [|y q].
        { rewrite app_nil_r. exists [w]. by repeat constructor. }
        change (str " " ++ ?s) with (" "%char :: s) in Hp.
        apply prefix_cons_inv_1 in Hp as Hy. subst y.
        apply prefix_cons_inv_2 in Hp.
        destruct (decide (q = [])) as [->|Hq].
        { destruct Hend as (front & c & Heq & Hc).
          apply app_inj_tail in Heq as [_ <-]. done. }
        destruct (IH q Hws Hp) as (words' & Hwords' & ->).
        { right. destruct Hend as (front & c & Heq & Hc).
          destruct (exists_last Hq) as (q' & c' & ->).
          change (w ++ " "%char :: q' ++ [c']) with (w ++ (" "%char :: q') ++ [c']) in Heq.
          rewrite app_assoc in Heq.
          apply app_inj_tail in Heq as [_ ->]. by exists q', c. }
        exists (w :: words'). split; [constructor; [by split|done]|].
        destruct words' as [|??]; [by exfalso; apply Hq|].
        by rewrite (join_cons _ w).
Qed.

(** What [shorten] returns is its own collapsed form, so [shorten] returns
    it unchanged. *)
Lemma shorten_collapsed s short :
  textwrap.shorten s 100 (str "") = Ok short -> collapse short = short.
Proof.
  intros H. destruct (shorten_100 s) as (short' & Hs & _ & Hpre & _).
  assert (short' = short) as -> by congruence.
  destruct (shorten_ends s 100 short ltac:(lia) H) as [Hnil Hends].
  destruct (prefix_join _ short (collapse_words s) Hpre) as (words & Hwords & ->).
  { destruct (decide (collapse s = [])); [left|right]; auto. }
  by apply collapse_join.
Qed.

(* ===================================================================== *)
(** ** Tables that grow by inserts *)
(* ===================================================================== *)

Lemma inserted_cons {R : Type} (r : R) rs (t : Sql.table R) :
  inserted (r :: rs) t = inserted rs (Sql.add r t).
Proof. done. Qed.

Lemma inserted_snoc {R : Type} (r : R) rs (t : Sql.table R) :
  inserted (rs ++ [r]) t = Sql.add r (inserted rs t).
Proof. unfold inserted. by rewrite foldl_app. Qed.

Lemma inserted_next {R : Type} (rs : list R) : forall t,
  Sql.next_identity (inserted rs t) = Sql.next_identity t + Z.of_nat (length rs).
Proof.
  induction rs as [|r rs IH]; intros t; [simpl; lia|].
  rewrite inserted_cons, IH. simpl. lia.
Qed.

Lemma inserted_old {R : Type} (rs : list R) : forall t k,
  k < Sql.next_identity t -> Sql.rows (inserted rs t) !! k = Sql.rows t !! k.
Proof.
  induction rs as [|r rs IH]; intros t k Hk; [done|].
  rewrite inserted_cons, IH by (simpl; lia). simpl.
  apply lookup_insert_ne. lia.
Qed.

Lemma inserted_new {R : Type} (rs : list R) : forall t j r,
  rs !! j = Some r ->
  Sql.rows (inserted rs t) !! (Sql.next_identity t + Z.of_nat j) = Some r.
Proof.
  induction rs as [|r0 rs IH]; intros t j r Hj; [done|].
  rewrite inserted_cons. destruct j as [|j]; simpl in Hj.
  - injection Hj as ->. rewrite inserted_old by (simpl; lia). simpl.
    rewrite Z.add_0_r. apply lookup_insert_eq.
  - rewrite <- (IH (Sql.add r0 t) j r Hj). f_equal. simpl. lia.
Qed.

Lemma inserted_inv {R : Type} (rs : list R) : forall t k r,
  Sql.rows (inserted rs t) !! k = Some r ->
  Sql.rows t !! k = Some r \/
  exists j, k = Sql.next_identity t + Z.of_nat j /\ rs !! j = Some r.
Proof.
  induction rs as [|r0 rs IH]; intros t k r Hk; [by left|].
  rewrite inserted_cons in Hk. apply IH in Hk as [Hk|(j & -> & Hj)].
  - simpl in Hk. destruct (decide (k = Sql.next_identity t)) as [->|Hne].
    + rewrite lookup_insert_eq in Hk. injection Hk as ->. right. exists O.
      split; [lia|done].
    + rewrite lookup_insert_ne in Hk by done. by left.
  - right. exists (S j). split; [simpl; lia|done].
Qed.

Lemma inserted_keyed {R : Type} (rs : list R) (t : Sql.table R) :
  well_keyed t -> well_keyed (inserted rs t).
Proof.
  intros Ht k [r Hr]. rewrite inserted_next.
  apply inserted_inv in Hr as [Hr|(j & -> & Hj)].
  - specialize (Ht k (mk_is_Some _ _ Hr)). lia.
  - apply lookup_lt_Some in Hj. lia.
Qed.

Lemma inserted_size {R : Type} (rs : list R) : forall t,
  well_keyed t ->
  size (Sql.rows (inserted rs t)) = (size (Sql.rows t) + length rs)%nat.
Proof.
  induction rs as [|r rs IH]; intros t Ht; [simpl; lia|].
  rewrite inserted_cons, IH.
  - simpl. rewrite map_size_insert_None; [lia|].
    destruct (Sql.rows t !! Sql.next_identity t) eqn:E; [|done].
    specialize (Ht _ (mk_is_Some _ _ E)). lia.
  - apply (inserted_keyed [r]). done.
Qed.

Lemma has_true {R : Type} (t : Sql.table R) k :
  Sql.has t k = true <-> is_Some (Sql.rows t !! k).
Proof. unfold Sql.has. apply bool_decide_eq_true. Qed.

Lemma has_add {R : Type} (r : R) (t : Sql.table R) k :
  Sql.has t k = true -> Sql.has (Sql.add r t) k = true.
Proof.
  rewrite !has_true. intros [x Hx]. simpl.
  destruct (decide (k = Sql.next_identity t)) as [->|Hne].
  - rewrite lookup_insert_eq. done.
  - rewrite lookup_insert_ne by done. done.
Qed.

Lemma has_added {R : Type} (r : R) (t : Sql.table R) :
  Sql.has (Sql.add r t) (Sql.next_identity t) = true.
Proof. rewrite has_true. simpl. rewrite lookup_insert_eq. done. Qed.

Lemma has_inserted {R : Type} (rs : list R) : forall (t : Sql.table R) k,
  Sql.has t k = true -> Sql.has (inserted rs t) k = true.
Proof.
  induction rs as [|r rs IH]; intros t k Hk; [done|].
  rewrite inserted_cons. by apply IH, has_add.
Qed.

Lemma empty_keyed {R : Type} : well_keyed (@Sql.empty R).
Proof. intros k [r Hr]. simpl in Hr. by rewrite lookup_empty in Hr. Qed.

(** What the database has checked when it accepts the row of an
    employee. *)
Lemma run_insert_employee_checks dep chf nm sal db db' :
  Sql.run (INSERT_INTO_employee dep chf nm sal) db = Ok db' ->
  exists tbl dv dt,
    Sql.employee db = Some tbl /\ dep = Some dv /\
    Sql.department db = Some dt /\ Sql.has dt dv = true /\
    (forall cv, chf = Some cv -> Sql.has tbl cv = true) /\
    Sql.last_identity db' = Some (Sql.next_identity tbl) /\
    Sql.employee db' =
      Some (Sql.add {| Sql.department_id := dv; Sql.chief_id := chf;
                       Sql.name := nm; Sql.salary := sal |} tbl) /\
    Sql.department db' = Sql.department db.
Proof.
  simpl. destruct (Sql.employee db) as [tbl|]; [|done].
  unfold Sql.check_employee. destruct dep as [dv|]; [|done].
  destruct (Sql.department db) as [dt|] eqn:Edt; [|done].
  destruct (Sql.has dt dv) eqn:Ehas; [|done]. simpl.
  destruct (match chf with Some c => Sql.has tbl c | None => true end) eqn:Echf; [|done].
  simpl. destruct (Sql.fits_name nm); [|done]. simpl.
  destruct (Sql.fits_integer sal); [|done]. simpl.
  destruct (Sql.identity tbl) as [v|] eqn:Ei; [|done].
  apply identity_ok in Ei as (-> & _).
  intros [= <-]. exists tbl, dv, dt.
  split_and!; try done. by intros cv ->.
Qed.

(* ===================================================================== *)
(** ** Steps that leave the session alone *)
(* ===================================================================== *)

Lemma same_session_refl w : same_session w w.
Proof. done. Qed.

Lemma same_session_trans w1 w2 w3 :
  same_session w1 w2 -> same_session w2 w3 -> same_session w1 w3.
Proof. intros (?&?&?&?) (?&?&?&?). split_and!; congruence. Qed.

Lemma randint_inv a b w res w' :
  randint a b w = (res, w') ->
  same_session w w' /\ fake w' = fake w /\ draws (random w') = draws (random w) /\
  (forall e, res = Raise e -> w' = w /\ b < a /\ e = ValueError "empty range for randrange()") /\
  (forall x, res = Ok x -> a <= x <= b /\ w' = drawn w).
Proof.
  unfold randint, randrange. destruct (0 <? b + 1 - a) eqn:E.
  - apply Z.ltb_lt in E. intros [= <- <-]. split_and!; try done.
    intros x [= <-]. split; [|done].
    pose proof (Z.mod_pos_bound (draws (random w) (used (random w))) (b + 1 - a)). lia.
  - apply Z.ltb_ge in E. intros [= <- <-]. split_and!; try done.
    intros e [= <-]. split_and!; [done|lia|done].
Qed.

Lemma getitem_inv {A : Type} (l : list A) i w res w' :
  getitem l i w = (res, w') ->
  w' = w /\
  (forall x, res = Ok x -> x ∈ l) /\
  (forall e, res = Raise e -> e = IndexError /\ ~ (- len l <= i < len l)).
Proof.
  unfold getitem, len.
  destruct (i <? 0) eqn:E0; [apply Z.ltb_lt in E0|apply Z.ltb_ge in E0].
  - destruct (0 <=? i + Z.of_nat (length l)) eqn:E1;
      [apply Z.leb_le in E1|apply Z.leb_gt in E1]; simpl.
    + destruct (i + Z.of_nat (length l) <? Z.of_nat (length l)) eqn:E2;
        [|apply Z.ltb_ge in E2; lia].
      destruct (l !! Z.to_nat (i + Z.of_nat (length l))) as [x|] eqn:Ex.
      * intros [= <- <-]. split_and!; [done| |done].
        intros ? [= <-]. by eapply list_elem_of_lookup_2.
      * apply lookup_ge_None in Ex. lia.
    + intros [= <- <-]. split_and!; [done|done|]. intros e [= <-]. split; [done|lia].
  - destruct (0 <=? i) eqn:E1; [|apply Z.leb_gt in E1; lia]. simpl.
    destruct (i <? Z.of_nat (length l)) eqn:E2;
      [apply Z.ltb_lt in E2|apply Z.ltb_ge in E2].
    + destruct (l !! Z.to_nat i) as [x|] eqn:Ex.
      * intros [= <- <-]. split_and!; [done| |done].
        intros ? [= <-]. by eapply list_elem_of_lookup_2.
      * apply lookup_ge_None in Ex. lia.
    + intros [= <- <-]. split_and!; [done|done|]. intros e [= <-]. split; [done|lia].
Qed.

(* ===================================================================== *)
(** ** Constructions that succeed, and the database *)
(* ===================================================================== *)

(** [Department(name)] that returns: the object, the row and the events. *)
Lemma Department_init_db nm w a w' :
  Department.__init__ nm w = (Ok a, w') ->
  exists short dt,
    textwrap.shorten nm 100 (str "") = Ok short /\
    a = length (heap w) /\
    Sql.department (conn w) = Some dt /\
    heap w' = heap w ++ [department_object
                           {| DepartmentObject.name := short;
                              DepartmentObject.id := Some (Sql.next_identity dt) |}] /\
    Sql.department (conn w') = Some (Sql.add short dt) /\
    Sql.employee (conn w') = Sql.employee (conn w) /\
    trace w' = trace w ++ birth (length (heap w)) (INSERT_INTO_department short)
                            (Sql.next_identity dt) /\
    same_environment w w'.
Proof.
  intros H. apply Department_init_inv in H
    as (short & t & v & idv & Hs & Henv & Ht & Hfol & Hheap & _ & Hok).
  destruct (Hok a eq_refl) as (-> & -> & dt & Hdt & -> & Hd & He).
  simpl in Hfol. subst t. exists short, dt. split_and!; done.
Qed.

(** [Employee(department, chief, name, salary)] that returns: the object,
    the row, what the database checked, and the events. *)
Lemma Employee_init_db dep chf nm sal w a w' :
  allocated w dep ->
  (forall c, chf = Some c -> allocated w c) ->
  Employee.__init__ dep chf nm sal w = (Ok a, w') ->
  exists short et dv dt,
    textwrap.shorten nm 100 (str "") = Ok short /\
    a = length (heap w) /\
    Sql.employee (conn w) = Some et /\
    id_of w dep = Some dv /\
    Sql.department (conn w) = Some dt /\ Sql.has dt dv = true /\
    (forall cv, (match chf with Some c => id_of w c | None => None end) = Some cv ->
                Sql.has et cv = true) /\
    heap w' = heap w ++ [employee_object
                           {| EmployeeObject.department := dep;
                              EmployeeObject.chief := chf;
                              EmployeeObject.name := short;
                              EmployeeObject.salary := sal;
                              EmployeeObject.id := Some (Sql.next_identity et) |}] /\
    Sql.employee (conn w') =
      Some (Sql.add {| Sql.department_id := dv;
                       Sql.chief_id := match chf with Some c => id_of w c | None => None end;
                       Sql.name := short; Sql.salary := sal |} et) /\
    Sql.department (conn w') = Sql.department (conn w) /\
    trace w' = trace w
               ++ birth (length (heap w))
                    (INSERT_INTO_employee (Some dv)
                       (match chf with Some c => id_of w c | None => None end) short sal)
                    (Sql.next_identity et) /\
    same_environment w w'.
Proof.
  intros Hdep Hchf H. destruct (shorten_100 nm) as (short & Hshort & _).
  unfold Employee.__init__ in H. rewrite Hshort in H.
  unfold bind at 1, lift in H. unfold bind at 1, new in H.
  apply bind_ret_inv in H as (res0 & H & Hres).
  destruct res0 as [[]|]; [|done]. injection Hres as ->.
  set (r := {| EmployeeObject.department := dep; EmployeeObject.chief := chf;
               EmployeeObject.name := short; EmployeeObject.salary := sal;
               EmployeeObject.id := None |}) in *.
  set (w1 := record _ _) in H.
  assert (employee_at w1 (length (heap w)) = Some r) as Hat.
  { unfold employee_at. simpl. by rewrite list_lookup_middle. }
  assert (allocated w1 dep) as Hdep1 by (by eapply (allocated_mono w w1 [employee_object r])).
  assert (forall c, EmployeeObject.chief r = Some c -> allocated w1 c) as Hchf1.
  { intros c Hc. eapply (allocated_mono w w1 [employee_object r]); [done|]. by apply Hchf. }
  unfold Employee.save in H.
  rewrite (bind_run _ _ _ _ _ (Employee_attributes_run _ _ _ Hat)) in H.
  cbn [EmployeeObject.id r] in H.
  rewrite bind_assoc, (bind_run _ _ _ _ _ (get_id_run _ _ Hdep1)) in H.
  rewrite bind_assoc, (bind_run _ _ _ _ _ (chief_id_run _ _ Hchf1)) in H.
  fold (chief_key w1 r) in H.
  assert (id_of w1 dep = id_of w dep) as Hiddep.
  { by apply (id_of_mono w w1 [employee_object r]). }
  assert (chief_key w1 r = match chf with Some c => id_of w c | None => None end) as Hkey.
  { unfold chief_key. simpl. destruct chf as [c|]; [|done].
    apply (id_of_mono w w1 [employee_object r]); [done|]. by apply Hchf. }
  rewrite Hiddep, Hkey in H.
  apply employee_at_heap in Hat.
  eapply insert_and_commit in H; [|exact Hat|].
  2:{ intros db (tbl & dv & _ & _ & -> & _)%run_insert_employee. done. }
  destruct H as (Henv & t & v & Ht & Hfol & _ & Hok).
  destruct (Hok eq_refl) as (Hheap & db & Hrun & Hv & Hd & He).
  apply run_insert_employee_checks in Hrun
    as (et & dv & dt & Het & Hdv & Hdt & Hhas & Hchas & Hlast & Hemp & Hdept).
  simpl in Hfol, Het, Hdt. subst t.
  assert (v = Sql.next_identity et) as -> by congruence.
  exists short, et, dv, dt. rewrite Hdv in *.
  split_and!; try done.
  - rewrite Hheap. subst w1. simpl. apply insert_at_end.
  - by rewrite He, Hemp.
  - by rewrite Hd, Hdept.
  - rewrite Ht. subst w1. cbn [trace record with_heap]. rewrite <- app_assoc. reflexivity.
Qed.

(** One pass of the employee generator that returns. *)
Lemma employees_pass_db deps emps w a w' :
  Forall (allocated w) deps -> Forall (allocated w) emps ->
  employees_pass deps emps w = (Ok a, w') ->
  exists r et dv dt,
    a = length (heap w) /\
    heap w' = heap w ++ [employee_object r] /\
    EmployeeObject.id r = Some (Sql.next_identity et) /\
    EmployeeObject.department r ∈ deps /\
    (forall c, EmployeeObject.chief r = Some c -> c ∈ emps) /\
    20000 <= EmployeeObject.salary r <= 100001 /\
    (length (EmployeeObject.name r) <= 100)%nat /\
    Sql.employee (conn w) = Some et /\
    id_of w (EmployeeObject.department r) = Some dv /\
    Sql.department (conn w) = Some dt /\ Sql.has dt dv = true /\
    (forall cv, chief_key w r = Some cv -> Sql.has et cv = true) /\
    Sql.employee (conn w') =
      Some (Sql.add {| Sql.department_id := dv; Sql.chief_id := chief_key w r;
                       Sql.name := EmployeeObject.name r;
                       Sql.salary := EmployeeObject.salary r |} et) /\
    Sql.department (conn w') = Sql.department (conn w) /\
    trace w' = trace w
               ++ birth (length (heap w))
                    (INSERT_INTO_employee (Some dv) (chief_key w r)
                       (EmployeeObject.name r) (EmployeeObject.salary r))
                    (Sql.next_identity et) /\
    faults w' = faults w /\
    Faker.generator (fake w') = Faker.generator (fake w).
Proof.
  intros Hdeps Hemps H. unfold employees_pass in H.
  apply bind_ok in H as (dpos & w1 & H1 & H).
  apply randint_inv in H1 as (S1 & F1 & _).
  apply bind_ok in H as (cpos & w2 & H2 & H).
  assert (same_session w1 w2 /\ fake w2 = fake w1) as [S2 F2].
  { destruct (0 <? len emps).
    - by apply randint_inv in H2 as (? & ? & _).
    - by injection H2 as <- <-. }
  apply bind_ok in H as (d & w3 & H3 & H).
  apply getitem_inv in H3 as (-> & Hd & _). specialize (Hd d eq_refl).
  apply bind_ok in H as (chf & w4 & H4 & H).
  assert (w4 = w2 /\ forall c, chf = Some c -> c ∈ emps) as [-> Hchf].
  { destruct (-1 <? cpos).
    - apply bind_ok in H4 as (c & w5 & H5 & H6). injection H6 as <- <-.
      apply getitem_inv in H5 as (-> & Hc & _). split; [done|].
      intros ? [= <-]. by apply Hc.
    - by injection H4 as <- <-. }
  apply bind_ok in H as (nm & w5 & H5 & H).
  apply fake_unique_inv in H5 as [Hnm ->].
  apply bind_ok in H as (sal & w6 & H6 & H).
  apply randint_inv in H6 as (S6 & F6 & _ & _ & Hsal).
  destruct (Hsal sal eq_refl) as [Hrange _].
  pose proof (same_session_trans _ _ _ (same_session_trans _ _ _ S1 S2) S6)
    as (Hh & Hc & Ht & Hf).
  cbn [heap conn trace faults with_fake] in Hh, Hc, Ht, Hf.
  assert (forall x, allocated w x -> allocated w6 x) as Halloc.
  { intros x. unfold allocated. by rewrite Hh. }
  assert (forall x, id_of w6 x = id_of w x) as Hid.
  { intros x. unfold id_of. by rewrite Hh. }
  rewrite Forall_forall in Hdeps, Hemps.
  apply Employee_init_db in H; [|by apply Halloc, Hdeps|by intros c Hc'%Hchf; apply Halloc, Hemps].
  destruct H as (short & et & dv & dt & Hs & -> & Het & Hdv & Hdt & Hhas & Hchas & Hheap
                 & Hemp & Hdep & Htr & (Hfa & _ & Hfk)).
  destruct (shorten_100 nm) as (short' & Hs' & Hlen & _).
  assert (short' = short) as -> by congruence.
  assert (match chf with Some c => id_of w6 c | None => None end
          = match chf with Some c => id_of w c | None => None end) as Hkey.
  { destruct chf; [apply Hid|done]. }
  rewrite Hkey, Hid, Hh, Hc, Ht in *.
  eexists _, et, dv, dt. split_and!; [done|exact Hheap|..]; try done.
  - simpl. lia.
  - simpl. lia.
  - congruence.
  - rewrite Hfk, F6. simpl. by rewrite F2, F1.
Qed.

(* ===================================================================== *)
(** ** Runs of the generators that return, and the database *)
(* ===================================================================== *)

Lemma birth_of_department w a d v :
  heap w !! a = Some (department_object d) -> DepartmentObject.id d = Some v ->
  birth_of w a = birth a (INSERT_INTO_department (DepartmentObject.name d)) v.
Proof. intros H Hv. unfold birth_of, insert_of, id_of. by rewrite H, Hv. Qed.

Lemma birth_of_employee w a r v :
  heap w !! a = Some (employee_object r) -> EmployeeObject.id r = Some v ->
  birth_of w a
  = birth a (INSERT_INTO_employee (id_of w (EmployeeObject.department r)) (chief_key w r)
               (EmployeeObject.name r) (EmployeeObject.salary r)) v.
Proof.
  intros H Hv. unfold birth_of, insert_of. rewrite H.
  replace (id_of w a) with (Some v); [done|]. unfold id_of. by rewrite H, Hv.
Qed.

(** The department generator, when it returns: the objects, their
    identities, the table and the events. *)
Lemma departments_loop_db n : forall deps0 w deps w' dt,
  departments_loop n deps0 w = (Ok deps, w') ->
  Sql.department (conn w) = Some dt ->
  exists ds : list DepartmentObject.t,
    length ds = n /\
    deps = deps0 ++ seq (length (heap w)) n /\
    heap w' = heap w ++ (department_object <$> ds) /\
    (forall j dd, ds !! j = Some dd ->
       DepartmentObject.id dd = Some (Sql.next_identity dt + Z.of_nat j) /\
       (length (DepartmentObject.name dd) <= 100)%nat) /\
    Sql.department (conn w') = Some (inserted (DepartmentObject.name <$> ds) dt) /\
    Sql.employee (conn w') = Sql.employee (conn w) /\
    trace w' = trace w ++ flat_map (birth_of w') (seq (length (heap w)) n) /\
    faults w' = faults w /\ random w' = random w /\
    Faker.generator (fake w') = Faker.generator (fake w).
Proof.
  induction n as [|n IH]; intros deps0 w deps w' dt H Hdt.
  - injection H as <- <-. exists []. simpl. rewrite !app_nil_r. split_and!; done.
  - simpl in H. apply bind_ok in H as (phrase & w1 & H1 & H).
    apply fake_unique_inv in H1 as [Hphrase ->].
    apply bind_ok in H as (a & w2 & H2 & H).
    apply Department_init_db in H2
      as (short & dt' & Hs & -> & Hdt' & Hheap & Hd & He & Ht & (Hfa & Hr & Hfk)).
    simpl in Hdt', Hheap, He, Ht, Hfa, Hr, Hfk.
    rewrite Hdt in Hdt'. injection Hdt' as <-. simpl in H.
    destruct (shorten_100 phrase) as (short' & Hs' & Hlen100 & _).
    assert (short' = short) as -> by congruence. clear Hs Hs'.
    apply (IH _ _ _ _ (Sql.add short dt)) in H; [|done].
    destruct H as (ds & Hlen & -> & Hheap' & Hids & Hd' & He' & Ht' & Hfa' & Hr' & Hfk').
    rewrite Hheap, length_app in *. simpl in *.
    replace (length (heap w) + 1)%nat with (S (length (heap w))) in * by lia.
    set (d0 := {| DepartmentObject.name := short;
                  DepartmentObject.id := Some (Sql.next_identity dt) |}) in *.
    exists (d0 :: ds). split_and!.
    + simpl. lia.
    + by rewrite <- app_assoc.
    + rewrite Hheap'. by rewrite <- app_assoc.
    + intros [|j] dd Hj; simpl in Hj.
      * injection Hj as <-. simpl. split; [f_equal; lia|done].
      * destruct (Hids j dd Hj) as [-> ?]. split; [f_equal; lia|done].
    + done.
    + by rewrite He'.
    + rewrite Ht', Ht, <- app_assoc. do 2 f_equal.
      symmetry. apply (birth_of_department _ _ d0); [|done].
      rewrite Hheap'. rewrite <- app_assoc. by apply list_lookup_middle.
    + congruence.
    + congruence.
    + by rewrite Hfk', Hfk.
Qed.

Lemma row_of_mono w w' h r :
  heap w' = heap w ++ h ->
  allocated w (EmployeeObject.department r) ->
  (forall c, EmployeeObject.chief r = Some c -> allocated w c) ->
  id_of w' (EmployeeObject.department r) = id_of w (EmployeeObject.department r) /\
  chief_key w' r = chief_key w r.
Proof.
  intros Hh Hdep Hchf. split; [by eapply id_of_mono|].
  unfold chief_key. destruct (EmployeeObject.chief r) as [c|]; [|done].
  eapply id_of_mono; [done|]. by apply Hchf.
Qed.

(** The employee generator, when it returns: the objects, their
    identities, the rows, what the database checked, and the events. *)
Lemma employees_loop_db n : forall deps emps0 w emps w' et,
  Forall (allocated w) deps -> Forall (allocated w) emps0 ->
  employees_loop n deps emps0 w = (Ok emps, w') ->
  Sql.employee (conn w) = Some et ->
  exists (rs : list EmployeeObject.t) (rows : list Sql.employee_row),
    length rs = n /\
    emps = emps0 ++ seq (length (heap w)) n /\
    heap w' = heap w ++ (employee_object <$> rs) /\
    Forall2 (fun r row => row_of w' r = Some row) rs rows /\
    Sql.employee (conn w') = Some (inserted rows et) /\
    Sql.department (conn w') = Sql.department (conn w) /\
    trace w' = trace w ++ flat_map (birth_of w') (seq (length (heap w)) n) /\
    faults w' = faults w /\
    Faker.generator (fake w') = Faker.generator (fake w) /\
    forall j r, rs !! j = Some r ->
      EmployeeObject.id r = Some (Sql.next_identity et + Z.of_nat j) /\
      EmployeeObject.department r ∈ deps /\
      (forall c, EmployeeObject.chief r = Some c ->
         c ∈ emps0 ++ seq (length (heap w)) j) /\
      20000 <= EmployeeObject.salary r <= 100001 /\
      (length (EmployeeObject.name r) <= 100)%nat /\
      exists dv dt,
        id_of w' (EmployeeObject.department r) = Some dv /\
        Sql.department (conn w) = Some dt /\ Sql.has dt dv = true /\
        forall cv, chief_key w' r = Some cv ->
          Sql.has (inserted (take j rows) et) cv = true.
Proof.
  induction n as [|n IH]; intros deps emps0 w emps w' et Hdeps Hemps H Het.
  - injection H as <- <-. exists [], []. simpl. rewrite !app_nil_r.
    split_and!; done.
  - simpl in H. apply bind_ok in H as (a & w1 & H1 & H).
    apply employees_pass_db in H1; [|done|done].
    destruct H1 as (r0 & et' & dv & dt & -> & Hheap & Hid & Hdep & Hchf & Hsal & Hnm & Het'
                    & Hdv & Hdt & Hhas & Hchas & Hemp & Hdept & Ht & Hfa & Hfk).
    assert (et' = et) as -> by congruence.
    assert (Forall (allocated w1) deps) as Hdeps1.
    { eapply Forall_impl; [exact Hdeps|]. intros x. by apply (allocated_mono w w1 _ _ Hheap). }
    assert (Forall (allocated w1) (emps0 ++ [length (heap w)])) as Hemps1.
    { apply Forall_app. split.
      - eapply Forall_impl; [exact Hemps|]. intros x. by apply (allocated_mono w w1 _ _ Hheap).
      - constructor; [|done]. by eapply allocated_new. }
    destruct (IH _ _ _ _ _ _ Hdeps1 Hemps1 H Hemp) as (rs & rows & Hlen & -> & Hheap' & Hrows & Hemp' & Hdept' & Ht' & Hfa'
                   & Hfk' & Hrs).
    assert (length (heap w1) = S (length (heap w))) as Hl1.
    { rewrite Hheap, length_app. simpl. lia. }
    rewrite Hl1 in *.
    assert (heap w' = heap w ++ employee_object r0 :: (employee_object <$> rs)) as Hh.
    { rewrite Hheap', Hheap. by rewrite <- app_assoc. }
    rewrite Forall_forall in Hdeps, Hemps.
    destruct (row_of_mono w w' _ r0 Hh) as [Hd0 Hk0];
      [by apply Hdeps|by intros c Hc%Hchf; apply Hemps|].
    set (row0 := {| Sql.department_id := dv; Sql.chief_id := chief_key w r0;
                    Sql.name := EmployeeObject.name r0;
                    Sql.salary := EmployeeObject.salary r0 |}) in *.
    exists (r0 :: rs), (row0 :: rows). split_and!.
    + simpl. lia.
    + by rewrite <- app_assoc.
    + exact Hh.
    + constructor; [|done]. unfold row_of. by rewrite Hd0, Hdv, Hk0.
    + done.
    + by rewrite Hdept'.
    + rewrite Ht', Ht, <- app_assoc. do 2 f_equal. simpl. f_equal.
      rewrite (birth_of_employee w' (length (heap w)) r0 (Sql.next_identity et)); [|by rewrite Hh; apply list_lookup_middle|done].
      by rewrite Hd0, Hdv, Hk0.
    + congruence.
    + by rewrite Hfk', Hfk.
    + intros [|j] r Hj; simpl in Hj.
      * injection Hj as <-. split_and!; try done; try lia.
        { rewrite Hid. f_equal. lia. }
        { intros c Hc. rewrite app_nil_r. by apply Hchf. }
        exists dv, dt. split_and!; [by rewrite Hd0|done|done|].
        intros cv Hcv. simpl. apply Hchas. by rewrite <- Hk0.
      * destruct (Hrs j r Hj) as (Hidr & Hdr & Hcr & Hsr & Hnr & dv' & dt' & Hdv' & Hdt' & Hhas' & Hc').
        split_and!; try done; try lia.
        { rewrite Hidr. f_equal. simpl. lia. }
        { intros c Hc. specialize (Hcr c Hc). rewrite <- app_assoc in Hcr. exact Hcr. }
        exists dv', dt'. split_and!; [done|congruence|done|].
        intros cv Hcv. simpl. by apply Hc'.
Qed.

(** [create_fake_data] that returns, in a database that has the two
    tables. *)
Lemma create_fake_data_db d e w deps emps w' dt et :
  create_fake_data d e w = (Ok (deps, emps), w') ->
  Sql.department (conn w) = Some dt ->
  Sql.employee (conn w) = Some et ->
  exists (ds : list DepartmentObject.t) (rs : list EmployeeObject.t)
         (rows : list Sql.employee_row),
    length ds = Z.to_nat d /\
    length rs = match Z.to_nat d with O => O | S _ => Z.to_nat e end /\
    deps = seq (length (heap w)) (length ds) /\
    emps = seq (length (heap w) + length ds) (length rs) /\
    heap w' = heap w ++ (department_object <$> ds) ++ (employee_object <$> rs) /\
    Forall2 (fun r row => row_of w' r = Some row) rs rows /\
    Sql.department (conn w') = Some (inserted (DepartmentObject.name <$> ds) dt) /\
    Sql.employee (conn w') = Some (inserted rows et) /\
    trace w' = trace w ++ flat_map (birth_of w') (deps ++ emps) /\
    faults w' = faults w /\
    Faker.generator (fake w') = Faker.generator (fake w) /\
    (forall j dd, ds !! j = Some dd ->
       DepartmentObject.id dd = Some (Sql.next_identity dt + Z.of_nat j) /\
       (length (DepartmentObject.name dd) <= 100)%nat) /\
    (forall j r, rs !! j = Some r ->
       EmployeeObject.id r = Some (Sql.next_identity et + Z.of_nat j) /\
       EmployeeObject.department r ∈ deps /\
       (forall c, EmployeeObject.chief r = Some c -> c ∈ take j emps) /\
       20000 <= EmployeeObject.salary r <= 100001 /\
       (length (EmployeeObject.name r) <= 100)%nat /\
       exists dv,
         id_of w' (EmployeeObject.department r) = Some dv /\
         Sql.has (inserted (DepartmentObject.name <$> ds) dt) dv = true /\
         forall cv, chief_key w' r = Some cv ->
           Sql.has (inserted (take j rows) et) cv = true).
Proof.
  intros H Hdt Het. unfold create_fake_data in H.
  apply bind_ok in H as (deps' & w1 & Hdeps & H).
  apply bind_ok in H as (emps' & w2 & Hemps & H). injection H as -> -> ->.
  unfold get_random_departments in Hdeps.
  apply (departments_loop_db _ _ _ _ _ dt) in Hdeps; [|done].
  destruct Hdeps as (ds & Hlen & -> & Hheap & Hids & Hd & He & Ht & Hfa & Hr & Hfk).
  simpl app in *.
  assert (Forall (allocated w1) (seq (length (heap w)) (Z.to_nat d))) as Halloc.
  { rewrite <- Hlen. by eapply departments_allocated. }
  assert (length (heap w1) = (length (heap w) + length ds)%nat) as Hl1.
  { by rewrite Hheap, length_app, length_fmap. }
  unfold get_random_employees in Hemps. simpl app in Hemps.
  match type of Hemps with context [if ?b then _ else _] => destruct b eqn:E end.
  - unfold ret in Hemps. injection Hemps as <- <-. apply Z.ltb_lt in E. unfold len in E.
    rewrite length_seq in E. assert (Z.to_nat d = O) as Hz by lia.
    rewrite Hz in *. destruct ds; [|done]. simpl in *.
    exists [], [], []. simpl. rewrite !app_nil_r in *.
    split_and!; try done; congruence.
  - apply Z.ltb_ge in E. unfold len in E. rewrite length_seq in E.
    apply (employees_loop_db _ _ _ _ _ _ et) in Hemps; [|done|done|congruence].
    destruct Hemps as (rs & rows & Hlen' & -> & Hheap' & Hrows & Hemp & Hdept & Ht' & Hfa'
                       & Hfk' & Hrs).
    simpl app in *. rewrite Hl1 in *.
    exists ds, rs, rows.
    destruct (Z.to_nat d) as [|k] eqn:Ek; [lia|]. rewrite <- Ek in *.
    split_and!; try done.
    + by rewrite Hlen.
    + by rewrite Hlen'.
    + by rewrite Hheap', Hheap, <- app_assoc.
    + congruence.
    + rewrite Ht', Ht, <- app_assoc. f_equal. rewrite flat_map_app, ?Hlen'. f_equal.
      rewrite !flat_map_concat_map. f_equal. apply map_ext_in. intros a Ha.
      apply list_elem_of_In, elem_of_seq in Ha as [Ha1 Ha2].
      destruct (lookup_lt_is_Some_2 ds (a - length (heap w))%nat ltac:(lia)) as [dd Hdd].
      destruct (Hids _ _ Hdd) as [Hid _].
      assert (heap w1 !! a = Some (department_object dd)) as Hat.
      { rewrite Hheap, lookup_app_r by lia. by rewrite list_lookup_fmap, Hdd. }
      rewrite (birth_of_department w1 a dd _ Hat Hid).
      symmetry. apply (birth_of_department w' a dd); [|done].
      rewrite Hheap'. by apply lookup_app_l_Some.
    + congruence.
    + by rewrite Hfk', Hfk.
    + intros j r Hj.
      destruct (Hrs j r Hj) as (Hidr & Hdr & Hcr & Hsr & Hnr & dv & dt' & Hdv & Hdt' & Hhas & Hc).
      apply lookup_lt_Some in Hj as Hjlt.
      split_and!; try done; try lia.
      { intros c Hc0. rewrite take_seq. replace (j `min` Z.to_nat e)%nat with j by lia.
        by apply Hcr. }
      rewrite Hd in Hdt'. injection Hdt' as <-.
      exists dv. split_and!; done.
Qed.

(* ===================================================================== *)
(** ** Resetting the schema *)
(* ===================================================================== *)

Lemma warnings_app t1 t2 : warnings (t1 ++ t2) = warnings t1 ++ warnings t2.
Proof.
  induction t1 as [|ev t1 IH]; [done|]. destruct ev; simpl; by rewrite IH.
Qed.

(** Creating or dropping a table, whatever becomes of it. *)
Lemma ddl_session s w res w' :
  (cursor_execute s ;; conn_commit) w = (res, w') ->
  same_environment w w' /\ heap w' = heap w /\
  (res = Ok tt -> Sql.run s (conn w) = Ok (conn w')).
Proof.
  intros H. apply update_and_commit in H as (Henv & Hheap & t & _ & _ & Hok).
  split_and!; [done|done|]. intros (db & Hrun & <-)%Hok. done.
Qed.

Lemma guarded_drop_session s w res w' :
  try_except (cursor_execute s ;; conn_commit) logging_warning w = (res, w') ->
  same_environment w w' /\ heap w' = heap w.
Proof.
  unfold try_except.
  destruct ((cursor_execute s ;; conn_commit) w) as [[[]|e] w1] eqn:H;
    apply ddl_session in H as (Henv & Hheap & _).
  - by intros [= <- <-].
  - unfold logging_warning. by intros [= <- <-].
Qed.

(** [create_tables] that returns has created the two tables, whatever
    became of the drops. *)
Lemma create_tables_ok w w' :
  create_tables w = (Ok tt, w') ->
  Sql.department (conn w') = Some Sql.empty /\
  Sql.employee (conn w') = Some Sql.empty /\
  heap w' = heap w /\ same_environment w w'.
Proof.
  intros H. unfold create_tables in H.
  apply bind_ok in H as (u1 & w1 & H1 & H).
  apply guarded_drop_session in H1 as (E1 & Hh1).
  apply bind_ok in H as (u2 & w2 & H2 & H).
  apply guarded_drop_session in H2 as (E2 & Hh2).
  apply bind_ok in H as (u3 & w3 & H3 & H).
  destruct u3. apply ddl_session in H3 as (E3 & Hh3 & Hr3).
  apply ddl_session in H as (E4 & Hh4 & Hr4).
  specialize (Hr3 eq_refl). specialize (Hr4 eq_refl).
  assert (Sql.department (conn w3) = Some Sql.empty) as Hd3.
  { simpl in Hr3. destruct (Sql.department (conn w2)); [done|].
    injection Hr3 as <-. done. }
  simpl in Hr4. destruct (Sql.employee (conn w3)); [done|].
  rewrite Hd3 in Hr4. injection Hr4 as Hr4. rewrite <- Hr4. simpl.
  split_and!; [done|done|congruence|].
  eauto using same_environment_trans.
Qed.

Lemma ddl_run s w db :
  quiet w -> Sql.run s (conn w) = Ok db ->
  (cursor_execute s ;; conn_commit) w
  = (Ok tt, record (Call commit None) (record (Call (execute s) None) (with_conn db w))).
Proof.
  intros Hq Hr. rewrite (bind_run _ _ _ _ _ (cursor_execute_run s w db Hq Hr)).
  unfold conn_commit. by rewrite (session_call_run commit _ _ tt db).
Qed.

Lemma ddl_fail s w e :
  quiet w -> Sql.run s (conn w) = Raise e ->
  (cursor_execute s ;; conn_commit) w = (Raise e, record (Call (execute s) (Some e)) w).
Proof.
  intros Hq Hr. unfold bind, cursor_execute, session_call. by rewrite Hq, Hr.
Qed.

(** A guarded drop in a quiet world: the table goes when the database
    lets it go, and the refusal is reported otherwise. *)
Lemma guarded_drop_run s w :
  quiet w ->
  exists w',
    try_except (cursor_execute s ;; conn_commit) logging_warning w = (Ok tt, w') /\
    quiet w' /\
    conn w' = match Sql.run s (conn w) with Ok db => db | Raise _ => conn w end /\
    warnings (trace w')
    = warnings (trace w) ++ match Sql.run s (conn w) with Ok _ => [] | Raise e => [e] end.
Proof.
  intros Hq. unfold try_except. destruct (Sql.run s (conn w)) as [db|e] eqn:Hr.
  - rewrite (ddl_run s w db Hq Hr). eexists. split_and!; [done|done|done|].
    simpl. rewrite !warnings_app. simpl. by rewrite !app_nil_r.
  - rewrite (ddl_fail s w e Hq Hr). unfold logging_warning. eexists.
    split_and!; [done|done|done|].
    simpl. rewrite !warnings_app. simpl. by rewrite app_nil_r.
Qed.

(** In a quiet world [create_tables] returns, whatever tables it finds,
    and reports every table that it did not find. *)
Lemma create_tables_run w :
  quiet w ->
  exists w',
    create_tables w = (Ok tt, w') /\
    warnings (trace w')
    = warnings (trace w) ++ missing (Sql.employee (conn w))
                         ++ missing (Sql.department (conn w)).
Proof.
  intros Hq. unfold create_tables, Employee.drop_table, Department.drop_table,
    Department.create_table, Employee.create_table.
  destruct (guarded_drop_run DROP_TABLE_employee w Hq) as (w1 & H1 & Hq1 & Hc1 & Hw1).
  rewrite (bind_run _ _ _ _ _ H1).
  destruct (guarded_drop_run DROP_TABLE_department w1 Hq1) as (w2 & H2 & Hq2 & Hc2 & Hw2).
  rewrite (bind_run _ _ _ _ _ H2).
  assert (Sql.employee (conn w2) = None /\ Sql.department (conn w2) = None /\
          warnings (trace w2)
          = warnings (trace w) ++ missing (Sql.employee (conn w))
                               ++ missing (Sql.department (conn w))) as (He2 & Hd2 & Hw).
  { rewrite Hw2, Hw1, Hc2, <- app_assoc. clear Hw1 Hw2 Hc2 H1 H2.
    destruct (conn w) as [dt et li pe]. simpl in *.
    destruct et as [et|], dt as [dt|]; simpl in Hc1; rewrite Hc1; simpl; done. }
  assert (Sql.run CREATE_TABLE_department (conn w2)
          = Ok {| Sql.department := Some Sql.empty; Sql.employee := None;
                  Sql.last_identity := Sql.last_identity (conn w2);
                  Sql.pending := None |}) as Hr3.
  { simpl. by rewrite Hd2, He2. }
  rewrite (bind_run _ _ _ _ _ (ddl_run _ _ _ Hq2 Hr3)).
  set (w3 := record _ _). assert (quiet w3) as Hq3 by done.
  assert (Sql.run CREATE_TABLE_employee (conn w3)
          = Ok {| Sql.department := Some Sql.empty; Sql.employee := Some Sql.empty;
                  Sql.last_identity := Sql.last_identity (conn w2);
                  Sql.pending := None |}) as Hr4.
  { done. }
  rewrite (ddl_run _ _ _ Hq3 Hr4). eexists. split; [done|].
  simpl. rewrite !warnings_app. simpl. by rewrite !app_nil_r.
Qed.

(* ===================================================================== *)
(** ** Runs that go through *)
(* ===================================================================== *)

Lemma asked_ask p f : Faker.asked (Faker.ask p f).2 = Faker.asked f ++ [p].
Proof. unfold Faker.asked. simpl. by rewrite fmap_app. Qed.

Lemma answering_ask p ps f :
  answering f (p :: ps) = true ->
  exists nm, (Faker.ask p f).1 = Ok nm /\ answering (Faker.ask p f).2 ps = true.
Proof.
  unfold answering. rewrite asked_ask. cbn [answers forallb].
  intros [Hp Hps]%andb_true_iff. unfold answered in Hp. cbn [snd] in Hp.
  unfold Faker.ask. cbn [fst snd Faker.generator].
  destruct (Faker.generator f (Faker.asked f ++ [p])) as [nm|] eqn:E; [|done].
  by exists nm.
Qed.

Lemma answering_app f ps qs :
  answering f (ps ++ qs) = true -> answering f ps = true.
Proof.
  unfold answering. rewrite answers_app, forallb_app. by intros [H _]%andb_true_iff.
Qed.

(** A generator that answers [ps ++ qs] answers [qs] once it was asked
    [ps]. *)
Lemma answering_told f f' ps qs :
  told f f' ps -> answering f (ps ++ qs) = true -> answering f' qs = true.
Proof.
  intros [Hg Hh]. unfold answering.
  rewrite answers_app, forallb_app. intros [_ H]%andb_true_iff.
  rewrite Hg. unfold Faker.asked at 1. by rewrite Hh, fmap_app, answers_fst.
Qed.

Lemma has_add_ne {R : Type} (r : R) (t : Sql.table R) k :
  k <> Sql.next_identity t -> Sql.has (Sql.add r t) k = Sql.has t k.
Proof.
  intros Hk. unfold Sql.has, Sql.add. simpl. by rewrite lookup_insert_ne.
Qed.

Lemma free_add {R : Type} (r : R) (t : Sql.table R) n : forall k,
  Sql.next_identity t < k -> free (Sql.add r t) k n = free t k n.
Proof.
  induction n as [|n IH]; intros k Hk; [done|].
  simpl. rewrite has_add_ne by lia. by rewrite IH by lia.
Qed.

(** A table with room for a row hands out its next identity value, and
    has room for the rest once it holds the row. *)
Lemma room_S {R : Type} (r : R) (t : Sql.table R) n :
  room t (S n) = true ->
  Sql.identity t = Ok (Sql.next_identity t) /\ room (Sql.add r t) n = true.
Proof.
  unfold room. simpl. intros [[Hfit Hhas]%andb_true_iff Hfree]%andb_true_iff.
  apply negb_true_iff in Hhas. split.
  - unfold Sql.identity. by rewrite Hfit, Hhas.
  - by rewrite free_add by lia.
Qed.

Lemma free_fresh {R : Type} (t : Sql.table R) n : forall k,
  (forall j, k <= j -> Sql.rows t !! j = None) ->
  -2147483648 <= k -> k + Z.of_nat n <= 2147483648 ->
  free t k n = true.
Proof.
  induction n as [|n IH]; intros k Hk Hlo Hhi; [done|].
  simpl. rewrite IH by (try intros j Hj; try apply Hk; lia).
  unfold Sql.fits_integer, Sql.has. rewrite (Hk k) by lia.
  rewrite bool_decide_eq_false_2 by (by intros [? ?]).
  rewrite !andb_true_r. apply andb_true_iff. split; apply Z.leb_le; lia.
Qed.

(** A table that was filled by inserts only has room as long as the
    identity values fit into [INTEGER]. *)
Lemma room_keyed {R : Type} (t : Sql.table R) n :
  well_keyed t ->
  -2147483648 <= Sql.next_identity t ->
  Sql.next_identity t + Z.of_nat n <= 2147483648 ->
  room t n = true.
Proof.
  intros Hk Hlo Hhi. apply free_fresh; [|done|done].
  intros j Hj. destruct (Sql.rows t !! j) eqn:E; [|done].
  assert (j < Sql.next_identity t) by (apply Hk; eauto). lia.
Qed.

Lemma room_empty {R : Type} n :
  Z.of_nat n <= 2147483647 -> room (@Sql.empty R) n = true.
Proof.
  intros Hn.
  apply room_keyed; [apply empty_keyed| |]; cbn [Sql.next_identity Sql.empty]; lia.
Qed.

(** In a quiet world with a department table that takes one more row,
    [Department(name)] returns. *)
Lemma Department_init_run nm w dt :
  quiet w -> Sql.department (conn w) = Some dt ->
  Sql.identity dt = Ok (Sql.next_identity dt) ->
  exists w', Department.__init__ nm w = (Ok (length (heap w)), w').
Proof.
  intros Hq Hdt Hident. destruct (shorten_100 nm) as (short & Hshort & Hlen & _).
  unfold Department.__init__. rewrite Hshort. unfold bind at 1, lift. unfold bind at 1, new.
  set (d := DepartmentObject.Build_t _ _). set (w1 := record _ _).
  assert (department_at w1 (length (heap w)) = Some d) as Hat.
  { unfold department_at. simpl. by rewrite list_lookup_middle. }
  assert (exists w', Department.save (length (heap w)) w1 = (Ok tt, w')) as [w' Hw'].
  { unfold Department.save.
    rewrite (bind_run _ _ _ _ _ (Department_attributes_run _ _ _ Hat)).
    cbn [DepartmentObject.id d].
    assert (exists db, Sql.run (INSERT_INTO_department short) (conn w1) = Ok db /\
                       Sql.last_identity db = Some (Sql.next_identity dt))
      as (db & Hrun & Hlast).
    { simpl. rewrite Hdt, Hident. unfold Sql.fits_name.
      destruct (length short <=? 100)%nat eqn:E; [by eexists|].
      apply Nat.leb_gt in E. lia. }
    apply department_at_heap in Hat.
    exact (insert_and_commit_run _ _ _ w1 db (Sql.next_identity dt) Hq Hat Hrun Hlast). }
  exists w'. unfold bind. by rewrite Hw'.
Qed.

Lemma run_insert_employee_go db et dt dv chf nm sal :
  Sql.employee db = Some et -> Sql.department db = Some dt -> Sql.has dt dv = true ->
  (forall cv, chf = Some cv -> Sql.has et cv = true) ->
  Sql.fits_name nm = true -> Sql.fits_integer sal = true ->
  Sql.identity et = Ok (Sql.next_identity et) ->
  exists db',
    Sql.run (INSERT_INTO_employee (Some dv) chf nm sal) db = Ok db' /\
    Sql.last_identity db' = Some (Sql.next_identity et).
Proof.
  intros Het Hdt Hhas Hchf Hnm Hsal Hident. simpl. unfold Sql.check_employee.
  rewrite Het, Hdt, Hhas, Hnm, Hsal. simpl.
  destruct chf as [cv|]; [rewrite (Hchf cv eq_refl)|]; simpl; rewrite Hident; by eexists.
Qed.

(** In a quiet world, [Employee(...)] returns when the department and the
    chief carry identities that are keys of their tables, the salary is
    an [INTEGER] and the employee table takes one more row. *)
Lemma Employee_init_go dep chf nm sal w dv dt et :
  quiet w -> allocated w dep -> id_of w dep = Some dv ->
  Sql.department (conn w) = Some dt -> Sql.has dt dv = true ->
  Sql.employee (conn w) = Some et ->
  (forall c, chf = Some c ->
     allocated w c /\ exists cv, id_of w c = Some cv /\ Sql.has et cv = true) ->
  Sql.fits_integer sal = true ->
  Sql.identity et = Ok (Sql.next_identity et) ->
  exists w', Employee.__init__ dep chf nm sal w = (Ok (length (heap w)), w').
Proof.
  intros Hq Hdep Hdv Hdt Hhas Het Hchf Hsal Hident.
  destruct (shorten_100 nm) as (short & Hshort & Hlen & _).
  unfold Employee.__init__. rewrite Hshort. unfold bind at 1, lift. unfold bind at 1, new.
  set (r := EmployeeObject.Build_t _ _ _ _ _). set (w1 := record _ _).
  assert (employee_at w1 (length (heap w)) = Some r) as Hat.
  { unfold employee_at. simpl. by rewrite list_lookup_middle. }
  assert (allocated w1 dep) as Hdep1 by (by eapply (allocated_mono w w1 [employee_object r])).
  assert (forall c, EmployeeObject.chief r = Some c -> allocated w1 c) as Hchf1.
  { intros c Hc. eapply (allocated_mono w w1 [employee_object r]); [done|]. by apply Hchf. }
  assert (id_of w1 dep = Some dv) as Hdv1.
  { by rewrite (id_of_mono w w1 [employee_object r]). }
  assert (forall cv, chief_key w1 r = Some cv -> Sql.has et cv = true) as Hkey.
  { unfold chief_key. simpl. destruct chf as [c|]; [|done]. intros cv Hcv.
    destruct (Hchf c eq_refl) as (Hc & cv' & Hcv' & Hhas').
    rewrite (id_of_mono w w1 [employee_object r]) in Hcv by done. congruence. }
  assert (exists w', Employee.save (length (heap w)) w1 = (Ok tt, w')) as [w' Hw'].
  { unfold Employee.save.
    rewrite (bind_run _ _ _ _ _ (Employee_attributes_run _ _ _ Hat)).
    cbn [EmployeeObject.id r].
    rewrite bind_assoc, (bind_run _ _ _ _ _ (get_id_run _ _ Hdep1)), Hdv1.
    rewrite bind_assoc, (bind_run _ _ _ _ _ (chief_id_run _ _ Hchf1)).
    fold (chief_key w1 r).
    destruct (run_insert_employee_go (conn w1) et dt dv (chief_key w1 r) short sal)
      as (db & Hrun & Hlast); try done.
    { by apply Nat.leb_le. }
    apply employee_at_heap in Hat.
    exact (insert_and_commit_run _ _ _ w1 db (Sql.next_identity et) Hq Hat Hrun Hlast). }
  exists w'. unfold bind. by rewrite Hw'.
Qed.

Lemma ready_lookup w deps emps n :
  ready w deps emps n ->
  Forall (allocated w) deps /\ Forall (allocated w) emps.
Proof.
  intros (_ & _ & dt & et & _ & _ & _ & Hd & He).
  split; eapply Forall_impl; eauto; by intros ? [? _].
Qed.

(** In a world that is ready for one more pass, a pass of the employee
    generator returns. *)
Lemma employees_pass_run deps emps w n :
  ready w deps emps (S n) -> deps <> [] ->
  exists a w', employees_pass deps emps w = (Ok a, w').
Proof.
  intros (Hq & Hh & dt & et & Hdt & Het & Hroom & Hdeps & Hemps) Hne.
  unfold employees_pass.
  set (g := draws (random w)). set (u := used (random w)).
  assert (0 < len deps) as Hlen by (unfold len; destruct deps; simpl; [done|lia]).
  rewrite (bind_run _ _ _ _ _ (randint_run 0 (len deps - 1) _ ltac:(lia))).
  replace (len deps - 1 - 0 + 1) with (len deps) by lia.
  fold g u. rewrite Z.add_0_l.
  pose proof (Z.mod_pos_bound (g u) (len deps) Hlen) as Hpos.
  destruct (lookup_lt_is_Some_2 deps (Z.to_nat (g u mod len deps))) as [d Hd];
    [unfold len in *; lia|].
  rewrite Forall_forall in Hdeps, Hemps.
  destruct (Hdeps d (list_elem_of_lookup_2 _ _ _ Hd)) as (Hdalloc & dv & Hdv & Hhas).
  (* the chief *)
  assert (exists chf w2,
            (chief_pos <- (if 0 <? len emps then randint (-1) (len emps - 1) else ret (-1)) ;;
             department <- getitem deps (g u mod len deps) ;;
             chief <- (if -1 <? chief_pos
                       then c <- getitem emps chief_pos ;; ret (Some c)
                       else ret None) ;;
             name <- fake_unique Faker.name ;;
             salary <- randint 20000 100001 ;;
             Employee.__init__ department chief name salary) (drawn w)
            = (name <- fake_unique Faker.name ;;
               salary <- randint 20000 100001 ;;
               Employee.__init__ d chf name salary) w2 /\
            same_session w w2 /\ fake w2 = fake w /\
            forall c, chf = Some c -> c ∈ emps) as (chf & w2 & -> & S2 & F2 & Hchf).
  { destruct (0 <? len emps) eqn:E.
    - apply Z.ltb_lt in E.
      rewrite (bind_run _ _ _ _ _ (randint_run (-1) (len emps - 1) _ ltac:(lia))).
      replace (len emps - 1 - -1 + 1) with (len emps + 1) by lia.
      rewrite (bind_run _ _ _ _ _ (getitem_run deps (g u mod len deps) d _ ltac:(lia) Hd)).
      set (k := draws (random (drawn w)) (used (random (drawn w))) mod (len emps + 1)).
      pose proof (Z.mod_pos_bound (draws (random (drawn w)) (used (random (drawn w))))
                    (len emps + 1) ltac:(lia)) as Hk. fold k in Hk.
      destruct (-1 <? -1 + k) eqn:E1.
      + apply Z.ltb_lt in E1.
        destruct (lookup_lt_is_Some_2 emps (Z.to_nat (-1 + k))) as [c Hc];
          [unfold len in *; lia|].
        rewrite bind_assoc.
        rewrite (bind_run _ _ _ _ _ (getitem_run emps (-1 + k) c _ ltac:(lia) Hc)).
        exists (Some c), (drawn (drawn w)). split_and!; [done|done|done|].
        intros ? [= <-]. by eapply list_elem_of_lookup_2.
      + exists None, (drawn (drawn w)). split_and!; done.
    - unfold bind at 1, ret.
      rewrite (bind_run _ _ _ _ _ (getitem_run deps (g u mod len deps) d _ ltac:(lia) Hd)).
      exists None, (drawn w). split_and!; done. }
  destruct S2 as (Hh2 & Hc2 & Ht2 & Hf2).
  unfold bind at 1, fake_unique.
  destruct (answering_ask Faker.name (repeat Faker.name n) (fake w2))
    as (nm & Hnm & _); [by rewrite F2|].
  destruct (Faker.ask Faker.name (fake w2)) as [r f'] eqn:Eask. simpl in Hnm. subst r.
  rewrite (bind_run _ _ _ _ _ (randint_run 20000 100001 _ ltac:(lia))).
  set (w3 := drawn _). set (sal := 20000 + _).
  assert (20000 <= sal <= 100001) as Hsal by (apply randint_range; lia).
  assert (heap w3 = heap w) as Hh3 by done.
  assert (conn w3 = conn w) as Hc3 by done.
  assert (quiet w3) as Hq3 by (intros k; simpl; rewrite Hf2; apply Hq).
  assert (forall x, allocated w x -> allocated w3 x) as Ha3.
  { intros x. unfold allocated. by rewrite Hh3. }
  assert (forall x, id_of w3 x = id_of w x) as Hi3.
  { intros x. unfold id_of. by rewrite Hh3. }
  destruct (Employee_init_go d chf nm sal w3 dv dt et) as [w' Hw'].
  - exact Hq3.
  - by apply Ha3.
  - by rewrite Hi3.
  - by rewrite Hc3.
  - done.
  - by rewrite Hc3.
  - intros c Hc. destruct (Hemps c (Hchf c Hc)) as (Hcalloc & cv & Hcv & Hchas).
    split; [by apply Ha3|]. exists cv. by rewrite Hi3.
  - unfold Sql.fits_integer. apply andb_true_iff. split; apply Z.leb_le; lia.
  - set (row := {| Sql.department_id := 0; Sql.chief_id := None;
                   Sql.name := []; Sql.salary := 0 |}).
    by destruct (room_S row et n Hroom).
  - eauto.
Qed.

(** A pass asks the generator for one name. *)
Lemma employees_pass_told deps emps w a w' :
  Forall (allocated w) deps -> Forall (allocated w) emps -> deps <> [] ->
  employees_pass deps emps w = (Ok a, w') ->
  told (fake w) (fake w') [Faker.name].
Proof.
  intros Hdeps Hemps Hne H.
  assert (employees_loop 1 deps emps w = (Ok (emps ++ [a]), w')) as Hloop.
  { simpl. by rewrite (bind_run _ _ _ _ _ H). }
  apply employees_loop_told in Hloop as (m & _ & Htold & Hm); [|done..].
  by rewrite (Hm _ eq_refl) in Htold.
Qed.

(** A pass that returns leaves the world ready for the next one. *)
Lemma ready_next deps emps w a w' n :
  ready w deps emps (S n) -> deps <> [] ->
  employees_pass deps emps w = (Ok a, w') ->
  ready w' deps (emps ++ [a]) n.
Proof.
  intros Hready Hne H. destruct (ready_lookup _ _ _ _ Hready) as [Hda Hea].
  destruct Hready as (Hq & Hh & dt & et & Hdt & Het & Hroom & Hdeps & Hemps).
  pose proof (employees_pass_told _ _ _ _ _ Hda Hea Hne H) as Htold.
  apply employees_pass_db in H; [|done|done].
  destruct H as (r0 & et' & dv & dt' & -> & Hheap & Hid & Hdep & Hchf & Hsal & Hnm & Het'
                 & Hdv & Hdt' & Hhas & Hchas & Hemp & Hdept & Ht & Hfa & Hfk).
  assert (et' = et) as -> by congruence.
  split_and!.
  - intros k. rewrite Hfa. apply Hq.
  - by apply (answering_told _ _ [Faker.name] _ Htold).
  - eexists dt, _. split_and!; [congruence|exact Hemp| | |].
    + by eapply room_S.
    + eapply Forall_impl; [exact Hdeps|]. intros d (Hd & dv' & Hdv' & Hhas').
      split; [by eapply allocated_mono|]. exists dv'.
      by rewrite (id_of_mono w w' _ _ Hheap Hd).
    + apply Forall_app. split.
      * eapply Forall_impl; [exact Hemps|]. intros c (Hc & cv & Hcv & Hhas').
        split; [by eapply allocated_mono|]. exists cv.
        rewrite (id_of_mono w w' _ _ Hheap Hc). split; [done|]. by apply has_add.
      * constructor; [|done]. split; [by eapply allocated_new|].
        exists (Sql.next_identity et). split; [|apply has_added].
        unfold id_of. rewrite Hheap, list_lookup_middle by done. done.
Qed.

Lemma employees_loop_run n : forall deps emps0 w,
  ready w deps emps0 n -> deps <> [] ->
  exists emps w', employees_loop n deps emps0 w = (Ok emps, w').
Proof.
  induction n as [|n IH]; intros deps emps0 w Hready Hne; [by eexists _, _|].
  destruct (employees_pass_run _ _ _ _ Hready Hne) as (a & w1 & H1).
  simpl. rewrite (bind_run _ _ _ _ _ H1).
  apply IH; [|done]. by eapply ready_next.
Qed.

Lemma departments_loop_run n : forall deps0 w dt,
  quiet w -> answering (fake w) (repeat Faker.catch_phrase n) = true ->
  Sql.department (conn w) = Some dt -> room dt n = true ->
  exists deps w', departments_loop n deps0 w = (Ok deps, w').
Proof.
  induction n as [|n IH]; intros deps0 w dt Hq Hh Hdt Hroom; [by eexists _, _|].
  simpl. unfold bind at 1, fake_unique.
  destruct (answering_ask Faker.catch_phrase _ (fake w) Hh) as (phrase & Hphrase & Hh').
  destruct (Faker.ask Faker.catch_phrase (fake w)) as [r f'] eqn:Eask.
  simpl in Hphrase, Hh'. subst r.
  destruct (shorten_100 phrase) as (short & Hshort & _).
  destruct (room_S short dt n Hroom) as [Hident Hroom'].
  destruct (Department_init_run phrase (with_fake f' w) dt) as [w1 H1]; [done|done|done|].
  rewrite (bind_run _ _ _ _ _ H1).
  apply Department_init_db in H1 as H1'.
  destruct H1' as (short' & dt' & Hs' & _ & Hdt' & _ & Hd & _ & _ & (Hfa & _ & Hfk)).
  simpl in Hdt'. rewrite Hdt in Hdt'. injection Hdt' as <-.
  rewrite Hshort in Hs'. injection Hs' as <-.
  eapply (IH _ _ (Sql.add short dt)); [|by rewrite Hfk|done|done].
  intros k. rewrite Hfa. apply Hq.
Qed.

(** In a quiet world with the two tables, [create_fake_data] returns when
    the generator answers the requests of a complete run and the tables
    take the rows of a complete run. *)
Lemma create_fake_data_run d e w dt et :
  quiet w -> answering (fake w) (requests d e) = true ->
  Sql.department (conn w) = Some dt -> Sql.employee (conn w) = Some et ->
  room dt (Z.to_nat d) = true ->
  room et (match Z.to_nat d with O => O | S _ => Z.to_nat e end) = true ->
  exists deps emps w', create_fake_data d e w = (Ok (deps, emps), w').
Proof.
  intros Hq Hh Hdt Het Hrd Hre. unfold create_fake_data, get_random_departments.
  destruct (departments_loop_run (Z.to_nat d) [] w dt Hq) as (deps & w1 & H1);
    [by eapply answering_app|done|done|].
  rewrite (bind_run _ _ _ _ _ H1).
  apply departments_loop_told in H1 as Htold. destruct Htold as (m & _ & Htold & Hm).
  rewrite (Hm _ eq_refl) in Htold. clear m Hm.
  apply (departments_loop_db _ _ _ _ _ dt) in H1 as H1'; [|done].
  destruct H1' as (ds & Hlen & Hdeps & Hheap & Hids & Hd & He & Ht & Hfa & Hr & Hfk).
  simpl in Hdeps.
  unfold get_random_employees. destruct (len deps <? 1) eqn:E.
  { unfold bind, ret. by eexists _, _, _. }
  apply Z.ltb_ge in E.
  assert (deps <> []) as Hne by (intros ->; unfold len in E; simpl in E; lia).
  assert (exists k, Z.to_nat d = S k) as [k Hk].
  { rewrite Hdeps in E. unfold len in E. rewrite length_seq in E.
    destruct (Z.to_nat d); [lia|eauto]. }
  destruct (employees_loop_run (Z.to_nat e) deps [] w1) as (emps & w2 & H2); [|done|].
  { split_and!.
    - intros j. rewrite Hfa. apply Hq.
    - unfold requests in Hh. rewrite Hk in Hh, Htold.
      exact (answering_told _ _ _ _ Htold Hh).
    - eexists _, et. split_and!; [exact Hd|congruence| | |constructor].
      + by rewrite Hk in Hre.
      + rewrite Forall_forall. intros a Ha. rewrite Hdeps in Ha.
        apply elem_of_seq in Ha as [Ha1 Ha2].
        destruct (lookup_lt_is_Some_2 ds (a - length (heap w))%nat ltac:(lia)) as [dd Hdd].
        destruct (Hids _ _ Hdd) as [Hid _].
        assert (heap w1 !! a = Some (department_object dd)) as Hat.
        { rewrite Hheap, lookup_app_r by lia. by rewrite list_lookup_fmap, Hdd. }
        split; [by eexists|]. eexists. split.
        * unfold id_of. rewrite Hat. exact Hid.
        * apply has_true. erewrite inserted_new; [done|].
          rewrite list_lookup_fmap, Hdd. done. }
  rewrite (bind_run _ _ _ _ _ H2). unfold ret. by eexists _, _, _.
Qed.

(* ===================================================================== *)
(** ** Where an exception comes from *)
(* ===================================================================== *)

Lemma interrupted_blamed plan e t w w0 front :
  interrupted plan e t -> trace w = trace w0 ++ front ++ t -> blamed w e.
Proof.
  intros (before & c & after & _ & ->) Ht. left. exists c.
  by rewrite Ht, !app_assoc, last_snoc.
Qed.

Lemma ddl_blamed s w e w' :
  (cursor_execute s ;; conn_commit) w = (Raise e, w') -> blamed w' e.
Proof.
  intros (t & Ht & Hfol)%ddl_inv. by eapply (interrupted_blamed _ _ _ _ w []).
Qed.

Lemma create_tables_blamed w e w' :
  create_tables w = (Raise e, w') -> blamed w' e.
Proof.
  intros H. unfold create_tables in H.
  apply bind_inv in H as [(u1 & w1 & H1 & H)|(e1 & H1 & _)]; cycle 1.
  { by apply guarded_drop_inv in H1 as [? _]. }
  apply bind_inv in H as [(u2 & w2 & H2 & H)|(e2 & H2 & _)]; cycle 1.
  { by apply guarded_drop_inv in H2 as [? _]. }
  apply bind_inv in H as [(u3 & w3 & H3 & H)|(e3 & H3 & [= <-])].
  - by eapply ddl_blamed.
  - by eapply ddl_blamed.
Qed.

Lemma close_blamed c w e w' : close c w = (Raise e, w') -> blamed w' e.
Proof.
  intros [(e' & [= <-] & -> & _)|(a & db & ? & _)]%session_call_inv; [|done].
  left. exists c. simpl. by rewrite last_snoc.
Qed.

Lemma fake_unique_blamed p w e w' : fake_unique p w = (Raise e, w') -> blamed w' e.
Proof.
  intros [Hres ->]%fake_unique_inv. right. exists p. cbn [fake with_fake].
  by rewrite ask_history, last_snoc, <- Hres.
Qed.

Lemma Department_init_blamed nm w e w' :
  Department.__init__ nm w = (Raise e, w') -> blamed w' e.
Proof.
  intros (short & t & v & idv & _ & _ & Ht & Hfol & _)%Department_init_inv.
  by eapply (interrupted_blamed _ _ _ _ w [New _]).
Qed.

Lemma departments_loop_blamed n : forall deps0 w e w',
  departments_loop n deps0 w = (Raise e, w') -> blamed w' e.
Proof.
  induction n as [|n IH]; intros deps0 w e w' H; [done|]. simpl in H.
  apply bind_inv in H as [(phrase & w1 & H1 & H)|(e1 & H1 & [= <-])];
    [|by eapply fake_unique_blamed].
  apply bind_inv in H as [(a & w2 & H2 & H)|(e2 & H2 & [= <-])];
    [|by eapply Department_init_blamed].
  by eapply IH.
Qed.

Lemma employees_pass_blamed deps emps w e w' :
  Forall (allocated w) deps -> Forall (allocated w) emps -> deps <> [] ->
  employees_pass deps emps w = (Raise e, w') -> blamed w' e.
Proof.
  intros Hdeps Hemps Hne H.
  apply employees_pass_inv in H; [|done|done|done].
  destruct H as (d & chf & _ & _ & _ & _ & Hfk & _ & _ & H).
  destruct (Faker.ask Faker.name (fake w)) as [[nm|e'] f'] eqn:Eask; simpl in H, Hfk.
  - destruct H as (_ & short & t & v & idv & _ & Ht & Hfol & _).
    by eapply (interrupted_blamed _ _ _ _ w [New _]).
  - destruct H as ([= <-] & _). right. exists Faker.name. rewrite Hfk.
    pose proof (ask_history Faker.name (fake w)) as Hh. rewrite Eask in Hh. simpl in Hh.
    by rewrite Hh, last_snoc.
Qed.

Lemma employees_loop_blamed n : forall deps emps0 w e w',
  Forall (allocated w) deps -> Forall (allocated w) emps0 -> deps <> [] ->
  employees_loop n deps emps0 w = (Raise e, w') -> blamed w' e.
Proof.
  induction n as [|n IH]; intros deps emps0 w e w' Hdeps Hemps Hne H; [done|].
  simpl in H.
  apply bind_inv in H as [(a & w1 & H1 & H)|(e1 & H1 & [= <-])];
    [|exact (employees_pass_blamed _ _ _ _ _ Hdeps Hemps Hne H1)].
  apply employees_pass_db in H1; [|done|done].
  destruct H1 as (r0 & _ & _ & _ & -> & Hheap & _).
  eapply IH; [| |done|exact H].
  - eapply Forall_impl; [exact Hdeps|]. intros x. by apply (allocated_mono w w1 _ _ Hheap).
  - apply Forall_app. split.
    + eapply Forall_impl; [exact Hemps|]. intros x. by apply (allocated_mono w w1 _ _ Hheap).
    + constructor; [|done]. by eapply allocated_new.
Qed.

Lemma create_fake_data_blamed d e w e0 w' :
  create_fake_data d e w = (Raise e0, w') -> blamed w' e0.
Proof.
  intros H. unfold create_fake_data in H.
  apply bind_inv in H as [(deps & w1 & H1 & H)|(e1 & H1 & [= <-])];
    [|by eapply departments_loop_blamed].
  apply bind_inv in H as [(emps & w2 & H2 & H)|(e2 & H2 & [= <-])]; [done|].
  apply departments_loop_ok in H1 as (ds & Hlen & Hdeps & Hheap & _). simpl in Hdeps.
  unfold get_random_employees in H2. destruct (len deps <? 1) eqn:E; [done|].
  apply Z.ltb_ge in E.
  eapply employees_loop_blamed; [| | |exact H2].
  - rewrite Hdeps, <- Hlen. by eapply departments_allocated.
  - constructor.
  - intros ->. unfold len in E. simpl in E. lia.
Qed.

Lemma randint_returns a b w e w' : a <= b -> randint a b w <> (Raise e, w').
Proof. intros Hab. by rewrite randint_run. Qed.

Lemma main_blamed w e w' : main w = (Raise e, w') -> blamed w' e.
Proof.
  intros H. unfold main in H.
  apply bind_inv in H as [(u1 & w1 & H1 & H)|(e1 & H1 & [= <-])];
    [|by eapply create_tables_blamed].
  apply bind_inv in H as [(d & w2 & H2 & H)|(e2 & H2 & _)];
    [|by apply randint_returns in H2].
  apply bind_inv in H as [(n & w3 & H3 & H)|(e3 & H3 & _)];
    [|by apply randint_returns in H3].
  apply bind_inv in H as [(r & w4 & H4 & H)|(e4 & H4 & [= <-])];
    [|by eapply create_fake_data_blamed].
  apply bind_inv in H as [(u5 & w5 & H5 & H)|(e5 & H5 & [= <-])];
    [|by eapply close_blamed].
  by eapply close_blamed.
Qed.

(* ===================================================================== *)
(** ** What the script asks the generator *)
(* ===================================================================== *)

(** Whatever becomes of [create_tables] and of closing the cursor or the
    connection, they leave the objects, the random module and the
    generator alone. *)
Lemma create_tables_session w res w' :
  create_tables w = (res, w') -> same_environment w w' /\ heap w' = heap w.
Proof.
  intros H. unfold create_tables in H.
  apply bind_inv in H as [(u1 & w1 & H1 & H)|(e1 & H1 & _)]; cycle 1.
  { by apply guarded_drop_session in H1. }
  apply guarded_drop_session in H1 as (E1 & Hh1).
  apply bind_inv in H as [(u2 & w2 & H2 & H)|(e2 & H2 & _)]; cycle 1.
  { apply guarded_drop_session in H2 as (E2 & Hh2).
    split; [by eapply same_environment_trans|congruence]. }
  apply guarded_drop_session in H2 as (E2 & Hh2).
  apply bind_inv in H as [(u3 & w3 & H3 & H)|(e3 & H3 & _)]; cycle 1.
  { apply ddl_session in H3 as (E3 & Hh3 & _).
    split; [eauto using same_environment_trans|congruence]. }
  apply ddl_session in H3 as (E3 & Hh3 & _).
  apply ddl_session in H as (E4 & Hh4 & _).
  split; [eauto using same_environment_trans|congruence].
Qed.

Lemma close_session c w res w' :
  close c w = (res, w') -> same_environment w w' /\ heap w' = heap w.
Proof.
  by intros [(e & _ & -> & _)|(a & db & _ & -> & _)]%session_call_inv.
Qed.

(** Whatever becomes of the script, what it has asked the generator
    seeded with 73 is a prefix of the requests that the two amounts fix,
    and all of them when the script runs to its end. *)
Lemma main_told lib db plan entropy res w' :
  main (boot lib db plan entropy) = (res, w') ->
  exists ps,
    ps `prefix_of` requests (3 + entropy 0%nat mod 8) (10 + entropy 1%nat mod 41) /\
    told (Faker.seed lib 73) (fake w') ps /\
    (res = Ok tt ->
     ps = requests (3 + entropy 0%nat mod 8) (10 + entropy 1%nat mod 41)).
Proof.
  intros H. unfold main in H.
  apply bind_inv in H as [(u1 & w1 & H1 & H)|(e1 & H1 & ->)]; cycle 1.
  { apply create_tables_session in H1 as ((_ & _ & Hfk) & _).
    exists []. split_and!; [apply prefix_nil| |done].
    rewrite Hfk. apply told_nil. }
  apply create_tables_session in H1 as ((_ & Hr & Hfk) & _).
  rewrite (bind_run _ _ _ _ _ (randint_run 3 10 _ ltac:(lia))) in H.
  rewrite (bind_run _ _ _ _ _ (randint_run 10 50 _ ltac:(lia))) in H.
  assert (draws (random w1) (used (random w1)) = entropy 0%nat) as Hd0
    by (by rewrite Hr).
  assert (draws (random (drawn w1)) (used (random (drawn w1))) = entropy 1%nat) as Hd1
    by (cbn [drawn random with_random draws used]; by rewrite Hr).
  rewrite Hd0, Hd1 in H.
  change (10 - 3 + 1) with 8 in H. change (50 - 10 + 1) with 41 in H.
  set (d := 3 + entropy 0%nat mod 8) in *. set (n := 10 + entropy 1%nat mod 41) in *.
  assert (fake (drawn (drawn w1)) = Faker.seed lib 73) as Hseed by exact Hfk.
  apply bind_inv in H as [(x & w4 & H4 & H)|(e4 & H4 & ->)]; cycle 1.
  { apply create_fake_data_told in H4 as (ps & Hp & Htold & _). rewrite Hseed in Htold.
    exists ps. split_and!; done. }
  apply create_fake_data_told in H4 as (ps & Hp & Htold & Hok). rewrite Hseed in Htold.
  rewrite (Hok x eq_refl) in Htold.
  assert (fake w' = fake w4) as Hsame.
  { apply bind_inv in H as [(u5 & w5 & H5 & H)|(e5 & H5 & _)].
    - apply close_session in H5 as ((_ & _ & F5) & _).
      apply close_session in H as ((_ & _ & F6) & _). congruence.
    - by apply close_session in H5 as ((_ & _ & F5) & _). }
  exists (requests d n). rewrite Hsame. split_and!; done.
Qed.

(** When the script runs to its end, the names its entities store are the
    shortened answers of the generator, in order. *)
Lemma main_names lib db plan entropy w' :
  main (boot lib db plan entropy) = (Ok tt, w') ->
  names w' = shortened <$> Faker.history (fake w').
Proof.
  intros H. unfold main in H.
  apply bind_ok in H as (u1 & w1 & H1 & H). destruct u1.
  apply create_tables_ok in H1 as (Hdt & Het & Hh1 & (_ & _ & Hfk)).
  rewrite (bind_run _ _ _ _ _ (randint_run 3 10 _ ltac:(lia))) in H.
  rewrite (bind_run _ _ _ _ _ (randint_run 10 50 _ ltac:(lia))) in H.
  set (d := 3 + _) in H. set (n := 10 + _) in H. set (w3 := drawn (drawn w1)) in H.
  assert (heap w3 = []) as Hh3 by exact Hh1.
  assert (Faker.history (fake w3) = []) as Hf3 by (by cbn [w3 drawn fake with_random]; rewrite Hfk).
  apply bind_ok in H as ([deps emps] & w4 & H4 & H).
  assert (heap w' = heap w4 /\ fake w' = fake w4) as [Hheap Hfake].
  { apply bind_ok in H as (u5 & w5 & H5 & H).
    apply close_session in H5 as ((_ & _ & F5) & G5).
    apply close_session in H as ((_ & _ & F6) & G6). split; congruence. }
  assert (names w' = names w4) as ->.
  { unfold names, name_of. by rewrite Hheap. }
  rewrite Hfake.
  destruct (create_fake_data_names _ _ _ _ _ _ H4) as (Hld & Hle & Hnd & Hne).
  apply create_fake_data_told in H4 as Htold.
  destruct Htold as (ps & _ & [_ Hhist] & Hps). rewrite (Hps _ eq_refl) in Hhist.
  destruct (create_fake_data_db _ _ _ _ _ _ _ _ H4 Hdt Het)
    as (ds & rs & rows & Hlds & Hlrs & Hdeps & Hemps & Hh4 & _).
  rewrite Hh3 in Hdeps, Hemps, Hh4. rewrite Hf3 in Hnd, Hne, Hhist.
  simpl in Hdeps, Hemps, Hh4, Hnd, Hne, Hhist.
  assert (length (Faker.history (fake w4)) = (length deps + length emps)%nat) as Hlen.
  { rewrite Hhist, <- (length_fmap fst), answers_fst, Hld, Hle.
    unfold requests. rewrite length_app, repeat_length.
    destruct (Z.to_nat d); simpl; [lia|]. by rewrite repeat_length. }
  unfold names.
  rewrite Hh4, length_app, !length_fmap, seq_app, fmap_app, <- Hdeps. simpl.
  rewrite <- Hemps, Hnd, Hne, <- fmap_app, take_take_drop.
  by rewrite take_ge by lia.
Qed.

(** C9: two runs of the script, whatever their databases, faults and
    random draws, as long as the first two draws give both runs the same
    number of departments and the same number of employees.  The
    generator is seeded with 73 in both ([boot]), a seeded generator
    answers as its library [lib] prescribes for the seed and the requests
    made so far, and the script asks it for one catch phrase per
    department and then for one name per employee, whatever happens in
    between.  So the sequences of names and catch
    phrases the generator has produced in the two runs are one a prefix of
    the other (a run that raises stops asking); when both runs come to
    their end, the two sequences are the same, and so are the names that
    the departments and the employees store. *)
Theorem same_seed_same_names
    (lib : Z -> list Faker.provider -> result text)
    (db1 db2 : Sql.database) (plan1 plan2 : nat -> option exn)
    (entropy1 entropy2 : nat -> Z)
    (res1 res2 : result unit) (w1' w2' : world) :
  entropy1 0%nat mod 8 = entropy2 0%nat mod 8 ->
  entropy1 1%nat mod 41 = entropy2 1%nat mod 41 ->
  main (boot lib db1 plan1 entropy1) = (res1, w1') ->
  main (boot lib db2 plan2 entropy2) = (res2, w2') ->
  (Faker.history (fake w1') `prefix_of` Faker.history (fake w2') \/
   Faker.history (fake w2') `prefix_of` Faker.history (fake w1')) /\
  (res1 = Ok tt -> res2 = Ok tt ->
   Faker.history (fake w1') = Faker.history (fake w2') /\
   names w1' = names w2').
Proof.
  intros Hd He H1 H2.
  destruct (main_told _ _ _ _ _ _ H1) as (ps1 & Hp1 & [_ Hh1] & Hok1).
  destruct (main_told _ _ _ _ _ _ H2) as (ps2 & Hp2 & [_ Hh2] & Hok2).
  rewrite <- Hd, <- He in Hp2, Hok2. split.
  - rewrite Hh1, Hh2.
    destruct (prefix_weak_total _ _ _ Hp1 Hp2) as [Hp|Hp]; [left|right];
      by apply prefix_app, answers_prefix.
  - intros -> ->.
    assert (Faker.history (fake w1') = Faker.history (fake w2')) as Heq.
    { by rewrite Hh1, Hh2, (Hok1 eq_refl), (Hok2 eq_refl). }
    split; [done|].
    by rewrite (main_names _ _ _ _ _ H1), (main_names _ _ _ _ _ H2), Heq.
Qed.

Lemma same_seed_same_names_witness :
  let entropy1 := fun n : nat => Z.of_nat n in
  let entropy2 := fun n : nat => 8 + 34 * Z.of_nat n in
  let run1 := main (boot sample_seeded no_tables no_faults entropy1) in
  let run2 := main (boot sample_seeded sample_used no_faults entropy2) in
  entropy1 0%nat mod 8 = entropy2 0%nat mod 8 /\
  entropy1 1%nat mod 41 = entropy2 1%nat mod 41 /\
  run1.1 = Ok tt /\ run2.1 = Ok tt /\
  entropy1 0%nat <> entropy2 0%nat /\
  heap run1.2 <> heap run2.2 /\
  trace run1.2 <> trace run2.2 /\
  sample_seeded 73 [Faker.catch_phrase] <> sample_seeded 74 [Faker.catch_phrase] /\
  length (names run1.2) = 14%nat /\
  Faker.history (fake run1.2) = Faker.history (fake run2.2) /\
  names run1.2 = names run2.2.
Proof.
  intros entropy1 entropy2 run1 run2.
  assert (entropy1 0%nat mod 8 = entropy2 0%nat mod 8) as Hd by reflexivity.
  assert (entropy1 1%nat mod 41 = entropy2 1%nat mod 41) as He by reflexivity.
  assert (run1 = (Ok tt, run1.2)) as H1 by (vm_compute; reflexivity).
  assert (run2 = (Ok tt, run2.2)) as H2 by (vm_compute; reflexivity).
  split; [exact Hd|]. split; [exact He|].
  split; [by rewrite H1|]. split; [by rewrite H2|].
  split; [vm_compute; discriminate|]. split; [vm_compute; discriminate|].
  split; [vm_compute; discriminate|]. split; [vm_compute; discriminate|].
  split; [vm_compute; reflexivity|].
  exact (proj2 (same_seed_same_names sample_seeded no_tables sample_used
                  no_faults no_faults entropy1 entropy2 _ _ _ _ Hd He H1 H2)
           eq_refl eq_refl).
Defined.

(* ===================================================================== *)
(** ** Further properties: the stored name *)
(* ===================================================================== *)

(** The name that the two constructors store for [name], whatever becomes
    of the [save] that follows. *)
Lemma init_stores name w department chief salary short :
  textwrap.shorten name 100 (str "") = Ok short ->
  name_of (Department.__init__ name w).2 (length (heap w)) = Some short /\
  name_of (Employee.__init__ department chief name salary w).2 (length (heap w))
    = Some short.
Proof.
  intros Hshort. split.
  - destruct (Department.__init__ name w) as [res w'] eqn:H.
    apply Department_init_inv in H
      as (short' & t & v & idv & Hshort' & _ & _ & _ & Hheap & _).
    assert (short' = short) as -> by congruence.
    simpl. unfold name_of. by rewrite Hheap, list_lookup_middle.
  - destruct (Employee.__init__ department chief name salary w) as [res w'] eqn:H.
    unfold Employee.__init__ in H. rewrite Hshort in H.
    unfold bind at 1, lift in H. unfold bind at 1, new in H.
    apply bind_ret_inv in H as (res0 & H & _). simpl.
    set (r := EmployeeObject.Build_t _ _ _ _ _) in H.
    assert (employee_at (record (New (length (heap w)))
                           (with_heap (heap w ++ [employee_object r]) w))
              (length (heap w)) = Some r) as Hat.
    { unfold employee_at. simpl. by rewrite list_lookup_middle. }
    destruct (Employee_save_heap _ _ _ _ _ Hat eq_refl H) as [idv Hheap].
    simpl in Hheap. by rewrite (name_of_new _ _ _ _ Hheap).
Qed.

(** X1: the name that [Department(name)] and [Employee(..., name, ...)]
    store neither starts nor ends with whitespace and is its own
    whitespace-collapsed form (a single space between its words); it is
    empty exactly when [name] consists of whitespace only. *)
Theorem stored_name_tidy (name : text) (w : world) (department : addr)
    (chief : option addr) (salary : Z) :
  exists stored,
    name_of (Department.__init__ name w).2 (length (heap w)) = Some stored /\
    name_of (Employee.__init__ department chief name salary w).2 (length (heap w))
      = Some stored /\
    (stored = [] <-> forallb Str.isspace name = true) /\
    (forall c rest, stored = c :: rest -> Str.isspace c = false) /\
    (forall front c, stored = front ++ [c] -> Str.isspace c = false) /\
    collapse stored = stored.
Proof.
  destruct (shorten_100 name) as (short & Hshort & Hlen & Hpre & _).
  destruct (init_stores name w department chief salary short Hshort) as [Hd He].
  destruct (shorten_ends name 100 short ltac:(lia) Hshort) as [Hnil Hends].
  pose proof (join_starts_solid _ (collapse_words name)) as Hstart.
  fold (collapse name) in Hstart.
  exists short. split_and!; [done|done| | | |by eapply shorten_collapsed].
  - rewrite <- collapse_nil. split.
    + intros ->. destruct (decide (collapse name = [])) as [|Hne]; [done|].
      by destruct (Hends Hne) as ([|??] & ? & ? & _).
    + exact Hnil.
  - intros c rest ->. destruct Hpre as [q Hq]. rewrite Hq in Hstart. exact Hstart.
  - intros front c ->.
    destruct (decide (collapse name = [])) as [Hc|Hne].
    + specialize (Hnil Hc). by destruct front.
    + destruct (Hends Hne) as (front' & c' & Heq & Hc').
      apply app_inj_tail in Heq as [_ ->]. done.
Qed.

(** X2: constructing an entity from a name that an entity has stored
    stores that name again: [shorten] leaves its own results alone. *)
Theorem stored_name_kept (name : text) (w w2 : world) (department : addr)
    (chief : option addr) (salary : Z) (stored : text) :
  name_of (Department.__init__ name w).2 (length (heap w)) = Some stored ->
  name_of (Department.__init__ stored w2).2 (length (heap w2)) = Some stored /\
  name_of (Employee.__init__ department chief stored salary w2).2 (length (heap w2))
    = Some stored.
Proof.
  intros Hstored.
  destruct (shorten_100 name) as (short & Hshort & Hlen0 & _).
  destruct (init_stores name w department chief salary short Hshort) as [Hd _].
  assert (short = stored) as -> by congruence.
  apply init_stores.
  destruct (shorten_100 stored) as (again & Hagain & Hlen & _ & Hfit).
  rewrite Hagain. f_equal.
  rewrite (shorten_collapsed name stored Hshort) in Hfit. by apply Hfit.
Qed.

Lemma stored_name_kept_witness :
  let name := str "  Grace   Hopper " in
  let w := sample_ready (fun _ => 0) in
  let w2 := sample_boot (fun _ => 3) in
  name_of (Department.__init__ name w).2 (length (heap w)) = Some (str "Grace Hopper") /\
  name_of (Department.__init__ (str "Grace Hopper") w2).2 (length (heap w2))
    = Some (str "Grace Hopper") /\
  name_of (Employee.__init__ 0%nat None (str "Grace Hopper") 30000 w2).2 (length (heap w2))
    = Some (str "Grace Hopper").
Proof.
  intros name w w2.
  assert (name_of (Department.__init__ name w).2 (length (heap w))
          = Some (str "Grace Hopper")) as H by (vm_compute; reflexivity).
  split; [exact H|].
  exact (stored_name_kept name w w2 0%nat None 30000 (str "Grace Hopper") H).
Defined.

(* ===================================================================== *)
(** ** Further properties: resetting the schema *)
(* ===================================================================== *)

(** X3: when the environment plans no fault, [create_tables] returns
    whatever tables and rows it finds, and leaves the two tables empty;
    the objects of the program are as they were.  So a reset after a
    seeding, and a reset after a reset, succeed as well. *)
Theorem reset_succeeds (w : world) :
  quiet w ->
  exists w',
    create_tables w = (Ok tt, w') /\
    Sql.department (conn w') = Some Sql.empty /\
    Sql.employee (conn w') = Some Sql.empty /\
    Sql.count (Sql.department (conn w')) = O /\
    Sql.count (Sql.employee (conn w')) = O /\
    heap w' = heap w /\ quiet w'.
Proof.
  intros Hq. destruct (create_tables_run w Hq) as (w' & H & _).
  destruct (create_tables_ok _ _ H) as (Hd & He & Hh & (Hfa & _)).
  exists w'. rewrite Hd, He. split_and!; try done.
  intros k. rewrite Hfa. apply Hq.
Qed.

Lemma reset_succeeds_witness :
  let w := (create_fake_data 2 3 (sample_ready (fun n => Z.of_nat n))).2 in
  quiet w /\
  Sql.count (Sql.department (conn w)) = 2%nat /\
  Sql.count (Sql.employee (conn w)) = 3%nat /\
  exists w',
    create_tables w = (Ok tt, w') /\
    Sql.department (conn w') = Some Sql.empty /\
    Sql.employee (conn w') = Some Sql.empty /\
    Sql.count (Sql.department (conn w')) = O /\
    Sql.count (Sql.employee (conn w')) = O /\
    heap w' = heap w /\ quiet w'.
Proof.
  intros w.
  assert (quiet w) as Hq by (intros k; reflexivity).
  split; [exact Hq|]. split; [vm_compute; reflexivity|]. split; [vm_compute; reflexivity|].
  exact (reset_succeeds w Hq).
Defined.

(** X4: when the environment plans no fault, [create_tables] logs one
    warning for each of the two tables that does not exist, the employee
    table first, and nothing else: no warning on a database that has both
    tables, two on a new database. *)
Theorem reset_warnings (w : world) :
  quiet w ->
  warnings (trace (create_tables w).2)
  = warnings (trace w) ++ missing (Sql.employee (conn w))
                       ++ missing (Sql.department (conn w)).
Proof.
  intros Hq. destruct (create_tables_run w Hq) as (w' & H & Hw). by rewrite H.
Qed.

Lemma reset_warnings_witness :
  let w := sample_boot (fun _ => 0) in
  let w1 := (create_tables w).2 in
  quiet w /\ quiet w1 /\
  warnings (trace w1) = [pyodbc_Error "42S02"; pyodbc_Error "42S02"] /\
  warnings (trace (create_tables w1).2) = warnings (trace w1) /\
  warnings (trace (create_tables w).2)
  = warnings (trace w) ++ missing (Sql.employee (conn w))
                       ++ missing (Sql.department (conn w)).
Proof.
  intros w w1.
  assert (quiet w) as Hq by (intros k; reflexivity).
  assert (quiet w1) as Hq1 by (intros k; reflexivity).
  split; [exact Hq|]. split; [exact Hq1|]. split; [vm_compute; reflexivity|].
  split; [|exact (reset_warnings w Hq)].
  rewrite (reset_warnings w1 Hq1). vm_compute. reflexivity.
Defined.

(* ===================================================================== *)
(** ** Further properties: the database after a seeding *)
(* ===================================================================== *)

Lemma inserted_empty_size {R : Type} (rs : list R) :
  size (Sql.rows (inserted rs Sql.empty)) = length rs.
Proof. rewrite inserted_size by apply empty_keyed. simpl. by rewrite map_size_empty. Qed.

Lemma generated_department w w' (ds : list DepartmentObject.t) h j dd :
  heap w' = heap w ++ (department_object <$> ds) ++ h -> ds !! j = Some dd ->
  department_at w' (length (heap w) + j)%nat = Some dd.
Proof.
  intros Hh Hj. unfold department_at. rewrite Hh, lookup_app_r by lia.
  replace (length (heap w) + j - length (heap w))%nat with j by lia.
  rewrite (lookup_app_l_Some _ _ _ (department_object dd)); [done|].
  by rewrite list_lookup_fmap, Hj.
Qed.

Lemma generated_employee w w' (ds : list DepartmentObject.t) (rs : list EmployeeObject.t) j r :
  heap w' = heap w ++ (department_object <$> ds) ++ (employee_object <$> rs) ->
  rs !! j = Some r ->
  employee_at w' (length (heap w) + length ds + j)%nat = Some r.
Proof.
  intros Hh Hj. unfold employee_at. rewrite Hh, lookup_app_r by lia.
  rewrite lookup_app_r by (rewrite length_fmap; lia).
  rewrite length_fmap.
  replace (length (heap w) + length ds + j - length (heap w) - length ds)%nat with j by lia.
  by rewrite list_lookup_fmap, Hj.
Qed.

(** X5: after [create_tables], a [create_fake_data] that returns leaves
    exactly as many rows in each table as it returns objects: the number of
    departments asked for, and the number of employees asked for when there
    is a department (none otherwise). *)
Theorem seeded_row_counts (departments_amount employees_amount : Z)
    (w0 w : world) (departments employees : list addr) (w' : world) :
  create_tables w0 = (Ok tt, w) ->
  create_fake_data departments_amount employees_amount w
    = (Ok (departments, employees), w') ->
  length departments = Z.to_nat departments_amount /\
  length employees = match Z.to_nat departments_amount with
                     | O => O
                     | S _ => Z.to_nat employees_amount
                     end /\
  Sql.count (Sql.department (conn w')) = length departments /\
  Sql.count (Sql.employee (conn w')) = length employees.
Proof.
  intros H0 H. destruct (create_tables_ok _ _ H0) as (Hdt & Het & _).
  destruct (create_fake_data_db _ _ _ _ _ _ _ _ H Hdt Het)
    as (ds & rs & rows & Hlds & Hlrs & -> & -> & _ & Hrows & Hd & He & _).
  rewrite Hd, He, !length_seq. simpl. rewrite !inserted_empty_size, length_fmap.
  apply Forall2_length in Hrows. split_and!; congruence.
Qed.

Lemma seeded_row_counts_witness :
  let w0 := sample_boot (fun n => Z.of_nat n) in
  let w := (create_tables w0).2 in
  let run := create_fake_data 2 3 w in
  create_tables w0 = (Ok tt, w) /\
  run = (Ok ([0%nat; 1%nat], [2%nat; 3%nat; 4%nat]), run.2) /\
  Sql.count (Sql.department (conn run.2)) = 2%nat /\
  Sql.count (Sql.employee (conn run.2)) = 3%nat.
Proof.
  intros w0 w run.
  assert (create_tables w0 = (Ok tt, w)) as H0 by (vm_compute; reflexivity).
  assert (run = (Ok ([0%nat; 1%nat], [2%nat; 3%nat; 4%nat]), run.2)) as H
    by (vm_compute; reflexivity).
  split; [exact H0|]. split; [exact H|].
  exact (proj2 (proj2 (seeded_row_counts 2 3 w0 w _ _ _ H0 H))).
Defined.

(** X6: in a [create_fake_data] that returns, the objects get the
    identities that the tables hand out, one after the other in creation
    order: the department at position [j] the next identity value of the
    department table plus [j], and likewise the employees; so no two
    departments and no two employees share an identity. *)
Theorem identities_in_order (departments_amount employees_amount : Z) (w : world)
    (departments employees : list addr) (w' : world)
    (dt : Sql.table text) (et : Sql.table Sql.employee_row) :
  create_fake_data departments_amount employees_amount w
    = (Ok (departments, employees), w') ->
  Sql.department (conn w) = Some dt ->
  Sql.employee (conn w) = Some et ->
  (forall j a, departments !! j = Some a ->
     id_of w' a = Some (Sql.next_identity dt + Z.of_nat j)) /\
  (forall j a, employees !! j = Some a ->
     id_of w' a = Some (Sql.next_identity et + Z.of_nat j)).
Proof.
  intros H Hdt Het.
  destruct (create_fake_data_db _ _ _ _ _ _ _ _ H Hdt Het)
    as (ds & rs & rows & Hlds & Hlrs & -> & -> & Hheap & _ & _ & _ & _ & _ & _ & Hds & Hrs).
  split; intros j a [-> Hj]%lookup_seq.
  - destruct (lookup_lt_is_Some_2 ds j Hj) as [dd Hdd].
    rewrite (id_of_at_department _ _ _ (generated_department _ _ _ _ _ _ Hheap Hdd)).
    by destruct (Hds _ _ Hdd).
  - destruct (lookup_lt_is_Some_2 rs j Hj) as [r Hr].
    rewrite (id_of_at_employee _ _ _ (generated_employee _ _ _ _ _ _ Hheap Hr)).
    by destruct (Hrs _ _ Hr).
Qed.

Lemma identities_in_order_witness :
  let w := sample_ready (fun n => Z.of_nat n) in
  let run := create_fake_data 2 3 w in
  run = (Ok ([0%nat; 1%nat], [2%nat; 3%nat; 4%nat]), run.2) /\
  Sql.department (conn w) = Some Sql.empty /\
  Sql.employee (conn w) = Some Sql.empty /\
  id_of run.2 1%nat = Some 2 /\ id_of run.2 4%nat = Some 3 /\
  (forall j a, [0%nat; 1%nat] !! j = Some a -> id_of run.2 a = Some (1 + Z.of_nat j)) /\
  (forall j a, [2%nat; 3%nat; 4%nat] !! j = Some a -> id_of run.2 a = Some (1 + Z.of_nat j)).
Proof.
  intros w run.
  assert (run = (Ok ([0%nat; 1%nat], [2%nat; 3%nat; 4%nat]), run.2)) as H
    by (vm_compute; reflexivity).
  assert (Sql.department (conn w) = Some Sql.empty) as Hdt by (vm_compute; reflexivity).
  assert (Sql.employee (conn w) = Some Sql.empty) as Het by (vm_compute; reflexivity).
  split; [exact H|]. split; [exact Hdt|]. split; [exact Het|].
  split; [vm_compute; reflexivity|]. split; [vm_compute; reflexivity|].
  exact (identities_in_order 2 3 w _ _ _ _ _ H Hdt Het).
Defined.

(** X7: in a [create_fake_data] that returns, every object it returns has
    its row: the department table holds, under the identity of each
    department, the name of that department; the employee table holds,
    under the identity of each employee, the identity of its department,
    the identity of its chief (null without chief), its name and its
    salary.  The rows that the tables held before are as they were. *)
Theorem rows_mirror_objects (departments_amount employees_amount : Z) (w : world)
    (departments employees : list addr) (w' : world)
    (dt : Sql.table text) (et : Sql.table Sql.employee_row) :
  create_fake_data departments_amount employees_amount w
    = (Ok (departments, employees), w') ->
  Sql.department (conn w) = Some dt ->
  Sql.employee (conn w) = Some et ->
  exists dt' et',
    Sql.department (conn w') = Some dt' /\
    Sql.employee (conn w') = Some et' /\
    (forall a, a ∈ departments ->
       exists dd v,
         department_at w' a = Some dd /\ DepartmentObject.id dd = Some v /\
         Sql.rows dt' !! v = Some (DepartmentObject.name dd)) /\
    (forall a, a ∈ employees ->
       exists r v row,
         employee_at w' a = Some r /\ EmployeeObject.id r = Some v /\
         row_of w' r = Some row /\ Sql.rows et' !! v = Some row) /\
    (forall k, k < Sql.next_identity dt -> Sql.rows dt' !! k = Sql.rows dt !! k) /\
    (forall k, k < Sql.next_identity et -> Sql.rows et' !! k = Sql.rows et !! k).
Proof.
  intros H Hdt Het.
  destruct (create_fake_data_db _ _ _ _ _ _ _ _ H Hdt Het)
    as (ds & rs & rows & Hlds & Hlrs & -> & -> & Hheap & Hrows & Hd & He & _ & _ & _
        & Hds & Hrs).
  eexists _, _. split_and!; [exact Hd|exact He| | | |].
  - intros a [Ha1 Ha2]%elem_of_seq.
    destruct (lookup_lt_is_Some_2 ds (a - length (heap w))%nat ltac:(lia)) as [dd Hdd].
    pose proof (generated_department _ _ _ _ _ _ Hheap Hdd) as Hat.
    replace (length (heap w) + (a - length (heap w)))%nat with a in Hat by lia.
    destruct (Hds _ _ Hdd) as [Hid _].
    eexists dd, _. split_and!; [exact Hat|exact Hid|].
    apply inserted_new. by rewrite list_lookup_fmap, Hdd.
  - intros a [Ha1 Ha2]%elem_of_seq.
    destruct (lookup_lt_is_Some_2 rs (a - (length (heap w) + length ds))%nat ltac:(lia))
      as [r Hr].
    pose proof (generated_employee _ _ _ _ _ _ Hheap Hr) as Hat.
    replace (length (heap w) + length ds + (a - (length (heap w) + length ds)))%nat
      with a in Hat by lia.
    destruct (Hrs _ _ Hr) as [Hid _].
    destruct (Forall2_lookup_l _ _ _ _ _ Hrows Hr) as (row & Hrow & Hof).
    eexists r, _, row. split_and!; [exact Hat|exact Hid|done|].
    by apply inserted_new.
  - intros k Hk. by apply inserted_old.
  - intros k Hk. by apply inserted_old.
Qed.

Lemma rows_mirror_objects_witness :
  let w := sample_ready (fun n => Z.of_nat n) in
  let run := create_fake_data 2 3 w in
  run = (Ok ([0%nat; 1%nat], [2%nat; 3%nat; 4%nat]), run.2) /\
  Sql.department (conn w) = Some Sql.empty /\
  Sql.employee (conn w) = Some Sql.empty /\
  exists dt' et',
    Sql.department (conn run.2) = Some dt' /\
    Sql.employee (conn run.2) = Some et' /\
    (forall a, a ∈ [0%nat; 1%nat] ->
       exists dd v,
         department_at run.2 a = Some dd /\ DepartmentObject.id dd = Some v /\
         Sql.rows dt' !! v = Some (DepartmentObject.name dd)) /\
    (forall a, a ∈ [2%nat; 3%nat; 4%nat] ->
       exists r v row,
         employee_at run.2 a = Some r /\ EmployeeObject.id r = Some v /\
         row_of run.2 r = Some row /\ Sql.rows et' !! v = Some row) /\
    (forall k, k < Sql.next_identity (@Sql.empty text) ->
       Sql.rows dt' !! k = Sql.rows (@Sql.empty text) !! k) /\
    (forall k, k < Sql.next_identity (@Sql.empty Sql.employee_row) ->
       Sql.rows et' !! k = Sql.rows (@Sql.empty Sql.employee_row) !! k).
Proof.
  intros w run.
  assert (run = (Ok ([0%nat; 1%nat], [2%nat; 3%nat; 4%nat]), run.2)) as H
    by (vm_compute; reflexivity).
  assert (Sql.department (conn w) = Some Sql.empty) as Hdt by (vm_compute; reflexivity).
  assert (Sql.employee (conn w) = Some Sql.empty) as Het by (vm_compute; reflexivity).
  split; [exact H|]. split; [exact Hdt|]. split; [exact Het|].
  exact (rows_mirror_objects 2 3 w _ _ _ _ _ H Hdt Het).
Defined.

(** X8: after [create_tables], a [create_fake_data] that returns leaves an
    employee table in which every row references a row of the department
    table and, when it has a chief, an employee row with a smaller key: the
    chief references of the rows cannot form a cycle. *)
Theorem references_resolve (departments_amount employees_amount : Z)
    (w0 w : world) (departments employees : list addr) (w' : world) :
  create_tables w0 = (Ok tt, w) ->
  create_fake_data departments_amount employees_amount w
    = (Ok (departments, employees), w') ->
  exists dt' et',
    Sql.department (conn w') = Some dt' /\
    Sql.employee (conn w') = Some et' /\
    forall k row, Sql.rows et' !! k = Some row ->
      is_Some (Sql.rows dt' !! Sql.department_id row) /\
      forall cv, Sql.chief_id row = Some cv ->
        cv < k /\ is_Some (Sql.rows et' !! cv).
Proof.
  intros H0 H. destruct (create_tables_ok _ _ H0) as (Hdt & Het & _).
  destruct (create_fake_data_db _ _ _ _ _ _ _ _ H Hdt Het)
    as (ds & rs & rows & Hlds & Hlrs & -> & -> & Hheap & Hrows & Hd & He & _ & _ & _
        & Hds & Hrs).
  eexists _, _. split_and!; [exact Hd|exact He|].
  intros k row Hk. apply inserted_inv in Hk as [Hk|(j & -> & Hj)].
  { simpl in Hk. by rewrite lookup_empty in Hk. }
  destruct (Forall2_lookup_r _ _ _ _ _ Hrows Hj) as (r & Hr & Hof).
  destruct (Hrs _ _ Hr) as (_ & _ & _ & _ & _ & dv & Hdv & Hhas & Hchief).
  unfold row_of in Hof. rewrite Hdv in Hof. injection Hof as <-. simpl.
  split; [by apply has_true|].
  intros cv Hcv. apply Hchief, has_true in Hcv as [crow Hcrow].
  apply inserted_inv in Hcrow as [Hc|(i & -> & Hi)].
  { simpl in Hc. by rewrite lookup_empty in Hc. }
  apply lookup_take_Some in Hi as [Hi Hlt]. split; [simpl; lia|].
  rewrite (inserted_new _ _ _ _ Hi). done.
Qed.

Lemma references_resolve_witness :
  let w0 := sample_boot (fun n => Z.of_nat n) in
  let w := (create_tables w0).2 in
  let run := create_fake_data 2 3 w in
  create_tables w0 = (Ok tt, w) /\
  run = (Ok ([0%nat; 1%nat], [2%nat; 3%nat; 4%nat]), run.2) /\
  exists dt' et',
    Sql.department (conn run.2) = Some dt' /\
    Sql.employee (conn run.2) = Some et' /\
    forall k row, Sql.rows et' !! k = Some row ->
      is_Some (Sql.rows dt' !! Sql.department_id row) /\
      forall cv, Sql.chief_id row = Some cv ->
        cv < k /\ is_Some (Sql.rows et' !! cv).
Proof.
  intros w0 w run.
  assert (create_tables w0 = (Ok tt, w)) as H0 by (vm_compute; reflexivity).
  assert (run = (Ok ([0%nat; 1%nat], [2%nat; 3%nat; 4%nat]), run.2)) as H
    by (vm_compute; reflexivity).
  split; [exact H0|]. split; [exact H|].
  exact (references_resolve 2 3 w0 w _ _ _ H0 H).
Defined.

(** X9: the events of a [create_fake_data] that returns are, for each
    department and then for each employee, in creation order: the
    allocation of the object, its [INSERT], the query for the identity, the
    fetch of its row, the assignment to [id], and the commit.  Nothing
    else happens: no [UPDATE], no other statement, no second attempt. *)
Theorem events_of_seeding (departments_amount employees_amount : Z) (w : world)
    (departments employees : list addr) (w' : world)
    (dt : Sql.table text) (et : Sql.table Sql.employee_row) :
  create_fake_data departments_amount employees_amount w
    = (Ok (departments, employees), w') ->
  Sql.department (conn w) = Some dt ->
  Sql.employee (conn w) = Some et ->
  trace w' = trace w ++ flat_map (birth_of w') (departments ++ employees) /\
  forall a, a ∈ departments ++ employees ->
    exists s v, insert_of w' a = Some s /\ id_of w' a = Some v /\
                birth_of w' a = birth a s v.
Proof.
  intros H Hdt Het.
  destruct (create_fake_data_db _ _ _ _ _ _ _ _ H Hdt Het)
    as (ds & rs & rows & Hlds & Hlrs & -> & -> & Hheap & _ & _ & _ & Ht & _ & _ & Hds & Hrs).
  split; [exact Ht|].
  intros a [[Ha1 Ha2]%elem_of_seq|[Ha1 Ha2]%elem_of_seq]%elem_of_app.
  - destruct (lookup_lt_is_Some_2 ds (a - length (heap w))%nat ltac:(lia)) as [dd Hdd].
    pose proof (generated_department _ _ _ _ _ _ Hheap Hdd) as Hat.
    replace (length (heap w) + (a - length (heap w)))%nat with a in Hat by lia.
    destruct (Hds _ _ Hdd) as [Hid _].
    rewrite (birth_of_department _ _ _ _ (department_at_heap _ _ _ Hat) Hid).
    rewrite (id_of_at_department _ _ _ Hat), Hid.
    unfold insert_of. rewrite (department_at_heap _ _ _ Hat). by eexists _, _.
  - destruct (lookup_lt_is_Some_2 rs (a - (length (heap w) + length ds))%nat ltac:(lia))
      as [r Hr].
    pose proof (generated_employee _ _ _ _ _ _ Hheap Hr) as Hat.
    replace (length (heap w) + length ds + (a - (length (heap w) + length ds)))%nat
      with a in Hat by lia.
    destruct (Hrs _ _ Hr) as [Hid _].
    rewrite (birth_of_employee _ _ _ _ (employee_at_heap _ _ _ Hat) Hid).
    rewrite (id_of_at_employee _ _ _ Hat), Hid.
    unfold insert_of. rewrite (employee_at_heap _ _ _ Hat). by eexists _, _.
Qed.

Lemma events_of_seeding_witness :
  let w := sample_ready (fun n => Z.of_nat n) in
  let run := create_fake_data 1 1 w in
  run = (Ok ([0%nat], [1%nat]), run.2) /\
  Sql.department (conn w) = Some Sql.empty /\
  Sql.employee (conn w) = Some Sql.empty /\
  statements (flat_map (birth_of run.2) [0%nat; 1%nat])
  = [INSERT_INTO_department (str "Synergistic web-enabled matrix I"); SELECT_IDENTITY;
     INSERT_INTO_employee (Some 1) None (str "Grace Hopper II") 20001; SELECT_IDENTITY] /\
  trace run.2 = trace w ++ flat_map (birth_of run.2) ([0%nat] ++ [1%nat]).
Proof.
  intros w run.
  assert (run = (Ok ([0%nat], [1%nat]), run.2)) as H by (vm_compute; reflexivity).
  assert (Sql.department (conn w) = Some Sql.empty) as Hdt by (vm_compute; reflexivity).
  assert (Sql.employee (conn w) = Some Sql.empty) as Het by (vm_compute; reflexivity).
  split; [exact H|]. split; [exact Hdt|]. split; [exact Het|].
  split; [vm_compute; reflexivity|].
  exact (proj1 (events_of_seeding 1 1 w _ _ _ _ _ H Hdt Het)).
Defined.

(* ===================================================================== *)
(** ** Further properties: failures and completion *)
(* ===================================================================== *)

(** X10: an exception that leaves [create_fake_data] or the script is the
    exception of the last thing that happened: a call on the connection or
    cursor that raised it, or a request to the fake-data generator that
    raised it.  The code raises nothing of its own: no subscript is out of
    range, no [randint] gets an empty range, no [fetchone] comes back
    without a row. *)
Theorem exceptions_are_collaborators :
  (forall departments_amount employees_amount w e w',
     create_fake_data departments_amount employees_amount w = (Raise e, w') ->
     blamed w' e) /\
  (forall w e w', main w = (Raise e, w') -> blamed w' e).
Proof.
  split.
  - intros d n w e w'. apply create_fake_data_blamed.
  - intros w e w'. apply main_blamed.
Qed.

Lemma exceptions_are_collaborators_witness :
  let lost := sample_lossy 22 (fun _ => 0) in
  let scarce := (create_tables (boot (sample_scarce 2) no_tables no_faults (fun _ => 0))).2 in
  main lost = (Raise (pyodbc_Error "08S01"), (main lost).2) /\
  last (trace (main lost).2)
    = Some (Call (execute SELECT_IDENTITY) (Some (pyodbc_Error "08S01"))) /\
  create_fake_data 3 1 scarce = (Raise UniquenessException, (create_fake_data 3 1 scarce).2) /\
  last (Faker.history (fake (create_fake_data 3 1 scarce).2))
    = Some (Faker.catch_phrase, Raise UniquenessException) /\
  blamed (main lost).2 (pyodbc_Error "08S01") /\
  blamed (create_fake_data 3 1 scarce).2 UniquenessException.
Proof.
  intros lost scarce.
  assert (main lost = (Raise (pyodbc_Error "08S01"), (main lost).2)) as H1
    by (vm_compute; reflexivity).
  assert (create_fake_data 3 1 scarce
          = (Raise UniquenessException, (create_fake_data 3 1 scarce).2)) as H2
    by (vm_compute; reflexivity).
  split; [exact H1|]. split; [vm_compute; reflexivity|].
  split; [exact H2|]. split; [vm_compute; reflexivity|].
  split.
  - exact (proj2 exceptions_are_collaborators lost _ _ H1).
  - exact (proj1 exceptions_are_collaborators 3 1 scarce _ _ H2).
Defined.

(** X11: in a world whose environment plans no fault, with the two
    tables, [create_fake_data] returns, whatever the random draws, when
    the fake-data generator answers the requests of this run (the catch
    phrases of the departments, then the names of the employees) and each
    table takes the rows of this run (the identity values it hands out
    are [INTEGER]s and are not keys already).  Every insert it sends is
    then accepted: the names fit into 100 characters, the salaries into
    an [INTEGER], the references point to rows.  It returns as many
    departments as asked for, and as many employees as asked for when
    there is a department. *)
Theorem seeding_completes (departments_amount employees_amount : Z) (w : world)
    (dt : Sql.table text) (et : Sql.table Sql.employee_row) :
  quiet w ->
  answering (fake w) (requests departments_amount employees_amount) = true ->
  Sql.department (conn w) = Some dt -> Sql.employee (conn w) = Some et ->
  room dt (Z.to_nat departments_amount) = true ->
  room et (match Z.to_nat departments_amount with
           | O => O
           | S _ => Z.to_nat employees_amount
           end) = true ->
  exists departments employees w',
    create_fake_data departments_amount employees_amount w
      = (Ok (departments, employees), w') /\
    length departments = Z.to_nat departments_amount /\
    length employees = match Z.to_nat departments_amount with
                       | O => O
                       | S _ => Z.to_nat employees_amount
                       end.
Proof.
  intros Hq Hh Hdt Het Hrd Hre.
  destruct (create_fake_data_run departments_amount employees_amount w dt et
              Hq Hh Hdt Het Hrd Hre) as (deps & emps & w' & H).
  exists deps, emps, w'. split; [exact H|].
  destruct (create_fake_data_db _ _ _ _ _ _ _ _ H Hdt Het)
    as (ds & rs & rows & Hlds & Hlrs & -> & -> & _).
  by rewrite !length_seq.
Qed.

Lemma seeding_completes_witness :
  let w0 := boot (sample_scarce 16) no_tables no_faults (fun n => 7 * Z.of_nat n) in
  let w := (create_fake_data 1 2 (create_tables w0).2).2 in
  let dt := default Sql.empty (Sql.department (conn w)) in
  let et := default Sql.empty (Sql.employee (conn w)) in
  quiet w /\
  answering (fake w) (requests 4 9) = true /\
  Sql.department (conn w) = Some dt /\ Sql.employee (conn w) = Some et /\
  room dt (Z.to_nat 4) = true /\
  room et (match Z.to_nat 4 with
           | O => O
           | S _ => Z.to_nat 9
           end) = true /\
  length (Faker.history (fake w)) = 3%nat /\
  Sql.next_identity dt = 2 /\ Sql.next_identity et = 3 /\
  answering (fake w) (requests 4 10) = false /\
  exists departments employees w',
    create_fake_data 4 9 w = (Ok (departments, employees), w') /\
    length departments = Z.to_nat 4 /\
    length employees = match Z.to_nat 4 with
                       | O => O
                       | S _ => Z.to_nat 9
                       end.
Proof.
  intros w0 w dt et.
  assert (quiet w) as Hq by (intros k; reflexivity).
  assert (answering (fake w) (requests 4 9) = true) as Hh by (vm_compute; reflexivity).
  assert (Sql.department (conn w) = Some dt) as Hdt by (vm_compute; reflexivity).
  assert (Sql.employee (conn w) = Some et) as Het by (vm_compute; reflexivity).
  assert (room dt (Z.to_nat 4) = true) as Hrd by (vm_compute; reflexivity).
  assert (room et (match Z.to_nat 4 with
                   | O => O
                   | S _ => Z.to_nat 9
                   end) = true) as Hre by (vm_compute; reflexivity).
  split; [exact Hq|]. split; [exact Hh|]. split; [exact Hdt|]. split; [exact Het|].
  split; [exact Hrd|]. split; [exact Hre|].
  split; [vm_compute; reflexivity|]. split; [vm_compute; reflexivity|].
  split; [vm_compute; reflexivity|]. split; [vm_compute; reflexivity|].
  exact (seeding_completes 4 9 w dt et Hq Hh Hdt Het Hrd Hre).
Defined.

(** X12: the script, started on a database that holds at most the two
    tables [department] and [employee] and nothing that refers to them,
    with an environment that plans no fault, runs to its end when the
    generator seeded with 73 answers the requests of this run: one catch
    phrase for each department and then one name for each employee, at
    most 60 answers.  It leaves between 3 and 10 department rows and
    between 10 and 50 employee rows, the numbers that its first two
    random draws fix, and its last two calls close the cursor and then
    the connection. *)
Theorem main_completes (lib : Z -> list Faker.provider -> result text)
    (db : Sql.database) (plan : nat -> option exn) (entropy : nat -> Z) :
  (forall k, plan k = None) ->
  answering (Faker.seed lib 73)
            (requests (3 + entropy 0%nat mod 8) (10 + entropy 1%nat mod 41)) = true ->
  exists w' t,
    main (boot lib db plan entropy) = (Ok tt, w') /\
    Sql.count (Sql.department (conn w')) = Z.to_nat (3 + entropy 0%nat mod 8) /\
    Sql.count (Sql.employee (conn w')) = Z.to_nat (10 + entropy 1%nat mod 41) /\
    (3 <= Sql.count (Sql.department (conn w')) <= 10)%nat /\
    (10 <= Sql.count (Sql.employee (conn w')) <= 50)%nat /\
    trace w' = t ++ [Call cursor_close None; Call conn_close None].
Proof.
  intros Hplan Hlib. set (w := boot lib db plan entropy).
  assert (quiet w) as Hq by exact Hplan.
  destruct (create_tables_run w Hq) as (w1 & H1 & _).
  destruct (create_tables_ok _ _ H1) as (Hdt & Het & _ & (Hfa & Hr & Hfk)).
  unfold main. rewrite (bind_run _ _ _ _ _ H1).
  rewrite (bind_run _ _ _ _ _ (randint_run 3 10 _ ltac:(lia))).
  rewrite (bind_run _ _ _ _ _ (randint_run 10 50 _ ltac:(lia))).
  assert (draws (random w1) (used (random w1)) = entropy 0%nat) as ->
    by (by rewrite Hr).
  assert (draws (random (drawn w1)) (used (random (drawn w1))) = entropy 1%nat) as ->
    by (cbn [drawn random with_random draws used]; by rewrite Hr).
  change (10 - 3 + 1) with 8. change (50 - 10 + 1) with 41.
  set (d := 3 + entropy 0%nat mod 8) in *. set (n := 10 + entropy 1%nat mod 41) in *.
  set (w3 := drawn (drawn w1)).
  assert (3 <= d <= 10) as Hd by (pose proof (Z.mod_pos_bound (entropy 0%nat) 8); lia).
  assert (10 <= n <= 50) as Hn by (pose proof (Z.mod_pos_bound (entropy 1%nat) 41); lia).
  assert (quiet w3) as Hq3 by (intros k; simpl; rewrite Hfa; apply Hq).
  assert (answering (fake w3) (requests d n) = true) as Hh3.
  { cbn [w3 drawn fake with_random]. by rewrite Hfk. }
  destruct (create_fake_data_run d n w3 _ _ Hq3 Hh3 Hdt Het) as (deps & emps & w4 & H4).
  { apply room_empty. lia. }
  { apply room_empty. destruct (Z.to_nat d); lia. }
  rewrite (bind_run _ _ _ _ _ H4).
  destruct (create_fake_data_db _ _ _ _ _ _ _ _ H4 Hdt Het)
    as (ds & rs & rows & Hlds & Hlrs & _ & _ & _ & Hrows & Hd4 & He4 & _ & Hfa4 & _).
  assert (quiet w4) as Hq4 by (intros k; rewrite Hfa4; apply Hq3).
  unfold close.
  rewrite (bind_run _ _ _ _ _ (session_call_run cursor_close _ w4 tt (conn w4) Hq4 eq_refl)).
  set (w5 := record _ _). assert (quiet w5) as Hq5 by done.
  rewrite (session_call_run conn_close _ w5 tt (conn w5) Hq5 eq_refl).
  apply Forall2_length in Hrows.
  assert (Sql.count (Sql.department (conn w4)) = Z.to_nat d) as Hcd.
  { rewrite Hd4. simpl. by rewrite inserted_empty_size, length_fmap. }
  assert (Sql.count (Sql.employee (conn w4)) = Z.to_nat n) as Hce.
  { rewrite He4. simpl. rewrite inserted_empty_size, <- Hrows, Hlrs.
    destruct (Z.to_nat d) eqn:E; [lia|done]. }
  eexists _, (trace w4). split_and!; [reflexivity|exact Hcd|exact Hce| | | | |].
  - simpl. rewrite Hcd. lia.
  - simpl. rewrite Hcd. lia.
  - simpl. rewrite Hce. lia.
  - simpl. rewrite Hce. lia.
  - simpl. by rewrite <- app_assoc.
Qed.

Lemma main_completes_witness :
  let entropy := fun n : nat => 5 * Z.of_nat n + 2 in
  (forall k, no_faults k = None) /\
  answering (Faker.seed (sample_scarce 22) 73)
            (requests (3 + entropy 0%nat mod 8) (10 + entropy 1%nat mod 41)) = true /\
  (main (boot (sample_scarce 22) sample_used no_faults entropy)).1 = Ok tt /\
  (main (boot (sample_scarce 21) sample_used no_faults entropy)).1
    = Raise UniquenessException /\
  exists w' t,
    main (boot (sample_scarce 22) sample_used no_faults entropy) = (Ok tt, w') /\
    Sql.count (Sql.department (conn w')) = Z.to_nat (3 + entropy 0%nat mod 8) /\
    Sql.count (Sql.employee (conn w')) = Z.to_nat (10 + entropy 1%nat mod 41) /\
    (3 <= Sql.count (Sql.department (conn w')) <= 10)%nat /\
    (10 <= Sql.count (Sql.employee (conn w')) <= 50)%nat /\
    trace w' = t ++ [Call cursor_close None; Call conn_close None].
Proof.
  intros entropy.
  assert (forall k, no_faults k = None) as Hplan by (intros k; reflexivity).
  assert (answering (Faker.seed (sample_scarce 22) 73)
            (requests (3 + entropy 0%nat mod 8) (10 + entropy 1%nat mod 41)) = true)
    as Hlib by (vm_compute; reflexivity).
  split; [exact Hplan|]. split; [exact Hlib|].
  split; [vm_compute; reflexivity|]. split; [vm_compute; reflexivity|].
  exact (main_completes (sample_scarce 22) sample_used no_faults entropy Hplan Hlib).
Defined.

(* ===================================================================== *)
(** ** Further properties: the department draw, and saves at the edge *)
(* ===================================================================== *)

(** X13: in a run of the employee generator that returns, the department
    of the employee at position [j] is [departments[department_pos]], where
    [department_pos] is the first draw of pass [j]: a value of the
    inclusive range from 0 to [len(departments) - 1], every department as
    likely as any other when the draw is uniform. *)
Theorem department_choice (amount : Z) (departments : list addr) (w : world)
    (employees : list addr) (w' : world) :
  Forall (allocated w) departments ->
  get_random_employees amount departments w = (Ok employees, w') ->
  forall j e, employees !! j = Some e ->
    exists r, employee_at w' e = Some r /\
      let department_pos :=
        draws (random w) (used (random w) + draws_used j)%nat mod len departments in
      0 <= department_pos <= len departments - 1 /\
      departments !! Z.to_nat department_pos = Some (EmployeeObject.department r).
Proof.
  intros Halloc H j e Hj.
  assert (0 < len departments) as Hlen.
  { unfold get_random_employees in H. destruct (len departments <? 1) eqn:E.
    - injection H as <- <-. done.
    - apply Z.ltb_ge in E. lia. }
  destruct (get_random_employees_ok _ _ _ _ _ Halloc H) as (rs & -> & Hheap & _ & _ & Hrs).
  apply lookup_seq in Hj as [-> Hj].
  destruct (lookup_lt_is_Some_2 rs j Hj) as [r Hr].
  destruct (Hrs _ _ Hr) as [(Hdep & _) _].
  exists r. split; [by eapply employee_at_generated|].
  split; [|exact Hdep].
  pose proof (Z.mod_pos_bound (draws (random w) (used (random w) + draws_used j)%nat)
                (len departments) Hlen). lia.
Qed.

Lemma department_choice_witness :
  let w := (get_random_departments 3 (sample_ready (fun n => 2 * Z.of_nat n + 1))).2 in
  let run := get_random_employees 3 [0%nat; 1%nat; 2%nat] w in
  Forall (allocated w) [0%nat; 1%nat; 2%nat] /\
  run = (Ok [3%nat; 4%nat; 5%nat], run.2) /\
  (EmployeeObject.department <$> employee_at run.2 4%nat) = Some 2%nat /\
  forall j e, [3%nat; 4%nat; 5%nat] !! j = Some e ->
    exists r, employee_at run.2 e = Some r /\
      let department_pos :=
        draws (random w) (used (random w) + draws_used j)%nat
          mod len [0%nat; 1%nat; 2%nat] in
      0 <= department_pos <= len [0%nat; 1%nat; 2%nat] - 1 /\
      [0%nat; 1%nat; 2%nat] !! Z.to_nat department_pos
        = Some (EmployeeObject.department r).
Proof.
  intros w run.
  assert (Forall (allocated w) [0%nat; 1%nat; 2%nat]) as Halloc.
  { repeat constructor; vm_compute; eexists; reflexivity. }
  assert (run = (Ok [3%nat; 4%nat; 5%nat], run.2)) as H by (vm_compute; reflexivity).
  split; [exact Halloc|]. split; [exact H|]. split; [vm_compute; reflexivity|].
  exact (department_choice 3 [0%nat; 1%nat; 2%nat] w _ _ Halloc H).
Defined.

(** X14: [Employee.save] passes [self.department.id] to the [INSERT] as it
    is.  For a department that has no identity the database gets a null
    [department_id] and rejects the row (SQLSTATE 23000); the exception
    leaves [save] right there: the employee stays without identity and
    nothing is committed. *)
Theorem transient_department_rejected (w : world) (self : addr)
    (r : EmployeeObject.t) (et : Sql.table Sql.employee_row) :
  quiet w ->
  employee_at w self = Some r -> EmployeeObject.id r = None ->
  allocated w (EmployeeObject.department r) ->
  id_of w (EmployeeObject.department r) = None ->
  (forall c, EmployeeObject.chief r = Some c -> allocated w c) ->
  Sql.employee (conn w) = Some et ->
  exists w',
    Employee.save self w = (Raise (pyodbc_Error "23000"), w') /\
    trace w' = trace w
               ++ [Call (execute (INSERT_INTO_employee None (chief_key w r)
                                    (EmployeeObject.name r) (EmployeeObject.salary r)))
                        (Some (pyodbc_Error "23000"))] /\
    heap w' = heap w /\ conn w' = conn w /\ id_of w' self = None.
Proof.
  intros Hq Hat Hid Hdep Hnone Hchf Het. unfold Employee.save.
  rewrite (bind_run _ _ _ _ _ (Employee_attributes_run _ _ _ Hat)), Hid.
  rewrite bind_assoc, (bind_run _ _ _ _ _ (get_id_run _ _ Hdep)), Hnone.
  rewrite bind_assoc, (bind_run _ _ _ _ _ (chief_id_run _ _ Hchf)).
  fold (chief_key w r).
  unfold bind, cursor_execute, session_call. rewrite Hq. simpl. rewrite Het. simpl.
  eexists. split_and!; [reflexivity|done|done|done|].
  unfold id_of. cbn [heap record]. apply employee_at_heap in Hat. by rewrite Hat.
Qed.

Lemma transient_department_rejected_witness :
  let w := (new sample_employee (new sample_department (sample_ready (fun _ => 0))).2).2 in
  quiet w /\
  employee_at w 1%nat
    = Some {| EmployeeObject.department := 0%nat; EmployeeObject.chief := None;
              EmployeeObject.name := str "Ada Lovelace"; EmployeeObject.salary := 52000;
              EmployeeObject.id := None |} /\
  id_of w 0%nat = None /\
  Sql.employee (conn w) = Some Sql.empty /\
  exists w',
    Employee.save 1%nat w = (Raise (pyodbc_Error "23000"), w') /\
    trace w' = trace w
               ++ [Call (execute (INSERT_INTO_employee None None (str "Ada Lovelace") 52000))
                        (Some (pyodbc_Error "23000"))] /\
    heap w' = heap w /\ conn w' = conn w /\ id_of w' 1%nat = None.
Proof.
  intros w.
  assert (quiet w) as Hq by (intros k; reflexivity).
  pose (r := {| EmployeeObject.department := 0%nat; EmployeeObject.chief := None;
                EmployeeObject.name := str "Ada Lovelace"; EmployeeObject.salary := 52000;
                EmployeeObject.id := None |}).
  assert (employee_at w 1%nat = Some r) as Hat by (vm_compute; reflexivity).
  assert (id_of w 0%nat = None) as Hnone by (vm_compute; reflexivity).
  assert (Sql.employee (conn w) = Some Sql.empty) as Het by (vm_compute; reflexivity).
  split; [exact Hq|]. split; [exact Hat|]. split; [exact Hnone|]. split; [exact Het|].
  refine (transient_department_rejected w 1%nat r Sql.empty Hq Hat eq_refl _ Hnone _ Het).
  - vm_compute. eexists. reflexivity.
  - intros c Hc. discriminate Hc.
Defined.

(** X15: [save] of an entity that has an identity sends an [UPDATE] and
    does not look at what it did.  When no row has that identity (after a
    reset of the schema, say) the [UPDATE] touches nothing and [save]
    returns all the same: the tables are as they were, the entity is not
    inserted again and keeps its identity. *)
Theorem stale_save_is_silent :
  (forall w self d i dt,
     quiet w -> department_at w self = Some d -> DepartmentObject.id d = Some i ->
     Sql.department (conn w) = Some dt -> Sql.has dt i = false ->
     exists w',
       Department.save self w = (Ok tt, w') /\
       trace w' = trace w ++ update_plan (UPDATE_department (DepartmentObject.name d) i) /\
       Sql.department (conn w') = Some dt /\
       Sql.employee (conn w') = Sql.employee (conn w) /\
       heap w' = heap w) /\
  (forall w self r i et,
     quiet w -> employee_at w self = Some r -> EmployeeObject.id r = Some i ->
     allocated w (EmployeeObject.department r) ->
     (forall c, EmployeeObject.chief r = Some c -> allocated w c) ->
     Sql.employee (conn w) = Some et -> Sql.has et i = false ->
     exists w',
       Employee.save self w = (Ok tt, w') /\
       trace w' = trace w ++ employee_plan w self r i /\
       Sql.employee (conn w') = Some et /\
       Sql.department (conn w') = Sql.department (conn w) /\
       heap w' = heap w).
Proof.
  split.
  - intros w self d i dt Hq Hat Hid Hdt Hhas. unfold Department.save.
    rewrite (bind_run _ _ _ _ _ (Department_attributes_run _ _ _ Hat)), Hid.
    assert (Sql.run (UPDATE_department (DepartmentObject.name d) i) (conn w)
            = Ok {| Sql.department := Sql.department (conn w);
                    Sql.employee := Sql.employee (conn w);
                    Sql.last_identity := Sql.last_identity (conn w);
                    Sql.pending := None |}) as Hrun.
    { simpl. by rewrite Hdt, Hhas. }
    rewrite (ddl_run _ _ _ Hq Hrun). eexists. split_and!; [reflexivity| |done|done|done].
    simpl. by rewrite <- app_assoc.
  - intros w self r i et Hq Hat Hid Hdep Hchf Het Hhas. unfold Employee.save.
    rewrite (bind_run _ _ _ _ _ (Employee_attributes_run _ _ _ Hat)), Hid.
    rewrite bind_assoc, (bind_run _ _ _ _ _ (get_id_run _ _ Hdep)).
    rewrite bind_assoc, (bind_run _ _ _ _ _ (chief_id_run _ _ Hchf)).
    fold (chief_key w r).
    assert (Sql.run (UPDATE_employee (id_of w (EmployeeObject.department r)) (chief_key w r)
                       (EmployeeObject.name r) (EmployeeObject.salary r) i) (conn w)
            = Ok {| Sql.department := Sql.department (conn w);
                    Sql.employee := Sql.employee (conn w);
                    Sql.last_identity := Sql.last_identity (conn w);
                    Sql.pending := None |}) as Hrun.
    { simpl. by rewrite Het, Hhas. }
    rewrite (ddl_run _ _ _ Hq Hrun). eexists. split_and!; [reflexivity| |done|done|done].
    unfold employee_plan. rewrite Hid. simpl. by rewrite <- app_assoc.
Qed.

Lemma stale_save_is_silent_witness :
  let w1 := (Department.__init__ (str "Sales") (sample_ready (fun _ => 0))).2 in
  let w := (create_tables w1).2 in
  let d := {| DepartmentObject.name := str "Sales"; DepartmentObject.id := Some 1 |} in
  quiet w /\
  Sql.count (Sql.department (conn w1)) = 1%nat /\
  department_at w 0%nat = Some d /\
  Sql.department (conn w) = Some Sql.empty /\
  Sql.has (@Sql.empty text) 1 = false /\
  exists w',
    Department.save 0%nat w = (Ok tt, w') /\
    trace w' = trace w ++ update_plan (UPDATE_department (str "Sales") 1) /\
    Sql.department (conn w') = Some Sql.empty /\
    Sql.employee (conn w') = Sql.employee (conn w) /\
    heap w' = heap w.
Proof.
  intros w1 w d.
  assert (quiet w) as Hq by (intros k; reflexivity).
  assert (department_at w 0%nat = Some d) as Hat by (vm_compute; reflexivity).
  assert (Sql.department (conn w) = Some Sql.empty) as Hdt by (vm_compute; reflexivity).
  assert (Sql.has (@Sql.empty text) 1 = false) as Hhas by (vm_compute; reflexivity).
  split; [exact Hq|]. split; [vm_compute; reflexivity|]. split; [exact Hat|].
  split; [exact Hdt|]. split; [exact Hhas|].
  exact (proj1 stale_save_is_silent w 0%nat d 1 Sql.empty Hq Hat eq_refl Hdt Hhas).
Defined.
